(** * Rapid Photo Downloader: the rename-and-move worker and the name editor

    A shallow embedding of [rapid/renameandmovefile.py] (the daemon that
    generates destination names and moves downloaded files into place) and of
    [PrefEditor.generatePrefList] in [raphodo/nameeditor.py].

    Python objects that are mutated in place become explicit state: the worker
    is a record that every operation takes and returns, and the file system the
    worker acts on is a finite set of paths together with the log of the
    operations that were attempted. *)

From Stdlib Require Import Ascii.
From stdpp Require Import base gmap list strings pretty.

(** ** [os.path] (posixpath) *)

Module PosixPath.

Definition sep : ascii := "/"%char.
Definition extsep : ascii := "."%char.

Definition startswith_sep (s : string) : bool :=
  match s with
  | String c _ => bool_decide (c = sep)
  | EmptyString => false
  end.

Fixpoint endswith_sep (s : string) : bool :=
  match s with
  | EmptyString => false
  | String c EmptyString => bool_decide (c = sep)
  | String _ s' => endswith_sep s'
  end.

(** [os.path.join(a, b)]. *)
Definition join (a b : string) : string :=
  if startswith_sep b then b
  else if bool_decide (a = "") || endswith_sep a then a +:+ b
  else a +:+ String sep b.

(** [str.rfind(c)]: the highest index of [c], or -1. *)
Fixpoint rfind_from (c : ascii) (s : string) (i : Z) (found : Z) : Z :=
  match s with
  | EmptyString => found
  | String d s' =>
      rfind_from c s' (i + 1) (if bool_decide (d = c) then i else found)
  end.
Definition rfind (c : ascii) (s : string) : Z := rfind_from c s 0 (-1).

Definition char_at (s : string) (i : nat) : option ascii := String.get i s.

(** The [while filenameIndex < dotIndex] loop of [genericpath._splitext]:
    [true] when some character of [p] at an index in
    [filenameIndex, filenameIndex + n) is not a dot. *)
Fixpoint has_non_dot (p : string) (filenameIndex n : nat) : bool :=
  match n with
  | O => false
  | S n' =>
      if bool_decide (char_at p filenameIndex ≠ Some extsep) then true
      else has_non_dot p (S filenameIndex) n'
  end.

Definition slice_to (s : string) (e : nat) : string := String.substring 0 e s.
Definition slice_from (s : string) (b : nat) : string :=
  String.substring b (String.length s - b) s.

(** [os.path.splitext(p)]. *)
Definition splitext (p : string) : string * string :=
  let sepIndex := rfind sep p in
  let dotIndex := rfind extsep p in
  if bool_decide (dotIndex > sepIndex)%Z then
    let filenameIndex := Z.to_nat (sepIndex + 1) in
    if has_non_dot p filenameIndex (Z.to_nat dotIndex - filenameIndex)
    then (slice_to p (Z.to_nat dotIndex), slice_from p (Z.to_nat dotIndex))
    else (p, "")
  else (p, "").

End PosixPath.

(** ** The file system the worker acts on *)

Inductive Errno := EEXIST | ENOENT | EACCES | EISDIR.

Global Instance Errno_eq_dec : EqDecision Errno.
Proof. solve_decision. Defined.

Inductive FsOp :=
| OpMakedirs (path : string)
| OpRename (src dst : string)
| OpRemove (path : string).

(** Regular files, directories, the paths the process may not write to, and
    the operations attempted so far (most recent last). Paths are plain
    strings: the directory a file lies in is not tracked, [makedirs] adds the
    one directory it is given, and [rename] onto an existing regular file
    replaces it, as on POSIX, so that it never fails with [EEXIST]. Nothing
    but the worker changes the file system. *)
Record FileSystem := {
  fs_files : gset string;
  fs_dirs : gset string;
  fs_denied : gset string;
  fs_log : list FsOp
}.

Module Os.

Definition path_exists (fs : FileSystem) (p : string) : bool :=
  bool_decide (p ∈ fs_files fs) || bool_decide (p ∈ fs_dirs fs).

Definition path_isdir (fs : FileSystem) (p : string) : bool :=
  bool_decide (p ∈ fs_dirs fs).

Definition logged (op : FsOp) (fs : FileSystem) : FileSystem :=
  {| fs_files := fs_files fs; fs_dirs := fs_dirs fs;
     fs_denied := fs_denied fs; fs_log := fs_log fs ++ [op] |}.

(** [os.makedirs(p)]. *)
Definition makedirs (fs : FileSystem) (p : string) : FileSystem * option Errno :=
  let fs := logged (OpMakedirs p) fs in
  if bool_decide (p ∈ fs_denied fs) then (fs, Some EACCES)
  else if path_exists fs p then (fs, Some EEXIST)
  else ({| fs_files := fs_files fs; fs_dirs := {[p]} ∪ fs_dirs fs;
           fs_denied := fs_denied fs; fs_log := fs_log fs |}, None).

(** [os.rename(src, dst)]. *)
Definition rename (fs : FileSystem) (src dst : string) : FileSystem * option Errno :=
  let fs := logged (OpRename src dst) fs in
  if bool_decide (dst ∈ fs_denied fs) then (fs, Some EACCES)
  else if bool_decide (src ∉ fs_files fs) then (fs, Some ENOENT)
  else if bool_decide (dst ∈ fs_dirs fs) then (fs, Some EISDIR)
  else ({| fs_files := {[dst]} ∪ (fs_files fs ∖ {[src]}); fs_dirs := fs_dirs fs;
           fs_denied := fs_denied fs; fs_log := fs_log fs |}, None).

(** [os.remove(p)]. *)
Definition remove (fs : FileSystem) (p : string) : FileSystem * option Errno :=
  let fs := logged (OpRemove p) fs in
  if bool_decide (p ∈ fs_files fs)
  then ({| fs_files := fs_files fs ∖ {[p]}; fs_dirs := fs_dirs fs;
           fs_denied := fs_denied fs; fs_log := fs_log fs |}, None)
  else (fs, Some ENOENT).

End Os.

(** ** [SyncRawJpeg]: matching RAW and JPEG images *)

Inductive SyncRawJpegStatus :=
| matching_pair_status
| no_match
| error_already_downloaded
| error_datetime_mismatch.

Record SyncRawJpegMatch := {
  match_status : SyncRawJpegStatus;
  match_sequence_number : option Z
}.

(** The value of [photos[name]]: the extensions seen, the EXIF date time, the
    EXIF sub-seconds and the sequence number used. *)
Abbreviation PhotoRecord := (list string * Z * string * Z)%type.

Module SyncRawJpeg.

Definition init : gmap string PhotoRecord := ∅.

Definition add_download (photos : gmap string PhotoRecord)
    (name extension : string) (date_time : Z) (sub_seconds : string)
    (sequence_number_used : Z) : gmap string PhotoRecord :=
  match photos !! name with
  | None => <[name := ([extension], date_time, sub_seconds, sequence_number_used)]> photos
  | Some (exts, dt, ss, sq) =>
      if bool_decide (extension ∉ exts)
      then <[name := (exts ++ [extension], dt, ss, sq)]> photos
      else photos
  end.

Definition matching_pair (photos : gmap string PhotoRecord)
    (name extension : string) (date_time : Z) (sub_seconds : string)
    : SyncRawJpegMatch :=
  match photos !! name with
  | Some (exts, dt, ss, sq) =>
      if bool_decide (dt = date_time) && bool_decide (ss = sub_seconds) then
        if bool_decide (extension ∈ exts)
        then {| match_status := error_already_downloaded;
                match_sequence_number := Some sq |}
        else {| match_status := matching_pair_status;
                match_sequence_number := Some sq |}
      else {| match_status := error_datetime_mismatch;
              match_sequence_number := None |}
  | None => {| match_status := no_match; match_sequence_number := None |}
  end.

(** [ext_exif_date_time]: first extension, date time and sub-seconds of an
    already downloaded photo ([None] is Python's [KeyError]/[IndexError]). *)
Definition ext_exif_date_time (photos : gmap string PhotoRecord) (name : string)
    : option (string * Z * string) :=
  match photos !! name with
  | Some (e :: _, dt, ss, _) => Some (e, dt, ss)
  | _ => None
  end.

End SyncRawJpeg.

(** ** Values shared by the worker: constants, problems, the file being worked on *)

(** The members of [FileType], [DownloadStatus] and [ConflictResolution] (of
    [constants]) that the worker uses; [download_pending] is the status a
    downloaded file arrives with. *)

Inductive FileType := photo | video.

Inductive DownloadStatus :=
| download_pending
| downloaded
| downloaded_with_warning
| download_failed.

Inductive ConflictResolution := skip | add_identifier.

Global Instance FileType_eq_dec : EqDecision FileType.
Proof. solve_decision. Defined.
Global Instance DownloadStatus_eq_dec : EqDecision DownloadStatus.
Proof. solve_decision. Defined.
Global Instance ConflictResolution_eq_dec : EqDecision ConflictResolution.
Proof. solve_decision. Defined.
Global Instance SyncRawJpegStatus_eq_dec : EqDecision SyncRawJpegStatus.
Proof. solve_decision. Defined.

(** The [area] reported by [check_for_fatal_name_generation_errors]. *)
Inductive Area := subfolder_and_filename | filename | subfolder.

(** The problems ([problemnotification] codes) the worker attaches to a file,
    with the detail that identifies them. [GENERATION_PROBLEM] stands for the
    problems the name generators record themselves. *)
Inductive Problem :=
| CANNOT_DOWNLOAD_BAD_METADATA
| FILE_ALREADY_EXISTS_NO_DOWNLOAD
| UNIQUE_IDENTIFIER_ADDED (identifier : string)
| DOWNLOAD_COPYING_ERROR (inst : Errno)
| ERROR_IN_NAME_GENERATION (area : Area)
| FILE_ALREADY_DOWNLOADED
| SAME_FILE_DIFFERENT_EXIF
| GENERATION_PROBLEM (detail : string).

(** What the metadata service exposes of a file: [date_time()] and
    [sub_seconds()]. *)
Record Metadata := {
  date_time : Z;
  sub_seconds : string
}.

(** The attributes of an [RPDFile] the worker reads and writes.
    [file_metadata] is what reading the metadata of the temporary file gives
    ([None]: the read fails); [metadata] is the attribute of the same name,
    [None] until loaded. The display strings ([error_title], [error_msg],
    [error_extra_detail]) are renderings of [problem] and are left out. *)
Record RPDFile := {
  name : string;
  full_file_name : string;
  file_type : FileType;
  file_metadata : option Metadata;
  temp_full_file_name : string;
  temp_thm_full_name : string;
  temp_audio_full_name : string;
  temp_xmp_full_name : string;
  thm_extension : option string;
  audio_extension : option string;
  xmp_extension : string;
  metadata : option Metadata;
  status : DownloadStatus;
  problem : list Problem;
  download_folder : string;
  subfolder_pref_list : list string;
  name_pref_list : list string;
  download_subfolder : string;
  download_name : string;
  download_path : string;
  download_full_file_name : string;
  download_full_base_name : string;
  download_thm_full_name : string;
  download_audio_full_name : string;
  download_xmp_full_name : string
}.

Definition set_metadata (v : option Metadata) (f : RPDFile) : RPDFile :=
  {| name := name f;
     full_file_name := full_file_name f;
     file_type := file_type f;
     file_metadata := file_metadata f;
     temp_full_file_name := temp_full_file_name f;
     temp_thm_full_name := temp_thm_full_name f;
     temp_audio_full_name := temp_audio_full_name f;
     temp_xmp_full_name := temp_xmp_full_name f;
     thm_extension := thm_extension f;
     audio_extension := audio_extension f;
     xmp_extension := xmp_extension f;
     metadata := v;
     status := status f;
     problem := problem f;
     download_folder := download_folder f;
     subfolder_pref_list := subfolder_pref_list f;
     name_pref_list := name_pref_list f;
     download_subfolder := download_subfolder f;
     download_name := download_name f;
     download_path := download_path f;
     download_full_file_name := download_full_file_name f;
     download_full_base_name := download_full_base_name f;
     download_thm_full_name := download_thm_full_name f;
     download_audio_full_name := download_audio_full_name f;
     download_xmp_full_name := download_xmp_full_name f |}.

Definition set_status (v : DownloadStatus) (f : RPDFile) : RPDFile :=
  {| name := name f;
     full_file_name := full_file_name f;
     file_type := file_type f;
     file_metadata := file_metadata f;
     temp_full_file_name := temp_full_file_name f;
     temp_thm_full_name := temp_thm_full_name f;
     temp_audio_full_name := temp_audio_full_name f;
     temp_xmp_full_name := temp_xmp_full_name f;
     thm_extension := thm_extension f;
     audio_extension := audio_extension f;
     xmp_extension := xmp_extension f;
     metadata := metadata f;
     status := v;
     problem := problem f;
     download_folder := download_folder f;
     subfolder_pref_list := subfolder_pref_list f;
     name_pref_list := name_pref_list f;
     download_subfolder := download_subfolder f;
     download_name := download_name f;
     download_path := download_path f;
     download_full_file_name := download_full_file_name f;
     download_full_base_name := download_full_base_name f;
     download_thm_full_name := download_thm_full_name f;
     download_audio_full_name := download_audio_full_name f;
     download_xmp_full_name := download_xmp_full_name f |}.

Definition set_problem (v : list Problem) (f : RPDFile) : RPDFile :=
  {| name := name f;
     full_file_name := full_file_name f;
     file_type := file_type f;
     file_metadata := file_metadata f;
     temp_full_file_name := temp_full_file_name f;
     temp_thm_full_name := temp_thm_full_name f;
     temp_audio_full_name := temp_audio_full_name f;
     temp_xmp_full_name := temp_xmp_full_name f;
     thm_extension := thm_extension f;
     audio_extension := audio_extension f;
     xmp_extension := xmp_extension f;
     metadata := metadata f;
     status := status f;
     problem := v;
     download_folder := download_folder f;
     subfolder_pref_list := subfolder_pref_list f;
     name_pref_list := name_pref_list f;
     download_subfolder := download_subfolder f;
     download_name := download_name f;
     download_path := download_path f;
     download_full_file_name := download_full_file_name f;
     download_full_base_name := download_full_base_name f;
     download_thm_full_name := download_thm_full_name f;
     download_audio_full_name := download_audio_full_name f;
     download_xmp_full_name := download_xmp_full_name f |}.

Definition set_download_folder (v : string) (f : RPDFile) : RPDFile :=
  {| name := name f;
     full_file_name := full_file_name f;
     file_type := file_type f;
     file_metadata := file_metadata f;
     temp_full_file_name := temp_full_file_name f;
     temp_thm_full_name := temp_thm_full_name f;
     temp_audio_full_name := temp_audio_full_name f;
     temp_xmp_full_name := temp_xmp_full_name f;
     thm_extension := thm_extension f;
     audio_extension := audio_extension f;
     xmp_extension := xmp_extension f;
     metadata := metadata f;
     status := status f;
     problem := problem f;
     download_folder := v;
     subfolder_pref_list := subfolder_pref_list f;
     name_pref_list := name_pref_list f;
     download_subfolder := download_subfolder f;
     download_name := download_name f;
     download_path := download_path f;
     download_full_file_name := download_full_file_name f;
     download_full_base_name := download_full_base_name f;
     download_thm_full_name := download_thm_full_name f;
     download_audio_full_name := download_audio_full_name f;
     download_xmp_full_name := download_xmp_full_name f |}.

Definition set_subfolder_pref_list (v : list string) (f : RPDFile) : RPDFile :=
  {| name := name f;
     full_file_name := full_file_name f;
     file_type := file_type f;
     file_metadata := file_metadata f;
     temp_full_file_name := temp_full_file_name f;
     temp_thm_full_name := temp_thm_full_name f;
     temp_audio_full_name := temp_audio_full_name f;
     temp_xmp_full_name := temp_xmp_full_name f;
     thm_extension := thm_extension f;
     audio_extension := audio_extension f;
     xmp_extension := xmp_extension f;
     metadata := metadata f;
     status := status f;
     problem := problem f;
     download_folder := download_folder f;
     subfolder_pref_list := v;
     name_pref_list := name_pref_list f;
     download_subfolder := download_subfolder f;
     download_name := download_name f;
     download_path := download_path f;
     download_full_file_name := download_full_file_name f;
     download_full_base_name := download_full_base_name f;
     download_thm_full_name := download_thm_full_name f;
     download_audio_full_name := download_audio_full_name f;
     download_xmp_full_name := download_xmp_full_name f |}.

Definition set_name_pref_list (v : list string) (f : RPDFile) : RPDFile :=
  {| name := name f;
     full_file_name := full_file_name f;
     file_type := file_type f;
     file_metadata := file_metadata f;
     temp_full_file_name := temp_full_file_name f;
     temp_thm_full_name := temp_thm_full_name f;
     temp_audio_full_name := temp_audio_full_name f;
     temp_xmp_full_name := temp_xmp_full_name f;
     thm_extension := thm_extension f;
     audio_extension := audio_extension f;
     xmp_extension := xmp_extension f;
     metadata := metadata f;
     status := status f;
     problem := problem f;
     download_folder := download_folder f;
     subfolder_pref_list := subfolder_pref_list f;
     name_pref_list := v;
     download_subfolder := download_subfolder f;
     download_name := download_name f;
     download_path := download_path f;
     download_full_file_name := download_full_file_name f;
     download_full_base_name := download_full_base_name f;
     download_thm_full_name := download_thm_full_name f;
     download_audio_full_name := download_audio_full_name f;
     download_xmp_full_name := download_xmp_full_name f |}.

Definition set_download_subfolder (v : string) (f : RPDFile) : RPDFile :=
  {| name := name f;
     full_file_name := full_file_name f;
     file_type := file_type f;
     file_metadata := file_metadata f;
     temp_full_file_name := temp_full_file_name f;
     temp_thm_full_name := temp_thm_full_name f;
     temp_audio_full_name := temp_audio_full_name f;
     temp_xmp_full_name := temp_xmp_full_name f;
     thm_extension := thm_extension f;
     audio_extension := audio_extension f;
     xmp_extension := xmp_extension f;
     metadata := metadata f;
     status := status f;
     problem := problem f;
     download_folder := download_folder f;
     subfolder_pref_list := subfolder_pref_list f;
     name_pref_list := name_pref_list f;
     download_subfolder := v;
     download_name := download_name f;
     download_path := download_path f;
     download_full_file_name := download_full_file_name f;
     download_full_base_name := download_full_base_name f;
     download_thm_full_name := download_thm_full_name f;
     download_audio_full_name := download_audio_full_name f;
     download_xmp_full_name := download_xmp_full_name f |}.

Definition set_download_name (v : string) (f : RPDFile) : RPDFile :=
  {| name := name f;
     full_file_name := full_file_name f;
     file_type := file_type f;
     file_metadata := file_metadata f;
     temp_full_file_name := temp_full_file_name f;
     temp_thm_full_name := temp_thm_full_name f;
     temp_audio_full_name := temp_audio_full_name f;
     temp_xmp_full_name := temp_xmp_full_name f;
     thm_extension := thm_extension f;
     audio_extension := audio_extension f;
     xmp_extension := xmp_extension f;
     metadata := metadata f;
     status := status f;
     problem := problem f;
     download_folder := download_folder f;
     subfolder_pref_list := subfolder_pref_list f;
     name_pref_list := name_pref_list f;
     download_subfolder := download_subfolder f;
     download_name := v;
     download_path := download_path f;
     download_full_file_name := download_full_file_name f;
     download_full_base_name := download_full_base_name f;
     download_thm_full_name := download_thm_full_name f;
     download_audio_full_name := download_audio_full_name f;
     download_xmp_full_name := download_xmp_full_name f |}.

Definition set_download_path (v : string) (f : RPDFile) : RPDFile :=
  {| name := name f;
     full_file_name := full_file_name f;
     file_type := file_type f;
     file_metadata := file_metadata f;
     temp_full_file_name := temp_full_file_name f;
     temp_thm_full_name := temp_thm_full_name f;
     temp_audio_full_name := temp_audio_full_name f;
     temp_xmp_full_name := temp_xmp_full_name f;
     thm_extension := thm_extension f;
     audio_extension := audio_extension f;
     xmp_extension := xmp_extension f;
     metadata := metadata f;
     status := status f;
     problem := problem f;
     download_folder := download_folder f;
     subfolder_pref_list := subfolder_pref_list f;
     name_pref_list := name_pref_list f;
     download_subfolder := download_subfolder f;
     download_name := download_name f;
     download_path := v;
     download_full_file_name := download_full_file_name f;
     download_full_base_name := download_full_base_name f;
     download_thm_full_name := download_thm_full_name f;
     download_audio_full_name := download_audio_full_name f;
     download_xmp_full_name := download_xmp_full_name f |}.

Definition set_download_full_file_name (v : string) (f : RPDFile) : RPDFile :=
  {| name := name f;
     full_file_name := full_file_name f;
     file_type := file_type f;
     file_metadata := file_metadata f;
     temp_full_file_name := temp_full_file_name f;
     temp_thm_full_name := temp_thm_full_name f;
     temp_audio_full_name := temp_audio_full_name f;
     temp_xmp_full_name := temp_xmp_full_name f;
     thm_extension := thm_extension f;
     audio_extension := audio_extension f;
     xmp_extension := xmp_extension f;
     metadata := metadata f;
     status := status f;
     problem := problem f;
     download_folder := download_folder f;
     subfolder_pref_list := subfolder_pref_list f;
     name_pref_list := name_pref_list f;
     download_subfolder := download_subfolder f;
     download_name := download_name f;
     download_path := download_path f;
     download_full_file_name := v;
     download_full_base_name := download_full_base_name f;
     download_thm_full_name := download_thm_full_name f;
     download_audio_full_name := download_audio_full_name f;
     download_xmp_full_name := download_xmp_full_name f |}.

Definition set_download_full_base_name (v : string) (f : RPDFile) : RPDFile :=
  {| name := name f;
     full_file_name := full_file_name f;
     file_type := file_type f;
     file_metadata := file_metadata f;
     temp_full_file_name := temp_full_file_name f;
     temp_thm_full_name := temp_thm_full_name f;
     temp_audio_full_name := temp_audio_full_name f;
     temp_xmp_full_name := temp_xmp_full_name f;
     thm_extension := thm_extension f;
     audio_extension := audio_extension f;
     xmp_extension := xmp_extension f;
     metadata := metadata f;
     status := status f;
     problem := problem f;
     download_folder := download_folder f;
     subfolder_pref_list := subfolder_pref_list f;
     name_pref_list := name_pref_list f;
     download_subfolder := download_subfolder f;
     download_name := download_name f;
     download_path := download_path f;
     download_full_file_name := download_full_file_name f;
     download_full_base_name := v;
     download_thm_full_name := download_thm_full_name f;
     download_audio_full_name := download_audio_full_name f;
     download_xmp_full_name := download_xmp_full_name f |}.

Definition set_download_thm_full_name (v : string) (f : RPDFile) : RPDFile :=
  {| name := name f;
     full_file_name := full_file_name f;
     file_type := file_type f;
     file_metadata := file_metadata f;
     temp_full_file_name := temp_full_file_name f;
     temp_thm_full_name := temp_thm_full_name f;
     temp_audio_full_name := temp_audio_full_name f;
     temp_xmp_full_name := temp_xmp_full_name f;
     thm_extension := thm_extension f;
     audio_extension := audio_extension f;
     xmp_extension := xmp_extension f;
     metadata := metadata f;
     status := status f;
     problem := problem f;
     download_folder := download_folder f;
     subfolder_pref_list := subfolder_pref_list f;
     name_pref_list := name_pref_list f;
     download_subfolder := download_subfolder f;
     download_name := download_name f;
     download_path := download_path f;
     download_full_file_name := download_full_file_name f;
     download_full_base_name := download_full_base_name f;
     download_thm_full_name := v;
     download_audio_full_name := download_audio_full_name f;
     download_xmp_full_name := download_xmp_full_name f |}.

Definition set_download_audio_full_name (v : string) (f : RPDFile) : RPDFile :=
  {| name := name f;
     full_file_name := full_file_name f;
     file_type := file_type f;
     file_metadata := file_metadata f;
     temp_full_file_name := temp_full_file_name f;
     temp_thm_full_name := temp_thm_full_name f;
     temp_audio_full_name := temp_audio_full_name f;
     temp_xmp_full_name := temp_xmp_full_name f;
     thm_extension := thm_extension f;
     audio_extension := audio_extension f;
     xmp_extension := xmp_extension f;
     metadata := metadata f;
     status := status f;
     problem := problem f;
     download_folder := download_folder f;
     subfolder_pref_list := subfolder_pref_list f;
     name_pref_list := name_pref_list f;
     download_subfolder := download_subfolder f;
     download_name := download_name f;
     download_path := download_path f;
     download_full_file_name := download_full_file_name f;
     download_full_base_name := download_full_base_name f;
     download_thm_full_name := download_thm_full_name f;
     download_audio_full_name := v;
     download_xmp_full_name := download_xmp_full_name f |}.

Definition set_download_xmp_full_name (v : string) (f : RPDFile) : RPDFile :=
  {| name := name f;
     full_file_name := full_file_name f;
     file_type := file_type f;
     file_metadata := file_metadata f;
     temp_full_file_name := temp_full_file_name f;
     temp_thm_full_name := temp_thm_full_name f;
     temp_audio_full_name := temp_audio_full_name f;
     temp_xmp_full_name := temp_xmp_full_name f;
     thm_extension := thm_extension f;
     audio_extension := audio_extension f;
     xmp_extension := xmp_extension f;
     metadata := metadata f;
     status := status f;
     problem := problem f;
     download_folder := download_folder f;
     subfolder_pref_list := subfolder_pref_list f;
     name_pref_list := name_pref_list f;
     download_subfolder := download_subfolder f;
     download_name := download_name f;
     download_path := download_path f;
     download_full_file_name := download_full_file_name f;
     download_full_base_name := download_full_base_name f;
     download_thm_full_name := download_thm_full_name f;
     download_audio_full_name := download_audio_full_name f;
     download_xmp_full_name := v |}.

Definition add_problem (p : Problem) (f : RPDFile) : RPDFile :=
  set_problem (problem f ++ [p]) f.

Definition has_problem (f : RPDFile) : bool :=
  bool_decide (problem f ≠ []).

(** [rpd_file.metadata], dereferenced. The worker does so only after
    [load_metadata] returned [True], when the attribute is not [None]. *)
Definition the_metadata (f : RPDFile) : Metadata :=
  default {| date_time := 0; sub_seconds := "" |} (metadata f).

(** ** [Preferences] *)

(** The preference values the worker reads. The queries
    [must_synchronize_raw_jpg()] and [any_pref_uses_...()] are answered from
    the preference lists by code outside this file; their answers are fields
    here. [downloads_today] is the pair of the date and the count. *)
Module Preferences.

Record t := {
  conflict_resolution : ConflictResolution;
  must_synchronize_raw_jpg : bool;
  any_pref_uses_session_sequence_no : bool;
  any_pref_uses_sequence_letter_value : bool;
  any_pref_uses_stored_sequence_no : bool;
  stored_sequence_no : Z;
  downloads_today : Z * Z;
  day_start : string;
  photo_download_folder : string;
  video_download_folder : string;
  photo_subfolder : list string;
  video_subfolder : list string;
  photo_rename : list string;
  video_rename : list string
}.

Definition set_stored_sequence_no (v : Z) (p : t) : t :=
  {| conflict_resolution := conflict_resolution p;
     must_synchronize_raw_jpg := must_synchronize_raw_jpg p;
     any_pref_uses_session_sequence_no := any_pref_uses_session_sequence_no p;
     any_pref_uses_sequence_letter_value := any_pref_uses_sequence_letter_value p;
     any_pref_uses_stored_sequence_no := any_pref_uses_stored_sequence_no p;
     stored_sequence_no := v;
     downloads_today := downloads_today p;
     day_start := day_start p;
     photo_download_folder := photo_download_folder p;
     video_download_folder := video_download_folder p;
     photo_subfolder := photo_subfolder p;
     video_subfolder := video_subfolder p;
     photo_rename := photo_rename p;
     video_rename := video_rename p |}.

End Preferences.

(** ** [DownloadsTodayTracker] *)

Module DownloadsTodayTracker.

Record t := {
  day_start : string;
  downloads_today : Z * Z
}.

Definition init (day_start : string) (downloads_today : Z * Z) : t :=
  {| day_start := day_start; downloads_today := downloads_today |}.

(** Modelled from the spec: [get_or_reset_downloads_today] of the absent
    [preferences] module, the spec's [roll_downloads_today]: if the
    wall-clock date (relative to day-start) differs from the stored date,
    reset the count to 0 and update the stored date, else keep the
    accumulated count. [today] is that wall-clock date. *)
Definition get_or_reset_downloads_today (today : Z) (tr : t) : t * Z :=
  if bool_decide ((downloads_today tr).1 ≠ today)
  then ({| day_start := day_start tr; downloads_today := (today, 0%Z) |}, 0%Z)
  else (tr, (downloads_today tr).2).

(** Modelled from the spec: [increment_downloads_today] of the absent
    [preferences] module; the count of downloads today advances by one per
    placement. *)
Definition increment_downloads_today (tr : t) : t :=
  {| day_start := day_start tr;
     downloads_today := ((downloads_today tr).1, ((downloads_today tr).2 + 1)%Z) |}.

End DownloadsTodayTracker.

(** ** [generatename.Sequences] *)

Module Sequences.

(** [Sequences] also holds a reference to the worker's
    [DownloadsTodayTracker]; that single tracker lives in the worker record
    below, and no copy of it is kept here. *)
Record t := {
  session_sequence_no : Z;
  sequence_letter : Z;
  stored_sequence_no : Z;
  matched_sequences : option Z
}.

(** Modelled from the spec: the constructor of the absent [generatename]
    module, called as [Sequences(downloads_today_tracker,
    stored_sequence_no)]: the session sequence number and the sequence
    letter index are reset, the stored sequence number is the integer
    passed in, no matched sequence number is set. *)
Definition init (stored_sequence_no : Z) : t :=
  {| session_sequence_no := 0; sequence_letter := 0;
     stored_sequence_no := stored_sequence_no; matched_sequences := None |}.

(** Modelled from the spec: [set_matched(n)] of the absent [generatename]
    module fills the transient matched-sequence slot. *)
Definition set_matched_sequence_value (v : option Z) (s : t) : t :=
  {| session_sequence_no := session_sequence_no s;
     sequence_letter := sequence_letter s;
     stored_sequence_no := stored_sequence_no s;
     matched_sequences := v |}.

(** Modelled from the spec: [create_matched_sequences] of the absent
    [generatename] module gives the sequence number the file being placed
    used, which a later counterpart reuses: the current session sequence
    number. *)
Definition create_matched_sequences (s : t) : Z := session_sequence_no s.

(** Modelled from the spec: [increment(uses_session, uses_letter)] of the
    absent [generatename] module conditionally advances
    [session_sequence_no] and/or the sequence letter index, each gated by
    its flag. *)
Definition increment (uses_session_sequence_no uses_sequence_letter : bool)
    (s : t) : t :=
  {| session_sequence_no :=
       if uses_session_sequence_no then (session_sequence_no s + 1)%Z
       else session_sequence_no s;
     sequence_letter :=
       if uses_sequence_letter then (sequence_letter s + 1)%Z
       else sequence_letter s;
     stored_sequence_no := stored_sequence_no s;
     matched_sequences := matched_sequences s |}.

End Sequences.

(** ** The name generators of [generatename] *)

(** The generator classes [PhotoSubfolder], [VideoSubfolder], [PhotoName] and
    [VideoName] live outside this file and are taken as parameters. A
    generator is built from a preference list; its [generate_name] reads the
    file (and, for file names, the sequences attached to it as
    [rpd_file.sequences]) and returns a string or [None], together with the
    problems it recorded on the file. *)
Class NameGenerators := {
  PhotoSubfolder : list string → RPDFile → option string * list Problem;
  VideoSubfolder : list string → RPDFile → option string * list Problem;
  PhotoName : list string → RPDFile → Sequences.t → option string * list Problem;
  VideoName : list string → RPDFile → Sequences.t → option string * list Problem
}.

(** ** Module-level functions of [renameandmovefile] *)

Record SyncRawJpegResult := {
  sequence_to_use : option Z;
  failed : bool;
  photo_name : string;
  photo_ext : string
}.

Definition load_metadata (f : RPDFile) : RPDFile * bool :=
  match metadata f with
  | None =>
      match file_metadata f with
      | Some m => (set_metadata (Some m) f, true)
      | None => (add_problem CANNOT_DOWNLOAD_BAD_METADATA f, false)
      end
  | Some _ => (f, true)
  end.

Definition _generate_name
    (generator : RPDFile → option string * list Problem) (f : RPDFile)
    : RPDFile * string :=
  let '(f, do_generation) := load_metadata f in
  if do_generation then
    let '(value, problems) := generator f in
    (set_problem (problem f ++ problems) f, default "" value)
  else (f, "").

Definition generate_subfolder `{NameGenerators} (f : RPDFile) : RPDFile :=
  let generator :=
    if bool_decide (file_type f = photo)
    then PhotoSubfolder (subfolder_pref_list f)
    else VideoSubfolder (subfolder_pref_list f) in
  let '(f, value) := _generate_name generator f in
  set_download_subfolder value f.

Definition generate_name `{NameGenerators} (sequences : Sequences.t)
    (f : RPDFile) : RPDFile :=
  let generator :=
    if bool_decide (file_type f = photo)
    then (λ g, PhotoName (name_pref_list f) g sequences)
    else (λ g, VideoName (name_pref_list f) g sequences) in
  let '(f, value) := _generate_name generator f in
  set_download_name value f.

(** ** [RenameMoveFileWorker] *)

(** The attributes of the worker that its methods read and write, and the file
    system they act on. *)
Record Worker := {
  prefs : Preferences.t;
  sync_raw_jpeg : gmap string PhotoRecord;
  duplicate_files : gmap string Z;
  downloads_today_tracker : DownloadsTodayTracker.t;
  sequences : Sequences.t;
  fs : FileSystem
}.

Definition set_prefs (v : Preferences.t) (w : Worker) : Worker :=
  {| prefs := v; sync_raw_jpeg := sync_raw_jpeg w;
     duplicate_files := duplicate_files w;
     downloads_today_tracker := downloads_today_tracker w;
     sequences := sequences w; fs := fs w |}.

Definition set_sync_raw_jpeg (v : gmap string PhotoRecord) (w : Worker) : Worker :=
  {| prefs := prefs w; sync_raw_jpeg := v;
     duplicate_files := duplicate_files w;
     downloads_today_tracker := downloads_today_tracker w;
     sequences := sequences w; fs := fs w |}.

Definition set_duplicate_files (v : gmap string Z) (w : Worker) : Worker :=
  {| prefs := prefs w; sync_raw_jpeg := sync_raw_jpeg w;
     duplicate_files := v;
     downloads_today_tracker := downloads_today_tracker w;
     sequences := sequences w; fs := fs w |}.

Definition set_downloads_today_tracker (v : DownloadsTodayTracker.t)
    (w : Worker) : Worker :=
  {| prefs := prefs w; sync_raw_jpeg := sync_raw_jpeg w;
     duplicate_files := duplicate_files w;
     downloads_today_tracker := v;
     sequences := sequences w; fs := fs w |}.

Definition set_sequences (v : Sequences.t) (w : Worker) : Worker :=
  {| prefs := prefs w; sync_raw_jpeg := sync_raw_jpeg w;
     duplicate_files := duplicate_files w;
     downloads_today_tracker := downloads_today_tracker w;
     sequences := v; fs := fs w |}.

Definition set_fs (v : FileSystem) (w : Worker) : Worker :=
  {| prefs := prefs w; sync_raw_jpeg := sync_raw_jpeg w;
     duplicate_files := duplicate_files w;
     downloads_today_tracker := downloads_today_tracker w;
     sequences := sequences w; fs := v |}.

(** [notify_file_already_exists]; [identifier] is [None] when the argument is
    left at its default. *)
Definition notify_file_already_exists (f : RPDFile) (identifier : option string)
    : RPDFile :=
  match identifier with
  | Some i =>
      if bool_decide (i = "") then
        set_status download_failed (add_problem FILE_ALREADY_EXISTS_NO_DOWNLOAD f)
      else
        set_status downloaded_with_warning (add_problem (UNIQUE_IDENTIFIER_ADDED i) f)
  | None =>
      set_status download_failed (add_problem FILE_ALREADY_EXISTS_NO_DOWNLOAD f)
  end.

Definition notify_download_failure_file_error (f : RPDFile) (inst : Errno)
    : RPDFile :=
  set_status download_failed (add_problem (DOWNLOAD_COPYING_ERROR inst) f).

Definition download_file_exists (w : Worker) (f : RPDFile) : RPDFile * bool :=
  if bool_decide (Preferences.conflict_resolution (prefs w) = add_identifier)
  then (f, true)
  else (notify_file_already_exists f None, false).

Definition same_name_different_exif (w : Worker) (sync_photo_name : string)
    (f : RPDFile) : RPDFile :=
  set_status downloaded_with_warning (add_problem SAME_FILE_DIFFERENT_EXIF f).

Definition _move_associate_file (w : Worker) (extension full_base_name
    temp_associate_file : string) : Worker * (bool * string) :=
  let download_full_name := full_base_name +:+ extension in
  match Os.rename (fs w) temp_associate_file download_full_name with
  | (fs', None) => (set_fs fs' w, (true, download_full_name))
  | (fs', Some _) => (set_fs fs' w, (false, download_full_name))
  end.

(** A string attribute that may be absent or [None] is an [option]; it is
    used only when it is present and not empty. *)
Definition extension_or (ext : option string) (fallback : string) : string :=
  match ext with
  | Some e => if bool_decide (e = "") then fallback else e
  | None => fallback
  end.

Definition move_thm_file (w : Worker) (f : RPDFile) : Worker * RPDFile :=
  let ext := extension_or (thm_extension f) ".THM" in
  let '(w, (result, full_name)) :=
    _move_associate_file w ext (download_full_base_name f) (temp_thm_full_name f) in
  (w, set_download_thm_full_name full_name f).

Definition move_audio_file (w : Worker) (f : RPDFile) : Worker * RPDFile :=
  let ext := extension_or (audio_extension f) ".WAV" in
  let '(w, (result, full_name)) :=
    _move_associate_file w ext (download_full_base_name f) (temp_audio_full_name f) in
  (w, set_download_audio_full_name full_name f).

(** The [area] named in the problem: which of the two strings is blank. *)
Definition blank_area (f : RPDFile) : Area :=
  if bool_decide (download_subfolder f = "") && bool_decide (download_name f = "")
  then subfolder_and_filename
  else if bool_decide (download_name f = "") then filename
  else subfolder.

Definition check_for_fatal_name_generation_errors (f : RPDFile) : RPDFile * bool :=
  if bool_decide (download_subfolder f = "") || bool_decide (download_name f = "")
  then
    (set_status download_failed
       (add_problem (ERROR_IN_NAME_GENERATION (blank_area f)) f), false)
  else (f, true).

(** The [while True] loop of [add_unique_identifier]; [None] when [fuel]
    iterations were not enough to leave it. *)
Fixpoint add_unique_identifier_loop (fuel : nat) (name : string * string)
    (full_name : string) (w : Worker) (f : RPDFile)
    : option (Worker * RPDFile * bool) :=
  match fuel with
  | O => None
  | S fuel' =>
      let n := (default 0 (duplicate_files w !! full_name) + 1)%Z in
      let w := set_duplicate_files (<[full_name := n]> (duplicate_files w)) w in
      let identifier := "_" +:+ pretty n in
      let f := set_download_name (name.1 +:+ identifier +:+ name.2) f in
      let f := set_download_full_file_name
                 (PosixPath.join (download_path f) (download_name f)) f in
      if Os.path_exists (fs w) (download_full_file_name f) then
        add_unique_identifier_loop fuel' name full_name w f
      else
        match Os.rename (fs w) (temp_full_file_name f) (download_full_file_name f) with
        | (fs', None) =>
            Some (set_fs fs' w, notify_file_already_exists f (Some identifier), true)
        | (fs', Some inst) =>
            if bool_decide (inst ≠ EEXIST)
            then Some (set_fs fs' w, notify_download_failure_file_error f inst, false)
            else add_unique_identifier_loop fuel' name full_name (set_fs fs' w) f
        end
  end.

(** The number of paths that exist: after that many names found taken, the
    next one is free. *)
Definition existing_paths (fs : FileSystem) : nat :=
  size (fs_files fs ∪ fs_dirs fs).

(** [add_unique_identifier]. The loop is run with one more iteration than
    there are existing paths, which always lets it finish
    ([add_unique_identifier_loop_finishes]); the last branch is never taken. *)
Definition add_unique_identifier (w : Worker) (f : RPDFile)
    : Worker * RPDFile * bool :=
  let name := PosixPath.splitext (download_name f) in
  let full_name := download_full_file_name f in
  match add_unique_identifier_loop (S (existing_paths (fs w))) name full_name w f with
  | Some r => r
  | None => (w, f, false)
  end.

Definition sync_raw_jpg (w : Worker) (f : RPDFile)
    : Worker * RPDFile * SyncRawJpegResult :=
  let '(photo_name, photo_ext) := PosixPath.splitext (name f) in
  let '(f, loaded) := load_metadata f in
  if negb loaded then
    let f := set_status download_failed f in
    let '(f, _) := check_for_fatal_name_generation_errors f in
    (w, f, {| sequence_to_use := None; failed := true;
              photo_name := photo_name; photo_ext := photo_ext |})
  else
    let matching_pair :=
      SyncRawJpeg.matching_pair (sync_raw_jpeg w) photo_name photo_ext
        (date_time (the_metadata f)) (sub_seconds (the_metadata f)) in
    let sequence_to_use := match_sequence_number matching_pair in
    if bool_decide (match_status matching_pair = error_already_downloaded) then
      if bool_decide (Preferences.conflict_resolution (prefs w) ≠ add_identifier)
      then
        (w, set_status download_failed (add_problem FILE_ALREADY_DOWNLOADED f),
         {| sequence_to_use := sequence_to_use; failed := true;
            photo_name := photo_name; photo_ext := photo_ext |})
      else
        (w, f, {| sequence_to_use := sequence_to_use; failed := false;
                  photo_name := photo_name; photo_ext := photo_ext |})
    else
      let w := set_sequences
                 (Sequences.set_matched_sequence_value
                    (match_sequence_number matching_pair) (sequences w)) w in
      let f := if bool_decide (match_status matching_pair = error_datetime_mismatch)
               then same_name_different_exif w photo_name f else f in
      (w, f, {| sequence_to_use := sequence_to_use; failed := false;
                photo_name := photo_name; photo_ext := photo_ext |}).

Definition prepare_rpd_file (w : Worker) (f : RPDFile) : RPDFile :=
  if bool_decide (file_type f = photo) then
    set_name_pref_list (Preferences.photo_rename (prefs w))
      (set_subfolder_pref_list (Preferences.photo_subfolder (prefs w))
         (set_download_folder (Preferences.photo_download_folder (prefs w)) f))
  else
    set_name_pref_list (Preferences.video_rename (prefs w))
      (set_subfolder_pref_list (Preferences.video_subfolder (prefs w))
         (set_download_folder (Preferences.video_download_folder (prefs w)) f)).

Definition process_rename_failure (w : Worker) (f : RPDFile) : Worker :=
  set_fs (Os.remove (fs w) (temp_full_file_name f)).1 w.

(** [generate_names]. The copy of [prefs.strip_characters] onto the file is
    read by the generators only and is left out; [rpd_file.sequences =
    self.sequences] is the [sequences] argument of [generate_name]. *)
Definition generate_names `{NameGenerators} (w : Worker) (f : RPDFile)
    : RPDFile * bool :=
  let f := generate_subfolder f in
  let f :=
    if bool_decide (download_subfolder f ≠ "") then
      let f := generate_name (sequences w) f in
      if has_problem f then set_status downloaded_with_warning f else f
    else f in
  check_for_fatal_name_generation_errors f.

(** [move_file]. The [try] block either renames the temporary file, or ends in
    one of its handlers; [add_unique_identifier] is then called for its
    effect, and [move_succeeded] is returned as the [try] block left it. *)
Definition move_file (w : Worker) (f : RPDFile) : Worker * RPDFile * bool :=
  let f := set_download_path
             (PosixPath.join (download_folder f) (download_subfolder f)) f in
  let f := set_download_full_file_name
             (PosixPath.join (download_path f) (download_name f)) f in
  let f := set_download_full_base_name
             (PosixPath.splitext (download_full_file_name f)).1 f in
  let w :=
    if negb (Os.path_isdir (fs w) (download_path f))
    then set_fs (Os.makedirs (fs w) (download_path f)).1 w
    else w in
  let '(w, f, move_succeeded, add_identifier_wanted) :=
    if Os.path_exists (fs w) (download_full_file_name f) then
      let '(f, wanted) := download_file_exists w f in
      (w, f, false, wanted)
    else
      match Os.rename (fs w) (temp_full_file_name f) (download_full_file_name f) with
      | (fs', None) =>
          let f := if bool_decide (status f ≠ downloaded_with_warning)
                   then set_status downloaded f else f in
          (set_fs fs' w, f, true, false)
      | (fs', Some inst) =>
          if bool_decide (inst = EEXIST) then
            let '(f, wanted) := download_file_exists (set_fs fs' w) f in
            (set_fs fs' w, f, false, wanted)
          else
            (set_fs fs' w, notify_download_failure_file_error f inst, false, false)
      end in
  if add_identifier_wanted then
    let '(w, f, _) := add_unique_identifier w f in
    (w, f, move_succeeded)
  else (w, f, move_succeeded).

(** The three sidecar blocks that end [process_file]: the THM thumbnail, the
    audio file and the XMP sidecar. A failed rename is logged and nothing
    else. *)
Definition move_sidecars (w : Worker) (f : RPDFile) : Worker * RPDFile :=
  let '(w, f) :=
    if bool_decide (temp_thm_full_name f ≠ "") then move_thm_file w f else (w, f) in
  let '(w, f) :=
    if bool_decide (temp_audio_full_name f ≠ "") then move_audio_file w f else (w, f) in
  if bool_decide (temp_xmp_full_name f ≠ "") then
    let download_xmp_full_name := download_full_base_name f +:+ xmp_extension f in
    match Os.rename (fs w) (temp_xmp_full_name f) download_xmp_full_name with
    | (fs', None) => (set_fs fs' w, set_download_xmp_full_name download_xmp_full_name f)
    | (fs', Some _) => (set_fs fs' w, f)
    end
  else (w, f).

(** The updates of [process_file] that follow a successful move: the record
    in the RAW+JPEG tracker and the sequence values. *)
Definition record_and_increment (w : Worker) (f : RPDFile)
    (synchronize_raw_jpg : bool) (sync_result : SyncRawJpegResult) : Worker :=
  let w :=
    if synchronize_raw_jpg then
      let sequence :=
        match sequence_to_use sync_result with
        | None => Sequences.create_matched_sequences (sequences w)
        | Some s => s
        end in
      set_sync_raw_jpeg
        (SyncRawJpeg.add_download (sync_raw_jpeg w)
           (photo_name sync_result) (photo_ext sync_result)
           (date_time (the_metadata f)) (sub_seconds (the_metadata f)) sequence) w
    else w in
  if negb synchronize_raw_jpg
     || (synchronize_raw_jpg && bool_decide (sequence_to_use sync_result = None))
  then
    let uses_sequence_session_no :=
      Preferences.any_pref_uses_session_sequence_no (prefs w) in
    let uses_sequence_letter :=
      Preferences.any_pref_uses_sequence_letter_value (prefs w) in
    let w :=
      if uses_sequence_session_no || uses_sequence_letter
      then set_sequences
             (Sequences.increment uses_sequence_session_no uses_sequence_letter
                (sequences w)) w
      else w in
    let w :=
      if Preferences.any_pref_uses_stored_sequence_no (prefs w)
      then set_prefs
             (Preferences.set_stored_sequence_no
                (Preferences.stored_sequence_no (prefs w) + 1)%Z (prefs w)) w
      else w in
    set_downloads_today_tracker
      (DownloadsTodayTracker.increment_downloads_today (downloads_today_tracker w)) w
  else w.

(** The result of [sync_raw_jpg] when it is not called; it is not read then. *)
Definition no_sync_result : SyncRawJpegResult :=
  {| sequence_to_use := None; failed := false; photo_name := ""; photo_ext := "" |}.

(** [process_file] up to and including the sequence updates. *)
Definition place_file `{NameGenerators} (w : Worker) (f : RPDFile)
    : Worker * RPDFile * bool :=
  let f := prepare_rpd_file w f in
  let synchronize_raw_jpg :=
    Preferences.must_synchronize_raw_jpg (prefs w)
    && bool_decide (file_type f = photo) in
  let '(w, f, sync_result) :=
    if synchronize_raw_jpg then sync_raw_jpg w f else (w, f, no_sync_result) in
  if synchronize_raw_jpg && failed sync_result then (w, f, false)
  else
    let '(f, generation_succeeded) := generate_names w f in
    let '(w, f, move_succeeded) :=
      if generation_succeeded then move_file w f else (w, f, false) in
    if move_succeeded
    then (record_and_increment w f synchronize_raw_jpg sync_result, f, true)
    else (w, f, false).

Definition process_file `{NameGenerators} (w : Worker) (f : RPDFile)
    (download_count : Z) : Worker * RPDFile * bool :=
  let '(w, f, move_succeeded) := place_file w f in
  if move_succeeded then
    let '(w, f) := move_sidecars w f in (w, f, true)
  else (w, f, false).

(** ** The daemon loop, [run] *)

(** The messages the worker receives. The values [prefs.sync()] reads from
    the settings store, and the wall-clock date (relative to day-start) that
    the tracker sees, come with the message. *)
Inductive Message :=
| download_started (stored_prefs : Preferences.t) (today : Z)
| download_completed (today : Z)
| file_downloaded (rpd_file : RPDFile) (download_count : Z)
    (download_succeeded : bool).

(** [RenameAndMoveFileResults], as sent to the sink. *)
Inductive Results :=
| FileResults (move_succeeded : bool) (rpd_file : RPDFile) (download_count : Z)
| SessionResults (stored_sequence_no : Z) (downloads_today : Z * Z).

(** The worker between [__init__] and the first [download_started] message
    has no [sequences] and no [downloads_today_tracker] attribute yet. *)
Inductive Daemon :=
| Created (prefs : Preferences.t) (sync_raw_jpeg : gmap string PhotoRecord)
    (duplicate_files : gmap string Z) (fs : FileSystem)
| Started (w : Worker).

(** [__init__] followed by the statements of [run] that precede its loop. *)
Definition init (stored_prefs : Preferences.t) (fs : FileSystem) : Daemon :=
  Created stored_prefs SyncRawJpeg.init ∅ fs.

Definition daemon_sync_raw_jpeg (d : Daemon) : gmap string PhotoRecord :=
  match d with
  | Created _ s _ _ => s
  | Started w => sync_raw_jpeg w
  end.

Definition daemon_duplicate_files (d : Daemon) : gmap string Z :=
  match d with
  | Created _ _ dups _ => dups
  | Started w => duplicate_files w
  end.

Definition daemon_fs (d : Daemon) : FileSystem :=
  match d with
  | Created _ _ _ fs => fs
  | Started w => fs w
  end.

(** One iteration of the loop of [run]: the new state and the message sent to
    the sink, if any. [None] is the [AttributeError] of a worker that is asked
    for its sequences before any download started. The thumbnail and the
    database record made by [process_renamed_file] belong to other services
    and are left out. *)
Definition run_step `{NameGenerators} (d : Daemon) (data : Message)
    : option (Daemon * option Results) :=
  match data with
  | download_started stored_prefs today =>
      let tracker :=
        DownloadsTodayTracker.init (Preferences.day_start stored_prefs)
          (Preferences.downloads_today stored_prefs) in
      let sequences := Sequences.init (Preferences.stored_sequence_no stored_prefs) in
      let '(tracker, dl_today) :=
        DownloadsTodayTracker.get_or_reset_downloads_today today tracker in
      Some (Started {| prefs := stored_prefs;
                       sync_raw_jpeg := daemon_sync_raw_jpeg d;
                       duplicate_files := daemon_duplicate_files d;
                       downloads_today_tracker := tracker;
                       sequences := sequences;
                       fs := daemon_fs d |}, None)
  | download_completed today =>
      match d with
      | Created _ _ _ _ => None
      | Started w =>
          let content :=
            SessionResults (Sequences.stored_sequence_no (sequences w))
              (DownloadsTodayTracker.downloads_today (downloads_today_tracker w)) in
          let '(tracker, dl_today) :=
            DownloadsTodayTracker.get_or_reset_downloads_today today
              (downloads_today_tracker w) in
          Some (Started (set_downloads_today_tracker tracker w), Some content)
      end
  | file_downloaded rpd_file download_count download_succeeded =>
      match d with
      | Created _ _ _ _ => None
      | Started w =>
          let '(w, rpd_file, move_succeeded) :=
            if download_succeeded then
              let '(w, rpd_file, move_succeeded) :=
                process_file w rpd_file download_count in
              if negb move_succeeded
              then (process_rename_failure w rpd_file, rpd_file, false)
              else (w, rpd_file, true)
            else (w, rpd_file, false) in
          let rpd_file := set_metadata None rpd_file in
          Some (Started w, Some (FileResults move_succeeded rpd_file download_count))
      end
  end.

(** The loop of [run] over the messages received, with the messages sent. *)
Fixpoint run `{NameGenerators} (d : Daemon) (messages : list Message)
    : option (Daemon * list Results) :=
  match messages with
  | [] => Some (d, [])
  | data :: rest =>
      match run_step d data with
      | None => None
      | Some (d', sent) =>
          match run d' rest with
          | None => None
          | Some (d'', more) => Some (d'', option_list sent ++ more)
          end
      end
  end.

(** ** [nameeditor]: the preference editor's pref list *)

Module NameEditor.

(** [text[a:b]] for indices that are not negative. *)
Definition slice (text : string) (a b : nat) : string :=
  String.substring a (b - a) text.

(** [text[a:]]. *)
Definition slice_from (text : string) (a : nat) : string :=
  String.substring a (String.length text - a) text.

(** [str.split(sep)]: [current] is the fragment being read, reversed. *)
Fixpoint split_go (sep : ascii) (current : string) (s : string) : list string :=
  match s with
  | EmptyString => [String.rev current]
  | String c s' =>
      if bool_decide (c = sep)
      then String.rev current :: split_go sep EmptyString s'
      else split_go sep (String c current) s'
  end.
Definition split (sep : ascii) (s : string) : list string :=
  split_go sep EmptyString s.

(** [str.find(sub, start)]; [find_at] reads the text from index [i] on. *)
Fixpoint find_at (sub : string) (rest : string) (i : nat) : option nat :=
  if String.prefix sub rest then Some i
  else match rest with
       | EmptyString => None
       | String _ rest' => find_at sub rest' (S i)
       end.

Fixpoint skip (n : nat) (s : string) : option string :=
  match n, s with
  | O, _ => Some s
  | S _, EmptyString => None
  | S n', String _ s' => skip n' s'
  end.

Definition find (text sub : string) (start : nat) : option nat :=
  match skip start text with
  | Some rest => find_at sub rest start
  | None => None
  end.

(** [PrefHighlighter.find_all]: the positions yielded. Every iteration moves
    [start] forward, so one more iteration than the text has characters is
    enough. *)
Fixpoint find_all_loop (fuel : nat) (text pref_defn : string) (start : nat)
    : list nat :=
  match fuel with
  | O => []
  | S fuel' =>
      match find text pref_defn start with
      | None => []
      | Some found =>
          found :: find_all_loop fuel' text pref_defn
                     (found + String.length pref_defn)
      end
  end.

Definition find_all (text pref_defn : string) : list nat :=
  if bool_decide (String.length pref_defn = 0) then []
  else find_all_loop (S (String.length text)) text pref_defn 0.

(** Order of the tuples kept in the [SortedList]. *)
Definition tuple_le (x y : nat * nat) : bool :=
  (x.1 <? y.1) || ((x.1 =? y.1) && (x.2 <=? y.2)).

(** [SortedList.add]. *)
Fixpoint sorted_add (x : nat * nat) (l : list (nat * nat)) : list (nat * nat) :=
  match l with
  | [] => [x]
  | y :: l' => if tuple_le y x then y :: sorted_add x l' else x :: l
  end.

(** The definitions the highlighter looks for: [<pref>] for every key of
    [string_to_pref_mapper]. *)
Definition pref_defns (string_to_pref_mapper : gmap string (string * string * string))
    : list string :=
  (λ pref, "<" +:+ pref +:+ ">") <$> (map_to_list string_to_pref_mapper).*1.

(** [PrefHighlighter.highlightBlock]: the boundaries found in [text]. *)
Definition highlightBlock (highlightingRules : list string) (text : string)
    : list (nat * nat) :=
  foldl (λ boundaries expression,
           foldl (λ boundaries index,
                    sorted_add (index, index + String.length expression - 1)
                      boundaries)
                 boundaries (find_all text expression))
        [] highlightingRules.

Section PrefEditor.

(** [TEXT] and [SEPARATOR] of [generatenameconfig], and the attributes of
    the editor that [generatePrefList] reads. *)
Variables (TEXT SEPARATOR : string).
Variable subfolder : bool.
Variable string_to_pref_mapper : gmap string (string * string * string).
Variable pref_color : gmap string string.

(** [user_pref_list] and [user_pref_colors]. *)
Definition PrefLists : Type := list string * list string.

(** The body of the [for] loop of [_parseTextFragment]. *)
Definition parse_fragment_at (count : nat) (st : PrefLists)
    (index : nat) (text_fragment : string) : PrefLists :=
  let st :=
    if bool_decide (text_fragment ≠ "")
    then (st.1 ++ [TEXT; text_fragment; ""], st.2 ++ [""])
    else st in
  if bool_decide (index < count - 1)
  then (st.1 ++ [SEPARATOR; ""; ""], st.2 ++ [""])
  else st.

Fixpoint parse_fragments (count : nat) (index : nat)
    (text_fragments : list string) (st : PrefLists) : PrefLists :=
  match text_fragments with
  | [] => st
  | text_fragment :: rest =>
      parse_fragments count (S index) rest
        (parse_fragment_at count st index text_fragment)
  end.

Definition _parseTextFragment (text_fragment : string) (st : PrefLists)
    : PrefLists :=
  if subfolder then
    let text_fragments := split PosixPath.sep text_fragment in
    parse_fragments (length text_fragments) 0 text_fragments st
  else (st.1 ++ [TEXT; text_fragment; ""], st.2 ++ [""]).

(** [_addColor]; [None] is the [KeyError]. *)
Definition _addColor (pref_defn : string) (st : PrefLists) : option PrefLists :=
  match pref_color !! pref_defn with
  | Some color => Some (st.1, st.2 ++ [color])
  | None => None
  end.

(** [pl.extend(self.string_to_pref_mapper[text[start + 1: end]])] followed
    by [self._addColor(text[start: end + 1])]. *)
Definition add_pref_value (text : string) (boundary : nat * nat)
    (st : PrefLists) : option PrefLists :=
  let '(start, end_) := boundary in
  match string_to_pref_mapper !! slice text (start + 1) end_ with
  | Some (p0, p1, p2) =>
      _addColor (slice text start (end_ + 1)) (st.1 ++ [p0; p1; p2], st.2)
  | None => None
  end.

(** The loop [for index, item in enumerate(b[1:])], which reads [b[index]]
    and the [item] that follows it. *)
Fixpoint middle_pref_values (text : string) (b : list (nat * nat))
    (st : PrefLists) : option PrefLists :=
  match b with
  | boundary :: ((item :: _) as rest) =>
      match add_pref_value text boundary st with
      | Some st =>
          let text_fragment := slice text (boundary.2 + 1) item.1 in
          middle_pref_values text rest (_parseTextFragment text_fragment st)
      | None => None
      end
  | _ => Some st
  end.

(** [generatePrefList]: the lists it leaves in [user_pref_list] and
    [user_pref_colors] when it reaches its last line, [None] when a
    lookup raises [KeyError] before. *)
Definition generatePrefList (text : string) (b : list (nat * nat))
    : option PrefLists :=
  let st : PrefLists := (@nil string, @nil string) in
  let st :=
    match b with
    | (start, _) :: _ =>
        if bool_decide (0 < start)
        then _parseTextFragment (slice text 0 start) st
        else st
    | [] => st
    end in
  match middle_pref_values text b st with
  | None => None
  | Some st =>
      let last_pref :=
        match last b with
        | Some (start, end_) =>
            match add_pref_value text (start, end_) st with
            | Some st => Some (st, end_ + 1)
            | None => None
            end
        | None => Some (st, 0)
        end in
      match last_pref with
      | None => None
      | Some (st, final) =>
          if bool_decide (final < String.length text)
          then Some (_parseTextFragment (slice_from text final) st)
          else Some st
      end
  end.

End PrefEditor.

End NameEditor.

(** ** Sample values *)

(** Generators for preference lists made of [Text] entries only: the
    generated string is the concatenation of the literals, kept in the second
    place of each triple. *)
Fixpoint text_of_prefs (pref_list : list string) : string :=
  match pref_list with
  | _ :: value :: _ :: rest => value +:+ text_of_prefs rest
  | _ => ""
  end.

Definition text_generators : NameGenerators :=
  {| PhotoSubfolder := λ pref_list _, (Some (text_of_prefs pref_list), []);
     VideoSubfolder := λ pref_list _, (Some (text_of_prefs pref_list), []);
     PhotoName := λ pref_list _ _, (Some (text_of_prefs pref_list), []);
     VideoName := λ pref_list _ _, (Some (text_of_prefs pref_list), []) |}.

Definition sample_prefs : Preferences.t :=
  {| Preferences.conflict_resolution := add_identifier;
     Preferences.must_synchronize_raw_jpg := false;
     Preferences.any_pref_uses_session_sequence_no := false;
     Preferences.any_pref_uses_sequence_letter_value := false;
     Preferences.any_pref_uses_stored_sequence_no := true;
     Preferences.stored_sequence_no := 5;
     Preferences.downloads_today := (100, 7)%Z;
     Preferences.day_start := "03:00";
     Preferences.photo_download_folder := "/photos";
     Preferences.video_download_folder := "/videos";
     Preferences.photo_subfolder := ["Text"; "2024"; ""];
     Preferences.video_subfolder := ["Text"; "2024"; ""];
     Preferences.photo_rename := ["Text"; "IMG.JPG"; ""];
     Preferences.video_rename := ["Text"; "MOV.MP4"; ""] |}.

Definition sample_fs : FileSystem :=
  {| fs_files := {["/tmp/a"; "/tmp/b"; "/tmp/c"]};
     fs_dirs := {["/photos"]};
     fs_denied := ∅;
     fs_log := [] |}.

(** A downloaded photo waiting in the temporary directory. *)
Definition sample_file (source_name temp : string) (exif : option Metadata)
    : RPDFile :=
  {| name := source_name; full_file_name := "/camera/" +:+ source_name;
     file_type := photo; file_metadata := exif;
     temp_full_file_name := temp; temp_thm_full_name := "";
     temp_audio_full_name := ""; temp_xmp_full_name := "";
     thm_extension := None; audio_extension := None; xmp_extension := ".xmp";
     metadata := None; status := download_pending; problem := [];
     download_folder := ""; subfolder_pref_list := []; name_pref_list := [];
     download_subfolder := ""; download_name := ""; download_path := "";
     download_full_file_name := ""; download_full_base_name := "";
     download_thm_full_name := ""; download_audio_full_name := "";
     download_xmp_full_name := "" |}.

Definition sample_exif : Metadata := {| date_time := 1700000000; sub_seconds := "42" |}.

(** ** Notions used to state the properties *)

(** The four sequence counters: session sequence number, sequence letter
    index, stored sequence number (the preference the worker bumps) and
    downloads-today count. *)
Definition sequence_values (w : Worker) : Z * Z * Z * Z :=
  (Sequences.session_sequence_no (sequences w),
   Sequences.sequence_letter (sequences w),
   Preferences.stored_sequence_no (prefs w),
   (DownloadsTodayTracker.downloads_today (downloads_today_tracker w)).2).

Definition advanced_at_most_once (before after : Z) : Prop :=
  after = before ∨ after = (before + 1)%Z.

(** Everything of the worker but its file system and its table of duplicate
    identifiers is the same. *)
Definition keeps_session_state (w w' : Worker) : Prop :=
  prefs w' = prefs w ∧ sequences w' = sequences w
  ∧ downloads_today_tracker w' = downloads_today_tracker w
  ∧ sync_raw_jpeg w' = sync_raw_jpeg w.


(** The name tried by [add_unique_identifier] for the counter value [n], and
    its full path in the folder [path]. *)
Definition candidate_name (name : string * string) (n : Z) : string :=
  name.1 +:+ ("_" +:+ pretty n) +:+ name.2.

Definition candidate_path (path : string) (name : string * string) (n : Z) : string :=
  PosixPath.join path (candidate_name name n).

(** The number of identifiers [add_unique_identifier] goes through: by how
    much it advances the counter kept for the destination. *)
Definition identifier_attempts (w : Worker) (f : RPDFile) : Z :=
  (default 0 ((duplicate_files (add_unique_identifier w f).1.1)
                !! download_full_file_name f)
   - default 0 (duplicate_files w !! download_full_file_name f))%Z.

(** A destination folder in which the names [IMG_1.JPG] to [IMG_m.JPG] are
    all taken, and a file about to be given the name [IMG.JPG] there. *)
Definition crowded_fs (m : nat) : FileSystem :=
  {| fs_files :=
       list_to_set
         ((λ k, candidate_path "/photos/2024" ("IMG", ".JPG") (Z.of_nat k))
            <$> seq 1 m);
     fs_dirs := {["/photos"; "/photos/2024"]};
     fs_denied := ∅;
     fs_log := [] |}.

Definition crowded_worker (m : nat) : Worker :=
  {| prefs := sample_prefs; sync_raw_jpeg := ∅; duplicate_files := ∅;
     downloads_today_tracker := DownloadsTodayTracker.init "03:00" (100, 7)%Z;
     sequences := Sequences.init 5; fs := crowded_fs m |}.

Definition clash_file : RPDFile :=
  set_download_full_file_name "/photos/2024/IMG.JPG"
    (set_download_path "/photos/2024"
       (set_download_name "IMG.JPG"
          (sample_file "DSC1.JPG" "/tmp/a" (Some sample_exif)))).

(** The file as name generation leaves it, when [process_file] gets as far as
    generating names ([None]: the RAW+JPEG synchronisation failed before). *)
Definition generated_names `{NameGenerators} (w : Worker) (f : RPDFile)
    : option RPDFile :=
  let f := prepare_rpd_file w f in
  let synchronize_raw_jpg :=
    Preferences.must_synchronize_raw_jpg (prefs w)
    && bool_decide (file_type f = photo) in
  let '(w, f, sync_result) :=
    if synchronize_raw_jpg then sync_raw_jpg w f else (w, f, no_sync_result) in
  if synchronize_raw_jpg && failed sync_result then None
  else Some (generate_names w f).1.

(** Preferences whose file name list is empty: the generated file name is
    blank. *)
Definition blank_name_prefs : Preferences.t :=
  {| Preferences.conflict_resolution := add_identifier;
     Preferences.must_synchronize_raw_jpg := false;
     Preferences.any_pref_uses_session_sequence_no := true;
     Preferences.any_pref_uses_sequence_letter_value := false;
     Preferences.any_pref_uses_stored_sequence_no := true;
     Preferences.stored_sequence_no := 5;
     Preferences.downloads_today := (100, 7)%Z;
     Preferences.day_start := "03:00";
     Preferences.photo_download_folder := "/photos";
     Preferences.video_download_folder := "/videos";
     Preferences.photo_subfolder := ["Text"; "2024"; ""];
     Preferences.video_subfolder := ["Text"; "2024"; ""];
     Preferences.photo_rename := [];
     Preferences.video_rename := [] |}.

Definition sample_worker (p : Preferences.t) (files : FileSystem) : Worker :=
  {| prefs := p; sync_raw_jpeg := ∅; duplicate_files := ∅;
     downloads_today_tracker :=
       DownloadsTodayTracker.init (Preferences.day_start p)
         (Preferences.downloads_today p);
     sequences := Sequences.init (Preferences.stored_sequence_no p);
     fs := files |}.

(** A session in which three downloaded photos are given the same name. *)
Definition same_name_session : list Message :=
  [download_started sample_prefs 100;
   file_downloaded (sample_file "DSC1.JPG" "/tmp/a" (Some sample_exif)) 1 true;
   file_downloaded (sample_file "DSC2.JPG" "/tmp/b" (Some sample_exif)) 2 true;
   file_downloaded (sample_file "DSC3.JPG" "/tmp/c" (Some sample_exif)) 3 true].

(** A session that places one photo, with preferences that use the stored
    sequence number, and is then finished. *)
Definition one_photo_session : list Message :=
  [download_started sample_prefs 100;
   file_downloaded (sample_file "DSC1.JPG" "/tmp/a" (Some sample_exif)) 1 true;
   download_completed 100].



(** A downloaded photo whose THM file is not where it is expected. *)
Definition photo_with_lost_thm : RPDFile :=
  {| name := "DSC1.JPG"; full_file_name := "/camera/DSC1.JPG";
     file_type := photo; file_metadata := Some sample_exif;
     temp_full_file_name := "/tmp/a"; temp_thm_full_name := "/tmp/a.THM";
     temp_audio_full_name := ""; temp_xmp_full_name := "";
     thm_extension := None; audio_extension := None; xmp_extension := ".xmp";
     metadata := None; status := download_pending; problem := [];
     download_folder := ""; subfolder_pref_list := []; name_pref_list := [];
     download_subfolder := ""; download_name := ""; download_path := "";
     download_full_file_name := ""; download_full_base_name := "";
     download_thm_full_name := ""; download_audio_full_name := "";
     download_xmp_full_name := "" |}.




(** Three strings in [user_pref_list] for every entry of [user_pref_colors]. *)
Definition triples (st : NameEditor.PrefLists) : Prop :=
  length st.1 = 3 * length st.2.

(** The text of a boundary is a pref value the editor knows, with its
    colour. *)
Definition known_boundary
    (string_to_pref_mapper : gmap string (string * string * string))
    (pref_color : gmap string string) (text : string) (boundary : nat * nat)
    : Prop :=
  is_Some (string_to_pref_mapper
             !! NameEditor.slice text (boundary.1 + 1) boundary.2)
  ∧ is_Some (pref_color !! NameEditor.slice text boundary.1 (boundary.2 + 1)).

(** ** More notions: sequences of calls *)

(** The tracker after the downloads of a list have been recorded one after
    the other; a download is the tuple of the arguments of [add_download]. *)
Definition record_downloads (photos : gmap string PhotoRecord)
    (downloads : list (string * string * Z * string * Z))
    : gmap string PhotoRecord :=
  foldl (λ p d, SyncRawJpeg.add_download p d.1.1.1.1 d.1.1.1.2 d.1.1.2 d.1.2 d.2)
        photos downloads.

(** Every entry of the tracker has an extension list that is not empty and
    has no duplicates. *)
Definition well_formed_tracker (photos : gmap string PhotoRecord) : Prop :=
  ∀ name exts dt ss sq,
    photos !! name = Some (exts, dt, ss, sq) → exts ≠ [] ∧ NoDup exts.

(** The destination [move_file] computes for a file: the download folder
    joined with the generated subfolder and the generated name. *)
Definition destination (f : RPDFile) : string :=
  PosixPath.join (PosixPath.join (download_folder f) (download_subfolder f))
    (download_name f).

(** [sample_prefs] with the policy of skipping files that exist already. *)
Definition skip_prefs : Preferences.t :=
  {| Preferences.conflict_resolution := skip;
     Preferences.must_synchronize_raw_jpg := false;
     Preferences.any_pref_uses_session_sequence_no := false;
     Preferences.any_pref_uses_sequence_letter_value := false;
     Preferences.any_pref_uses_stored_sequence_no := true;
     Preferences.stored_sequence_no := 5;
     Preferences.downloads_today := (100, 7)%Z;
     Preferences.day_start := "03:00";
     Preferences.photo_download_folder := "/photos";
     Preferences.video_download_folder := "/videos";
     Preferences.photo_subfolder := ["Text"; "2024"; ""];
     Preferences.video_subfolder := ["Text"; "2024"; ""];
     Preferences.photo_rename := ["Text"; "IMG.JPG"; ""];
     Preferences.video_rename := ["Text"; "MOV.MP4"; ""] |}.

(** A file with its names generated, about to be moved to
    [/photos/2024/IMG.JPG]. *)
Definition named_file : RPDFile :=
  set_download_name "IMG.JPG"
    (set_download_subfolder "2024"
       (set_download_folder "/photos"
          (sample_file "DSC1.JPG" "/tmp/a" (Some sample_exif)))).

(** A file system in which [/photos/2024/IMG.JPG] exists already. *)
Definition taken_fs : FileSystem :=
  {| fs_files := {["/tmp/a"; "/photos/2024/IMG.JPG"]};
     fs_dirs := {["/photos"; "/photos/2024"]};
     fs_denied := ∅;
     fs_log := [] |}.


(** The temporary files of a download: the file itself and its sidecars. *)
Definition temporary_files (f : RPDFile) : list string :=
  [temp_full_file_name f; temp_thm_full_name f; temp_audio_full_name f;
   temp_xmp_full_name f].

(** The [file_downloaded] messages of a list of requests: the file, its
    download count and whether it was downloaded. *)
Definition file_requests (requests : list (RPDFile * Z * bool)) : list Message :=
  (λ r, file_downloaded r.1.1 r.1.2 r.2) <$> requests.

Definition reports_placed (r : Results) : bool :=
  match r with
  | FileResults move_succeeded _ _ => move_succeeded
  | SessionResults _ _ => false
  end.

(** The number of messages sent that report a file as placed. *)
Fixpoint placed (sent : list Results) : Z :=
  match sent with
  | [] => 0
  | r :: rest => ((if reports_placed r then 1 else 0) + placed rest)%Z
  end.

(** A counter that advances by [k] when the preferences use it. *)
Definition advanced_when (used : bool) (k before after : Z) : Prop :=
  after = (before + (if used then k else 0))%Z.




(** Three requests: two photos that were downloaded and one that was not. *)
Definition sample_requests : list (RPDFile * Z * bool) :=
  [(sample_file "DSC1.JPG" "/tmp/a" (Some sample_exif), 1%Z, true);
   (sample_file "DSC2.JPG" "/tmp/b" (Some sample_exif), 2%Z, true);
   (sample_file "DSC3.JPG" "/tmp/c" (Some sample_exif), 3%Z, false)].

(** ** [nameeditor]: the boundaries and the cursor *)


(** The members of [PrefPosition] (of [constants]); [at_] is the member
    [at]. *)
Inductive PrefPosition :=
| on_left
| at_
| on_left_and_at
| positioned_in
| not_here.

Global Instance PrefPosition_eq_dec : EqDecision PrefPosition.
Proof. solve_decision. Defined.

Definition tuple_lt (x y : nat * nat) : bool :=
  (x.1 <? y.1) || ((x.1 =? y.1) && (x.2 <? y.2)).

(** [SortedList.bisect_left]: on a list kept in order, the index of the
    first element that is not less than [x], or the length of the list. *)
Fixpoint bisect_left (b : list (nat * nat)) (x : nat * nat) : nat :=
  match b with
  | [] => 0
  | y :: rest => if tuple_lt y x then S (bisect_left rest x) else 0
  end.

(** A boundary as the pair of integers [locatePrefValue] returns. *)
Definition positions (boundary : nat * nat) : Z * Z :=
  (Z.of_nat boundary.1, Z.of_nat boundary.2).

(** [PrefEditor.locatePrefValue], on the boundaries of the highlighter:
    the position found, then [(start, end)] and [(left_start, left_end)].
    [None] is the [IndexError] of a subscript out of range. *)
Definition locatePrefValue (b : list (nat * nat)) (position : nat)
    : option (PrefPosition * (Z * Z) * (Z * Z)) :=
  let nowhere := ((-1)%Z, (-1)%Z) in
  if bool_decide (length b = 0) then Some (not_here, nowhere, nowhere)
  else
    let index := bisect_left b (position, 0) in
    if bool_decide (index = 0) then
      match b !! 0 with
      | Some first =>
          if bool_decide (first.1 = position)
          then Some (at_, positions first, nowhere)
          else Some (not_here, nowhere, nowhere)
      | None => None
      end
    else if bool_decide (index = length b) then
      match last b with
      | Some final =>
          if bool_decide (position ≤ final.2)
          then Some (positioned_in, positions final, nowhere)
          else if bool_decide (Z.of_nat final.2 = (Z.of_nat position - 1)%Z)
          then Some (on_left, nowhere, positions final)
          else Some (not_here, nowhere, nowhere)
      | None => None
      end
    else
      match b !! (index - 1), b !! index with
      | Some left_, Some right_ =>
          let at_right := bool_decide (right_.1 = position) in
          let to_left :=
            bool_decide (Z.of_nat left_.2 = (Z.of_nat position - 1)%Z) in
          if at_right && to_left
          then Some (on_left_and_at, positions right_, positions left_)
          else if at_right then Some (at_, positions right_, nowhere)
          else if to_left then Some (on_left, nowhere, positions left_)
          else if bool_decide (position ≤ left_.2)
          then Some (positioned_in, positions left_, nowhere)
          else Some (not_here, nowhere, nowhere)
      | _, _ => None
      end.

(** [PrefEditor.mousePressEvent] for the left button: the two positions
    given to [cursor.setPosition], the second one with [KeepAnchor]; [None]
    when the cursor is left where the click put it. *)
Definition mousePressEvent (b : list (nat * nat)) (position : nat)
    : option (option (Z * Z)) :=
  match locatePrefValue b position with
  | Some (pref_pos, (start, end_), (left_start, left_end)) =>
      let '(start, end_) :=
        if bool_decide (pref_pos = on_left) then (left_start, left_end)
        else (start, end_) in
      if bool_decide (pref_pos ≠ not_here)
      then Some (Some (start, (end_ + 1)%Z))
      else Some None
  | None => None
  end.

(** Boundaries as the highlighter leaves them when no two pref values
    overlap: each one ends where it starts or later, and the next one starts
    after the end of the one before. *)
Fixpoint separate_boundaries (b : list (nat * nat)) : Prop :=
  match b with
  | [] => True
  | x :: rest =>
      x.1 ≤ x.2 ∧ Forall (λ y, x.2 < y.1) rest ∧ separate_boundaries rest
  end.

(** What [locatePrefValue] says about a position, by the [PrefPosition] it
    returns: which boundaries [found] and [found_left] are, and where the
    position is relative to them. *)
Definition located (b : list (nat * nat)) (position : nat)
    (pref_pos : PrefPosition) (found found_left : Z * Z) : Prop :=
  let nowhere := ((-1)%Z, (-1)%Z) in
  let at_start := ∃ x, x ∈ b ∧ found = positions x ∧ x.1 = position in
  let after_end := ∃ x, x ∈ b ∧ found_left = positions x ∧ x.2 + 1 = position in
  match pref_pos with
  | not_here => found = nowhere ∧ found_left = nowhere
  | at_ => at_start ∧ found_left = nowhere
  | on_left => found = nowhere ∧ after_end
  | on_left_and_at => at_start ∧ after_end
  | positioned_in =>
      (∃ x, x ∈ b ∧ found = positions x ∧ x.1 < position ≤ x.2)
      ∧ found_left = nowhere
  end.

(** ** [nameeditor]: showing a pref list in the editor *)

(** A key of [pref_mapper]: a pref value as its three strings in a pref
    list. *)
Abbreviation PrefKey := (string * string * string)%type.

(** [setPrefMapper]: [string_to_pref_mapper] is [{value: key for key, value
    in pref_mapper.items()}]. The dictionary [pref_mapper] is given by its
    items, in their order; a later item replaces an earlier one with the same
    value. *)
Definition setPrefMapper (pref_mapper : list (PrefKey * string))
    : gmap string PrefKey :=
  foldl (λ m item, <[item.2 := item.1]> m) ∅ pref_mapper.







(** A [pref_mapper] with two pref values, their colours, and a subfolder
    text that uses both. *)
Definition sample_pref_mapper : list (PrefKey * string) :=
  [(("Date time", "Image date", "YYYYMMDD"), "Image date YYYYMMDD");
   (("Filename", "Name", ""), "Name")].


Definition sample_text : string := "<Image date YYYYMMDD>/img-<Name>".

(** The boundaries of [sample_text]. *)
Definition sample_boundaries : list (nat * nat) := [(0, 20); (26, 31)].

(** ** [nameeditor]: the custom presets of [PrefDialog] *)

(** The place in a list of length [n] that the subscript [i] names: a
    negative subscript counts from the end. [None] is the [IndexError]. *)
Definition list_index (n : nat) (i : Z) : option nat :=
  if bool_decide (0 ≤ i < Z.of_nat n)%Z then Some (Z.to_nat i)
  else if bool_decide (- Z.of_nat n ≤ i < 0)%Z
  then Some (Z.to_nat (Z.of_nat n + i))
  else None.

(** [list.pop(i)]: the element removed and the list left. *)
Definition pop {A : Type} (l : list A) (i : Z) : option (A * list A) :=
  match list_index (length l) i with
  | Some k =>
      match l !! k with
      | Some x => Some (x, delete k l)
      | None => None
      end
  | None => None
  end.

(** [list.index(x)]: the first place of [x]; [None] is the [ValueError]. *)
Fixpoint index_of (x : string) (l : list string) : option nat :=
  match l with
  | [] => None
  | y :: rest =>
      if bool_decide (y = x) then Some 0
      else match index_of x rest with
           | Some i => Some (S i)
           | None => None
           end
  end.

(** The attributes of [PrefDialog] that hold the presets, in a subfolder
    editor: there [builtin_pref_lists] is a tuple, which
    [_updateCombinedPrefs] can concatenate with [tuple(preset_pref_lists)]
    (the list [[]] of the renaming editors cannot be). The calls of
    [prefs.set_preset] are kept with the names and the pref lists they were
    given, the oldest first. *)
Record PrefDialog := {
  builtin_pref_names : list string;
  builtin_pref_lists : list (list string);
  preset_names : list string;
  preset_pref_lists : list (list string);
  combined_pref_names : list string;
  combined_pref_lists : list (list string);
  current_custom_name : option string;
  set_preset_calls : list (list string * list (list string))
}.

Definition set_presets (names : list string) (pref_lists : list (list string))
    (d : PrefDialog) : PrefDialog :=
  {| builtin_pref_names := builtin_pref_names d;
     builtin_pref_lists := builtin_pref_lists d;
     preset_names := names;
     preset_pref_lists := pref_lists;
     combined_pref_names := combined_pref_names d;
     combined_pref_lists := combined_pref_lists d;
     current_custom_name := current_custom_name d;
     set_preset_calls := set_preset_calls d |}.

Definition _updateCombinedPrefs (d : PrefDialog) : PrefDialog :=
  {| builtin_pref_names := builtin_pref_names d;
     builtin_pref_lists := builtin_pref_lists d;
     preset_names := preset_names d;
     preset_pref_lists := preset_pref_lists d;
     combined_pref_names := builtin_pref_names d ++ preset_names d;
     combined_pref_lists := builtin_pref_lists d ++ preset_pref_lists d;
     current_custom_name := current_custom_name d;
     set_preset_calls := set_preset_calls d |}.

(** [self.prefs.set_preset(preset_type=self.preset_type,
    preset_names=self.preset_names,
    preset_pref_lists=self.preset_pref_lists)]. *)
Definition set_preset (d : PrefDialog) : PrefDialog :=
  {| builtin_pref_names := builtin_pref_names d;
     builtin_pref_lists := builtin_pref_lists d;
     preset_names := preset_names d;
     preset_pref_lists := preset_pref_lists d;
     combined_pref_names := combined_pref_names d;
     combined_pref_lists := combined_pref_lists d;
     current_custom_name := current_custom_name d;
     set_preset_calls :=
       set_preset_calls d ++ [(preset_names d, preset_pref_lists d)] |}.

(** [movePresetToFront]; [None] is the [IndexError] of a [pop]. *)
Definition movePresetToFront (index : Z) (d : PrefDialog) : option PrefDialog :=
  if bool_decide (index = 0%Z) then Some d
  else
    match pop (preset_names d) index with
    | Some (preset_name, names) =>
        match pop (preset_pref_lists d) index with
        | Some (pref_list, pref_lists) =>
            Some (set_preset
                    (_updateCombinedPrefs
                       (set_presets (preset_name :: names)
                          (pref_list :: pref_lists) d)))
        | None => None
        end
    | None => None
    end.

(** [updateExistingPreset]; [user_pref_list] is [self.editor.user_pref_list].
    [None] is the [ValueError] of [index], or the [IndexError] of the
    assignment. *)
Definition updateExistingPreset (user_pref_list : list string) (d : PrefDialog)
    : option PrefDialog :=
  match current_custom_name d with
  | Some preset_name =>
      match index_of preset_name (preset_names d) with
      | Some index =>
          if bool_decide (index < length (preset_pref_lists d)) then
            let d :=
              set_presets (preset_names d)
                (<[index := user_pref_list]> (preset_pref_lists d)) d in
            if bool_decide (0 < index)
            then movePresetToFront (Z.of_nat index) d
            else Some (set_preset (_updateCombinedPrefs d))
          else None
      | None => None
      end
  | None => None
  end.

(** [saveNewPreset]. *)
Definition saveNewPreset (user_pref_list : list string) (preset_name : string)
    (d : PrefDialog) : PrefDialog :=
  set_preset
    (_updateCombinedPrefs
       (set_presets (preset_name :: preset_names d)
          (user_pref_list :: preset_pref_lists d) d)).

(** [clearCustomPresets]. *)
Definition clearCustomPresets (d : PrefDialog) : PrefDialog :=
  set_preset
    (_updateCombinedPrefs
       {| builtin_pref_names := builtin_pref_names d;
          builtin_pref_lists := builtin_pref_lists d;
          preset_names := [];
          preset_pref_lists := [];
          combined_pref_names := combined_pref_names d;
          combined_pref_lists := combined_pref_lists d;
          current_custom_name := None;
          set_preset_calls := set_preset_calls d |}).

(** [presetComboItemActivated] when the item activated is a built-in or a
    custom preset; [current_text] is [self.preset.currentText()]. The result
    is the pref list given to [displayPrefList] and the presets of the
    dialog; what the editor's signals do after [displayPrefList] (they do
    not touch the lists of presets) is left out. [None] is the [ValueError]
    of [index] or an [IndexError]. *)
Definition presetComboItemActivated (current_text : string) (d : PrefDialog)
    : option (list string * PrefDialog) :=
  match index_of current_text (combined_pref_names d) with
  | Some index =>
      match combined_pref_lists d !! index with
      | Some pref_list =>
          if bool_decide (length (builtin_pref_names d) ≤ index) then
            match movePresetToFront
                    (Z.of_nat (length (builtin_pref_names d)) - Z.of_nat index)
                    d with
            | Some d => Some (pref_list, d)
            | None => None
            end
          else Some (pref_list, d)
      | None => None
      end
  | None => None
  end.

(** The cached presets are consistent: a pref list for every name, and the
    combined lists are the built-in ones followed by the custom ones. *)
Definition presets_consistent (d : PrefDialog) : Prop :=
  length (preset_names d) = length (preset_pref_lists d)
  ∧ combined_pref_names d = builtin_pref_names d ++ preset_names d
  ∧ combined_pref_lists d = builtin_pref_lists d ++ preset_pref_lists d.

(** The last call of [prefs.set_preset] was given the cached presets. *)
Definition presets_saved (d : PrefDialog) : Prop :=
  last (set_preset_calls d) = Some (preset_names d, preset_pref_lists d).

(** A dialog with one built-in preset and the custom presets [A], [B] and
    [C], of which [B] is the current one. *)
Definition sample_dialog : PrefDialog :=
  {| builtin_pref_names := ["By date"];
     builtin_pref_lists := [["Date time"; "Image date"; "YYYYMMDD"]];
     preset_names := ["A"; "B"; "C"];
     preset_pref_lists :=
       [["Text"; "a"; ""]; ["Text"; "b"; ""]; ["Text"; "c"; ""]];
     combined_pref_names := ["By date"; "A"; "B"; "C"];
     combined_pref_lists :=
       [["Date time"; "Image date"; "YYYYMMDD"];
        ["Text"; "a"; ""]; ["Text"; "b"; ""]; ["Text"; "c"; ""]];
     current_custom_name := Some "B";
     set_preset_calls := [] |}.

(** * Properties *)

(** ** Strings and paths *)

Lemma string_app_cons (a : ascii) (s t : string) :
  String a s +:+ t = String a (s +:+ t).
Proof. reflexivity. Qed.

Lemma string_length_app (s t : string) :
  String.length (s +:+ t) = String.length s + String.length t.
Proof.
  induction s as [|a s IH]; [reflexivity|].
  rewrite string_app_cons. simpl. by rewrite IH.
Qed.

Lemma string_app_inv_tail (s1 s2 t : string) : s1 +:+ t = s2 +:+ t → s1 = s2.
Proof.
  revert s2. induction s1 as [|a s1 IH]; intros [|b s2] H.
  - reflexivity.
  - apply (f_equal String.length) in H.
    rewrite !string_length_app in H. simpl in H. lia.
  - apply (f_equal String.length) in H.
    rewrite !string_length_app in H. simpl in H. lia.
  - rewrite !string_app_cons in H. injection H as -> H. f_equal. by apply IH.
Qed.

(** ** The RAW+JPEG tracker *)

(** Splits the case analysis of a tracker answer into its implications and
    closes each from the lookup at hand. *)
Ltac tracker_cases :=
  repeat match goal with
         | |- _ ∧ _ => split
         | |- _ ↔ _ => split
         | |- ∀ _, _ => intro
         | |- _ → _ => intro
         | H : ∃ _, _ |- _ => destruct H
         | H : _ ∧ _ |- _ => destruct H
         | H : _ ∨ _ |- _ => destruct H
         | H : is_Some None |- _ => destruct H
         end;
  simplify_eq; try done; eauto 10.

(** C3. A query of the tracker answers [error_already_downloaded] with the
    recorded sequence number exactly when the name is recorded with the same
    date time and sub-seconds and the extension is among those recorded;
    [matching_pair] with the recorded sequence number exactly when the name is
    recorded with the same date time and sub-seconds and the extension is not
    among those recorded; [error_datetime_mismatch] without a sequence number
    exactly when the name is recorded with another date time or other
    sub-seconds; [no_match] without a sequence number exactly when the name is
    not recorded. *)
Theorem matching_pair_cases (photos : gmap string PhotoRecord)
    (name extension : string) (date_time : Z) (sub_seconds : string) :
  let answer := SyncRawJpeg.matching_pair photos name extension date_time sub_seconds in
  (∀ sq, answer = {| match_status := error_already_downloaded;
                     match_sequence_number := Some sq |}
         ↔ ∃ exts, photos !! name = Some (exts, date_time, sub_seconds, sq)
                   ∧ extension ∈ exts)
  ∧ (∀ sq, answer = {| match_status := matching_pair_status;
                       match_sequence_number := Some sq |}
           ↔ ∃ exts, photos !! name = Some (exts, date_time, sub_seconds, sq)
                     ∧ extension ∉ exts)
  ∧ (answer = {| match_status := error_datetime_mismatch;
                 match_sequence_number := None |}
     ↔ ∃ exts dt ss sq, photos !! name = Some (exts, dt, ss, sq)
                        ∧ (dt ≠ date_time ∨ ss ≠ sub_seconds))
  ∧ (answer = {| match_status := no_match; match_sequence_number := None |}
     ↔ photos !! name = None)
  ∧ (match_status answer = error_already_downloaded
     ∨ match_status answer = matching_pair_status
     ↔ is_Some (match_sequence_number answer)).
Proof.
  unfold SyncRawJpeg.matching_pair.
  destruct (photos !! name) as [[[[exts dt] ss] sq]|] eqn:Hlook; simpl.
  - destruct (decide (dt = date_time)) as [->|Hdt];
      destruct (decide (ss = sub_seconds)) as [->|Hss];
      repeat (rewrite ?bool_decide_eq_true_2, ?bool_decide_eq_false_2 by done; simpl);
      [destruct (decide (extension ∈ exts)) as [Hin|Hin];
       rewrite ?(bool_decide_eq_true_2 _ Hin), ?(bool_decide_eq_false_2 _ Hin);
       simpl|..];
      tracker_cases.
  - tracker_cases.
Qed.

(** ** What each method leaves alone *)

Lemma keeps_session_state_refl (w : Worker) : keeps_session_state w w.
Proof. by repeat split. Qed.

Lemma keeps_session_state_trans (w1 w2 w3 : Worker) :
  keeps_session_state w1 w2 → keeps_session_state w2 w3 →
  keeps_session_state w1 w3.
Proof.
  intros (?&?&?&?) (?&?&?&?). repeat split; congruence.
Qed.

Lemma keeps_session_state_set_fs (w : Worker) (fs' : FileSystem) :
  keeps_session_state w (set_fs fs' w).
Proof. by repeat split. Qed.

Lemma keeps_session_state_set_duplicate_files (w : Worker) (d : gmap string Z) :
  keeps_session_state w (set_duplicate_files d w).
Proof. by repeat split. Qed.

Lemma keeps_session_state_values (w w' : Worker) :
  keeps_session_state w w' → sequence_values w' = sequence_values w.
Proof. intros (Hp&Hs&Ht&_). unfold sequence_values. by rewrite Hp, Hs, Ht. Qed.

Create HintDb session.

#[local] Hint Resolve keeps_session_state_refl keeps_session_state_set_fs
  keeps_session_state_set_duplicate_files : session.

Lemma add_unique_identifier_loop_keeps (fuel : nat) (name : string * string)
    (full_name : string) (w : Worker) (f : RPDFile) w' f' ok :
  add_unique_identifier_loop fuel name full_name w f = Some (w', f', ok) →
  keeps_session_state w w'.
Proof.
  revert w f. induction fuel as [|fuel IH]; intros w f H; [discriminate|].
  simpl in H. repeat case_match; simplify_eq;
    try (apply IH in H; destruct H as (?&?&?&?));
    repeat split; simpl in *; congruence.
Qed.

Lemma add_unique_identifier_keeps (w : Worker) (f : RPDFile) :
  keeps_session_state w (add_unique_identifier w f).1.1.
Proof.
  unfold add_unique_identifier.
  destruct (add_unique_identifier_loop _ _ _ w f) as [[[w' f'] ok]|] eqn:H; simpl.
  - by apply add_unique_identifier_loop_keeps in H.
  - auto with session.
Qed.

Lemma move_file_keeps (w : Worker) (f : RPDFile) :
  keeps_session_state w (move_file w f).1.1.
Proof.
  unfold move_file.
  repeat case_match; simplify_eq; simpl;
    repeat match goal with
           | H : add_unique_identifier ?w ?f = _ |- _ =>
               pose proof (add_unique_identifier_keeps w f) as Hk;
               rewrite H in Hk; simpl in Hk; clear H
           end;
    try (eapply keeps_session_state_trans; [|exact Hk]);
    repeat split; done.
Qed.

Lemma move_sidecars_keeps (w : Worker) (f : RPDFile) :
  keeps_session_state w (move_sidecars w f).1.
Proof.
  unfold move_sidecars, move_thm_file, move_audio_file, _move_associate_file.
  repeat case_match; simplify_eq; simpl; repeat split; done.
Qed.

(** ** The loop of [add_unique_identifier] *)

Lemma candidate_name_inj (name : string * string) (n m : Z) :
  candidate_name name n = candidate_name name m → n = m.
Proof.
  unfold candidate_name. intros H.
  apply (inj (String.app name.1)) in H.
  change ("_" +:+ pretty n) with (String "_" (pretty n)) in H.
  change ("_" +:+ pretty m) with (String "_" (pretty m)) in H.
  rewrite !string_app_cons in H. injection H as H.
  apply string_app_inv_tail in H. by apply (inj pretty) in H.
Qed.

Lemma candidate_name_startswith_sep (name : string * string) (n m : Z) :
  PosixPath.startswith_sep (candidate_name name n)
  = PosixPath.startswith_sep (candidate_name name m).
Proof.
  unfold candidate_name. destruct name.1 as [|c s]; reflexivity.
Qed.

Lemma candidate_path_inj (path : string) (name : string * string) (n m : Z) :
  candidate_path path name n = candidate_path path name m → n = m.
Proof.
  unfold candidate_path, PosixPath.join.
  rewrite (candidate_name_startswith_sep name n m).
  destruct (PosixPath.startswith_sep (candidate_name name m)).
  - apply candidate_name_inj.
  - destruct (bool_decide (path = "") || PosixPath.endswith_sep path); intros H.
    + apply (inj (String.app path)) in H. by apply candidate_name_inj in H.
    + apply (inj (String.app path)) in H. injection H as H.
      by apply candidate_name_inj in H.
Qed.

Lemma rename_not_EEXIST (fs0 : FileSystem) (src dst : string) :
  (Os.rename fs0 src dst).2 ≠ Some EEXIST.
Proof. unfold Os.rename. repeat case_match; simpl; congruence. Qed.

Lemma rename_success_files (fs0 : FileSystem) (src dst : string) fs' :
  Os.rename fs0 src dst = (fs', None) → dst ∈ fs_files fs'.
Proof.
  unfold Os.rename. repeat case_match; intros; simplify_eq; simpl. set_solver.
Qed.

(** What the loop has done when it is left: the counter of the destination
    has advanced to the identifier used, every identifier before it named a
    path that exists, and the one used named a path that did not. *)
Lemma add_unique_identifier_loop_spec (fuel : nat) (name : string * string)
    (full_name : string) (w : Worker) (f : RPDFile) w' f' ok :
  add_unique_identifier_loop fuel name full_name w f = Some (w', f', ok) →
  let c0 := default 0%Z (duplicate_files w !! full_name) in
  ∃ c : Z,
    duplicate_files w' !! full_name = Some c
    ∧ (c0 < c ≤ c0 + Z.of_nat fuel)%Z
    ∧ download_name f' = candidate_name name c
    ∧ download_full_file_name f' = candidate_path (download_path f) name c
    ∧ Os.path_exists (fs w) (candidate_path (download_path f) name c) = false
    ∧ (∀ k, (c0 < k < c)%Z →
            Os.path_exists (fs w) (candidate_path (download_path f) name k) = true)
    ∧ (if ok
       then download_full_file_name f' ∈ fs_files (fs w')
            ∧ status f' = downloaded_with_warning
            ∧ problem f' = problem f ++ [UNIQUE_IDENTIFIER_ADDED ("_" +:+ pretty c)]
       else ∃ inst, inst ≠ EEXIST
            ∧ status f' = download_failed
            ∧ problem f' = problem f ++ [DOWNLOAD_COPYING_ERROR inst]).
Proof.
  revert w f. induction fuel as [|fuel IH]; intros w f H; [discriminate|].
  cbn [add_unique_identifier_loop] in H. cbv zeta in H.
  set (c1 := (default 0 (duplicate_files w !! full_name) + 1)%Z) in *.
  fold (candidate_name name c1) in H.
  cbn [download_path set_download_name download_name fs set_duplicate_files
       set_download_full_file_name download_full_file_name temp_full_file_name] in H.
  fold (candidate_path (download_path f) name c1) in H.
  destruct (Os.path_exists (fs w) (candidate_path (download_path f) name c1)) eqn:Hex.
  - apply IH in H. cbn [duplicate_files set_duplicate_files] in H.
    rewrite lookup_insert_eq in H. cbn [default] in H.
    cbn [download_path set_download_full_file_name set_download_name fs
         problem] in H.
    destruct H as (c & Hc & Hrange & Hn & Hfull & Hfree & Htaken & Hok).
    unfold id in *. cbn [fs set_duplicate_files] in *.
    exists c. split_and!; try done; try (subst c1; lia).
    intros k Hk. destruct (decide (k = c1)) as [->|Hne]; [done|].
    apply Htaken. subst c1; lia.
  - destruct (Os.rename (fs w) (temp_full_file_name f)
                (candidate_path (download_path f) name c1)) as [fs' [inst|]] eqn:Hren.
    + destruct (decide (inst = EEXIST)) as [->|Hinst].
      { pose proof (rename_not_EEXIST (fs w) (temp_full_file_name f)
                      (candidate_path (download_path f) name c1)) as Hno.
        rewrite Hren in Hno. by destruct Hno. }
      rewrite bool_decide_eq_true_2 in H by done. simplify_eq.
      exists c1. cbn. rewrite lookup_insert_eq.
      split_and!; try done; try (subst c1; lia). by exists inst.
    + simplify_eq. exists c1. cbn. rewrite lookup_insert_eq.
      split_and!; try done; try (subst c1; lia).
      by apply rename_success_files in Hren.
Qed.

(** One iteration of the loop, with the name it tries spelled out. *)
Lemma add_unique_identifier_loop_step (fuel : nat) (name : string * string)
    (full_name : string) (w : Worker) (f : RPDFile) :
  add_unique_identifier_loop (S fuel) name full_name w f =
  let c1 := (default 0 (duplicate_files w !! full_name) + 1)%Z in
  let tried := candidate_path (download_path f) name c1 in
  let w1 := set_duplicate_files (<[full_name := c1]> (duplicate_files w)) w in
  let f1 := set_download_full_file_name tried
              (set_download_name (candidate_name name c1) f) in
  if Os.path_exists (fs w) tried then
    add_unique_identifier_loop fuel name full_name w1 f1
  else
    match Os.rename (fs w) (temp_full_file_name f) tried with
    | (fs', None) =>
        Some (set_fs fs' w1,
              notify_file_already_exists f1 (Some ("_" +:+ pretty c1)), true)
    | (fs', Some inst) =>
        if bool_decide (inst ≠ EEXIST)
        then Some (set_fs fs' w1, notify_download_failure_file_error f1 inst, false)
        else add_unique_identifier_loop fuel name full_name (set_fs fs' w1) f1
    end.
Proof. reflexivity. Qed.

Lemma add_unique_identifier_loop_finishes_within (n : nat) (X : gset string)
    (name : string * string) (full_name : string) (w : Worker) (f : RPDFile) :
  size X ≤ n →
  (∀ k, (default 0 (duplicate_files w !! full_name) < k)%Z →
        Os.path_exists (fs w) (candidate_path (download_path f) name k) = true →
        candidate_path (download_path f) name k ∈ X) →
  is_Some (add_unique_identifier_loop (S n) name full_name w f).
Proof.
  revert X w f. induction n as [|n IH]; intros X w f Hsize Hin.
  all: rewrite add_unique_identifier_loop_step; cbv zeta.
  all: set (c1 := (default 0 (duplicate_files w !! full_name) + 1)%Z) in *.
  all: destruct (Os.path_exists (fs w) (candidate_path (download_path f) name c1))
         eqn:Hex.
  - apply Hin in Hex; [|subst c1; lia].
    assert (X ≡ ∅) as HX by (apply size_empty_iff; lia).
    set_solver.
  - destruct (Os.rename _ _ _) as [fs' [inst|]] eqn:Hren; [|by eexists].
    destruct (decide (inst = EEXIST)) as [->|Hinst].
    + pose proof (rename_not_EEXIST (fs w) (temp_full_file_name f)
                    (candidate_path (download_path f) name c1)) as Hno.
      rewrite Hren in Hno. by destruct Hno.
    + rewrite bool_decide_eq_true_2 by done. by eexists.
  - pose proof (Hin c1 ltac:(subst c1; lia) Hex) as Hc1.
    apply (IH (X ∖ {[candidate_path (download_path f) name c1]})).
    + assert (size X = size ({[candidate_path (download_path f) name c1]} : gset string)
                       + size (X ∖ {[candidate_path (download_path f) name c1]}))
        as Hsz.
      { rewrite <- size_union_alt. f_equal. symmetry.
        apply subseteq_union_1_L. by apply singleton_subseteq_l. }
      rewrite size_singleton in Hsz. lia.
    + cbn [duplicate_files set_duplicate_files fs download_path
           set_download_full_file_name set_download_name].
      rewrite lookup_insert_eq. cbn [default from_option]. unfold id.
      intros k Hk Hexk.
      apply elem_of_difference. split.
      * apply Hin; [subst c1; lia | done].
      * rewrite elem_of_singleton. intros Heq.
        apply candidate_path_inj in Heq. lia.
  - destruct (Os.rename _ _ _) as [fs' [inst|]] eqn:Hren; [|by eexists].
    destruct (decide (inst = EEXIST)) as [->|Hinst].
    + pose proof (rename_not_EEXIST (fs w) (temp_full_file_name f)
                    (candidate_path (download_path f) name c1)) as Hno.
      rewrite Hren in Hno. by destruct Hno.
    + rewrite bool_decide_eq_true_2 by done. by eexists.
Qed.

(** One more iteration than there are existing paths lets the loop finish. *)
Lemma add_unique_identifier_loop_finishes (name : string * string)
    (full_name : string) (w : Worker) (f : RPDFile) :
  is_Some (add_unique_identifier_loop (S (existing_paths (fs w)))
             name full_name w f).
Proof.
  apply (add_unique_identifier_loop_finishes_within _ (fs_files (fs w) ∪ fs_dirs (fs w))).
  - reflexivity.
  - intros k _ Hex. unfold Os.path_exists in Hex.
    apply orb_true_iff in Hex as [Hex|Hex]; apply bool_decide_eq_true in Hex;
      set_solver.
Qed.

Lemma add_unique_identifier_loop_more_fuel (n m : nat) (name : string * string)
    (full_name : string) (w : Worker) (f : RPDFile) r :
  add_unique_identifier_loop n name full_name w f = Some r → n ≤ m →
  add_unique_identifier_loop m name full_name w f = Some r.
Proof.
  revert m w f. induction n as [|n IH]; intros m w f H Hle; [discriminate|].
  destruct m as [|m]; [lia|].
  rewrite add_unique_identifier_loop_step in *. cbv zeta in *.
  repeat case_match; simplify_eq; try done; apply IH; try done; lia.
Qed.

(** C9, as the code has it. The loop of [add_unique_identifier] is left on
    every execution: run for one more iteration than there are existing
    paths (or for any number of iterations beyond that) it returns, having
    tried at least one and at most that many identifiers. It is left either
    because the rename to a name that did not exist succeeded, or because the
    rename failed with an error other than [EEXIST]. Nothing else bounds the
    number of identifiers tried. *)
Theorem add_unique_identifier_loop_is_left (w : Worker) (f : RPDFile) :
  let name := PosixPath.splitext (download_name f) in
  let full_name := download_full_file_name f in
  ∃ w' f' ok,
    (∀ fuel, S (existing_paths (fs w)) ≤ fuel →
             add_unique_identifier_loop fuel name full_name w f = Some (w', f', ok))
    ∧ add_unique_identifier w f = (w', f', ok)
    ∧ (0 < identifier_attempts w f ≤ Z.of_nat (S (existing_paths (fs w))))%Z
    ∧ Os.path_exists (fs w) (download_full_file_name f') = false
    ∧ (if ok
       then download_full_file_name f' ∈ fs_files (fs w')
            ∧ status f' = downloaded_with_warning
       else ∃ inst, inst ≠ EEXIST
            ∧ status f' = download_failed
            ∧ problem f' = problem f ++ [DOWNLOAD_COPYING_ERROR inst]).
Proof.
  cbv zeta.
  destruct (add_unique_identifier_loop_finishes
              (PosixPath.splitext (download_name f)) (download_full_file_name f) w f)
    as [[[w' f'] ok] Hloop].
  exists w', f', ok.
  assert (add_unique_identifier w f = (w', f', ok)) as Hadd.
  { unfold add_unique_identifier. by rewrite Hloop. }
  pose proof (add_unique_identifier_loop_spec _ _ _ _ _ _ _ _ Hloop)
    as (c & Hc & Hrange & _ & Hfull & Hfree & _ & Hok).
  split_and!.
  - intros fuel Hfuel. by eapply add_unique_identifier_loop_more_fuel.
  - done.
  - unfold identifier_attempts. rewrite Hadd. cbn [fst].
    set (c0 := default 0%Z (duplicate_files w !! download_full_file_name f)) in *.
    rewrite Hc. simpl. lia.
  - unfold identifier_attempts. rewrite Hadd. cbn [fst].
    set (c0 := default 0%Z (duplicate_files w !! download_full_file_name f)) in *.
    rewrite Hc. simpl. lia.
  - by rewrite Hfull.
  - destruct ok; [|done]. by destruct Hok as (?&?&?).
Qed.

Lemma crowded_fs_taken (m : nat) (k : Z) :
  (1 ≤ k ≤ Z.of_nat m)%Z →
  Os.path_exists (crowded_fs m)
    (candidate_path "/photos/2024" ("IMG", ".JPG") k) = true.
Proof.
  intros Hk. unfold Os.path_exists. apply orb_true_iff. left.
  apply bool_decide_eq_true. unfold crowded_fs. cbn [fs_files].
  apply elem_of_list_to_set. apply list_elem_of_fmap.
  exists (Z.to_nat k). split.
  - f_equal. lia.
  - apply elem_of_seq. lia.
Qed.

Lemma crowded_worker_attempts (m : nat) :
  (Z.of_nat m < identifier_attempts (crowded_worker m) clash_file)%Z.
Proof.
  unfold identifier_attempts, add_unique_identifier.
  destruct (add_unique_identifier_loop_finishes
              (PosixPath.splitext (download_name clash_file))
              (download_full_file_name clash_file) (crowded_worker m) clash_file)
    as [[[w' f'] ok] Hloop].
  rewrite Hloop. cbn [fst].
  pose proof (add_unique_identifier_loop_spec _ _ _ _ _ _ _ _ Hloop)
    as (c & Hc & Hrange & _ & _ & Hfree & _ & _).
  change (duplicate_files (crowded_worker m)) with (∅ : gmap string Z) in *.
  rewrite lookup_empty in *. rewrite Hc. simpl in Hrange |- *.
  change (PosixPath.splitext (download_name clash_file)) with ("IMG", ".JPG") in Hfree.
  change (download_path clash_file) with "/photos/2024" in Hfree.
  change (fs (crowded_worker m)) with (crowded_fs m) in Hfree.
  destruct (decide (c ≤ Z.of_nat m)%Z) as [Hle|Hgt]; [|lia].
  rewrite crowded_fs_taken in Hfree by lia. discriminate.
Qed.

(** C9, as the claim has it, fails: no retry ceiling bounds the number of
    identifiers tried. Whatever the ceiling, a destination folder in which
    more names than that are taken makes the loop try more identifiers. *)
Lemma no_retry_ceiling :
  ¬ ∃ ceiling : Z,
      ∀ (w : Worker) (f : RPDFile), (identifier_attempts w f ≤ ceiling)%Z.
Proof.
  intros [ceiling Hceiling].
  pose proof (Hceiling (crowded_worker (Z.to_nat ceiling)) clash_file) as H.
  pose proof (crowded_worker_attempts (Z.to_nat ceiling)). lia.
Qed.

(** ** Sequence values *)

Lemma advanced_at_most_once_refl (n : Z) : advanced_at_most_once n n.
Proof. by left. Qed.

Lemma sync_raw_jpg_keeps (w : Worker) (f : RPDFile) :
  let w' := (sync_raw_jpg w f).1.1 in
  prefs w' = prefs w ∧ downloads_today_tracker w' = downloads_today_tracker w
  ∧ sync_raw_jpeg w' = sync_raw_jpeg w ∧ duplicate_files w' = duplicate_files w
  ∧ fs w' = fs w
  ∧ Sequences.session_sequence_no (sequences w')
    = Sequences.session_sequence_no (sequences w)
  ∧ Sequences.sequence_letter (sequences w')
    = Sequences.sequence_letter (sequences w)
  ∧ Sequences.stored_sequence_no (sequences w')
    = Sequences.stored_sequence_no (sequences w).
Proof.
  unfold sync_raw_jpg. repeat case_match; simplify_eq; simpl; done.
Qed.

Lemma sync_raw_jpg_values (w : Worker) (f : RPDFile) :
  sequence_values (sync_raw_jpg w f).1.1 = sequence_values w.
Proof.
  pose proof (sync_raw_jpg_keeps w f) as (Hp&Ht&_&_&_&Hs&Hl&_).
  unfold sequence_values. by rewrite Hp, Ht, Hs, Hl.
Qed.

Lemma record_and_increment_values (w : Worker) (f : RPDFile)
    (synchronize_raw_jpg : bool) (sync_result : SyncRawJpegResult) :
  let w' := record_and_increment w f synchronize_raw_jpg sync_result in
  advanced_at_most_once (sequence_values w).1.1.1 (sequence_values w').1.1.1
  ∧ advanced_at_most_once (sequence_values w).1.1.2 (sequence_values w').1.1.2
  ∧ advanced_at_most_once (sequence_values w).1.2 (sequence_values w').1.2
  ∧ advanced_at_most_once (sequence_values w).2 (sequence_values w').2
  ∧ Sequences.stored_sequence_no (sequences w')
    = Sequences.stored_sequence_no (sequences w)
  ∧ fs w' = fs w ∧ duplicate_files w' = duplicate_files w.
Proof.
  unfold record_and_increment, advanced_at_most_once, sequence_values.
  destruct synchronize_raw_jpg, (sequence_to_use sync_result) as [z|]; simpl;
    try (split_and!; auto; fail);
    destruct (Preferences.any_pref_uses_session_sequence_no (prefs w)),
             (Preferences.any_pref_uses_sequence_letter_value (prefs w)); simpl;
    destruct (Preferences.any_pref_uses_stored_sequence_no (prefs w));
    simpl; split_and!; auto.
Qed.

Lemma place_file_values `{NameGenerators} (w : Worker) (f : RPDFile) :
  let w' := (place_file w f).1.1 in
  let moved := (place_file w f).2 in
  advanced_at_most_once (sequence_values w).1.1.1 (sequence_values w').1.1.1
  ∧ advanced_at_most_once (sequence_values w).1.1.2 (sequence_values w').1.1.2
  ∧ advanced_at_most_once (sequence_values w).1.2 (sequence_values w').1.2
  ∧ advanced_at_most_once (sequence_values w).2 (sequence_values w').2
  ∧ Sequences.stored_sequence_no (sequences w')
    = Sequences.stored_sequence_no (sequences w)
  ∧ (moved = false → sequence_values w' = sequence_values w).
Proof.
  unfold place_file.
  set (f0 := prepare_rpd_file w f).
  set (synchronize := Preferences.must_synchronize_raw_jpg (prefs w)
                      && bool_decide (file_type f0 = photo)).
  assert (∃ w1 f1 r,
            (if synchronize then sync_raw_jpg w f0 else (w, f0, no_sync_result))
            = (w1, f1, r)
            ∧ sequence_values w1 = sequence_values w
            ∧ Sequences.stored_sequence_no (sequences w1)
              = Sequences.stored_sequence_no (sequences w))
    as (w1 & f1 & r & -> & Hv1 & Hs1).
  { destruct synchronize.
    - destruct (sync_raw_jpg w f0) as [[w1 f1] r] eqn:Hsync.
      exists w1, f1, r. split; [done|].
      pose proof (sync_raw_jpg_values w f0) as Hv.
      pose proof (sync_raw_jpg_keeps w f0) as (_&_&_&_&_&_&_&Hs).
      rewrite Hsync in Hv, Hs. by split.
    - by exists w, f0, no_sync_result. }
  destruct (synchronize && failed r).
  { cbn [fst snd]. rewrite Hv1, Hs1. split_and!; auto using advanced_at_most_once_refl. }
  destruct (generate_names w1 f1) as [f2 generated].
  assert (∃ w3 f3 moved,
            (if generated then move_file w1 f2 else (w1, f2, false)) = (w3, f3, moved)
            ∧ sequence_values w3 = sequence_values w
            ∧ Sequences.stored_sequence_no (sequences w3)
              = Sequences.stored_sequence_no (sequences w))
    as (w3 & f3 & moved & -> & Hv3 & Hs3).
  { destruct generated.
    - destruct (move_file w1 f2) as [[w3 f3] moved] eqn:Hmove.
      exists w3, f3, moved. split; [done|].
      pose proof (move_file_keeps w1 f2) as Hk. rewrite Hmove in Hk.
      pose proof (keeps_session_state_values _ _ Hk) as Hv.
      destruct Hk as (_ & Hseq & _). cbn [fst] in Hseq.
      cbn [fst] in Hv. split; [congruence|]. by rewrite Hseq.
    - by exists w1, f2, false. }
  destruct moved; cbn [fst snd].
  - pose proof (record_and_increment_values w3 f3 synchronize r) as Hr.
    cbv zeta in Hr. rewrite Hv3, Hs3 in Hr.
    destruct Hr as (?&?&?&?&?&_). split_and!; done.
  - rewrite Hv3, Hs3. split_and!; auto using advanced_at_most_once_refl.
Qed.

Lemma process_file_values `{NameGenerators} (w : Worker) (f : RPDFile)
    (download_count : Z) :
  let w' := (process_file w f download_count).1.1 in
  let moved := (process_file w f download_count).2 in
  advanced_at_most_once (sequence_values w).1.1.1 (sequence_values w').1.1.1
  ∧ advanced_at_most_once (sequence_values w).1.1.2 (sequence_values w').1.1.2
  ∧ advanced_at_most_once (sequence_values w).1.2 (sequence_values w').1.2
  ∧ advanced_at_most_once (sequence_values w).2 (sequence_values w').2
  ∧ Sequences.stored_sequence_no (sequences w')
    = Sequences.stored_sequence_no (sequences w)
  ∧ (moved = false → sequence_values w' = sequence_values w).
Proof.
  unfold process_file.
  pose proof (place_file_values w f) as Hplace.
  destruct (place_file w f) as [[w1 f1] moved]. cbn [fst snd] in Hplace. cbv zeta in Hplace.
  destruct moved; [|exact Hplace].
  pose proof (move_sidecars_keeps w1 f1) as Hk.
  destruct (move_sidecars w1 f1) as [w2 f2]. cbn [fst snd] in *.
  rewrite (keeps_session_state_values _ _ Hk).
  destruct Hk as (_ & -> & _).
  destruct Hplace as (?&?&?&?&?&_). split_and!; done.
Qed.

(** C1. For every file request, each of the four sequence counters (session
    sequence number, sequence letter index, stored sequence number,
    downloads-today count) is left as it was or advanced by one, and a request
    that is answered with [move_succeeded = False] (the name generation or the
    move failed, or the download itself had failed) leaves all four as they
    were: they advance only once the move is known to have succeeded. *)
Theorem sequence_values_advance_once `{NameGenerators} (w : Worker)
    (f : RPDFile) (download_count : Z) (download_succeeded : bool) :
  ∃ w' f' move_succeeded,
    run_step (Started w) (file_downloaded f download_count download_succeeded)
    = Some (Started w', Some (FileResults move_succeeded f' download_count))
    ∧ advanced_at_most_once (sequence_values w).1.1.1 (sequence_values w').1.1.1
    ∧ advanced_at_most_once (sequence_values w).1.1.2 (sequence_values w').1.1.2
    ∧ advanced_at_most_once (sequence_values w).1.2 (sequence_values w').1.2
    ∧ advanced_at_most_once (sequence_values w).2 (sequence_values w').2
    ∧ (move_succeeded = false → sequence_values w' = sequence_values w).
Proof.
  unfold run_step. destruct download_succeeded.
  - pose proof (process_file_values w f download_count) as Hp.
    destruct (process_file w f download_count) as [[w1 f1] moved].
    cbn [fst snd] in Hp. destruct Hp as (H1&H2&H3&H4&_&H6).
    destruct moved; cbn [negb].
    + by exists w1, (set_metadata None f1), true.
    + exists (process_rename_failure w1 f1), (set_metadata None f1), false.
      split; [done|]. split_and!; try done.
    - exists w, (set_metadata None f), false.
      split_and!; auto using advanced_at_most_once_refl.
Qed.

(** ** Fatal name generation errors *)

Lemma check_for_fatal_name_generation_errors_spec (f : RPDFile) :
  let '(f', ok) := check_for_fatal_name_generation_errors f in
  download_subfolder f' = download_subfolder f
  ∧ download_name f' = download_name f
  ∧ (ok = false ↔ download_subfolder f = "" ∨ download_name f = "")
  ∧ (ok = false →
     status f' = download_failed
     ∧ problem f' = problem f ++ [ERROR_IN_NAME_GENERATION (blank_area f')])
  ∧ (ok = true → f' = f).
Proof.
  unfold check_for_fatal_name_generation_errors.
  destruct (decide (download_subfolder f = "")) as [Hs|Hs];
    destruct (decide (download_name f = "")) as [Hn|Hn];
    rewrite ?(bool_decide_eq_true_2 _ Hs), ?(bool_decide_eq_false_2 _ Hs),
            ?(bool_decide_eq_true_2 _ Hn), ?(bool_decide_eq_false_2 _ Hn);
    cbn [orb]; split_and!; try done; try tauto.
  split; [done|]. intros [?|?]; done.
Qed.

Lemma blank_area_spec (f : RPDFile) :
  (blank_area f = subfolder_and_filename
   ↔ download_subfolder f = "" ∧ download_name f = "")
  ∧ (blank_area f = filename
     ↔ download_subfolder f ≠ "" ∧ download_name f = "")
  ∧ (blank_area f = subfolder ↔ download_name f ≠ "").
Proof.
  unfold blank_area.
  destruct (decide (download_subfolder f = "")) as [Hs|Hs];
    destruct (decide (download_name f = "")) as [Hn|Hn];
    rewrite ?(bool_decide_eq_true_2 _ Hs), ?(bool_decide_eq_false_2 _ Hs),
            ?(bool_decide_eq_true_2 _ Hn), ?(bool_decide_eq_false_2 _ Hn);
    cbn [andb]; split_and!; split; try done; try tauto; intros [? ?]; done.
Qed.

(** C5. When the generated subfolder or the generated file name is empty,
    [process_file] fails without attempting any file system operation (the
    file system and the log of the operations attempted are as before: no
    directory is created, nothing is renamed), the status of the file is
    [download_failed], and the problem recorded last is
    [ERROR_IN_NAME_GENERATION] with the area that tells which of the
    subfolder, the file name, or both is empty. *)
Theorem blank_name_fails_before_any_move `{NameGenerators} (w : Worker)
    (f : RPDFile) (download_count : Z) (generated : RPDFile) :
  generated_names w f = Some generated →
  download_subfolder generated = "" ∨ download_name generated = "" →
  let '(w', f', move_succeeded) := process_file w f download_count in
  move_succeeded = false
  ∧ f' = generated
  ∧ fs w' = fs w
  ∧ status f' = download_failed
  ∧ (∃ area, last (problem f') = Some (ERROR_IN_NAME_GENERATION area)
             ∧ (area = subfolder_and_filename
                ↔ download_subfolder f' = "" ∧ download_name f' = "")
             ∧ (area = filename
                ↔ download_subfolder f' ≠ "" ∧ download_name f' = "")
             ∧ (area = subfolder
                ↔ download_subfolder f' = "" ∧ download_name f' ≠ "")).
Proof.
  unfold generated_names, process_file, place_file.
  set (f0 := prepare_rpd_file w f).
  set (synchronize := Preferences.must_synchronize_raw_jpg (prefs w)
                      && bool_decide (file_type f0 = photo)).
  assert (∃ w1 f1 r,
            (if synchronize then sync_raw_jpg w f0 else (w, f0, no_sync_result))
            = (w1, f1, r) ∧ fs w1 = fs w)
    as (w1 & f1 & r & -> & Hfs).
  { destruct synchronize.
    - destruct (sync_raw_jpg w f0) as [[w1 f1] r] eqn:Hsync.
      exists w1, f1, r. split; [done|].
      pose proof (sync_raw_jpg_keeps w f0) as (_&_&_&_&Hfs&_).
      by rewrite Hsync in Hfs.
    - by exists w, f0, no_sync_result. }
  destruct (synchronize && failed r); [discriminate|].
  intros Hgen Hblank. injection Hgen as Hgen.
  unfold generate_names in *.
  set (f2 := if bool_decide (download_subfolder (generate_subfolder f1) ≠ "")
             then _ else _) in *.
  pose proof (check_for_fatal_name_generation_errors_spec f2) as Hcheck.
  destruct (check_for_fatal_name_generation_errors f2) as [f3 ok].
  cbn [fst] in Hgen. subst f3.
  destruct Hcheck as (Hsub & Hname & Hok & Hfailed & _).
  assert (ok = false) as -> by (apply Hok; rewrite <- Hsub, <- Hname; done).
  destruct (Hfailed eq_refl) as [Hstatus Hproblem].
  split_and!; try done.
  exists (blank_area generated). rewrite Hproblem, last_snoc.
  pose proof (blank_area_spec generated) as (Hboth & Hfile & Hfolder).
  split_and!; try done.
  rewrite Hfolder. split; [|tauto].
  intros Hn. split; [|done]. by destruct Hblank.
Qed.

(** C5 at a file whose generated file name is blank. *)
Lemma blank_name_fails_before_any_move_witness :
  let w := sample_worker blank_name_prefs sample_fs in
  let f := sample_file "DSC1.JPG" "/tmp/a" (Some sample_exif) in
  ∃ generated,
    @generated_names text_generators w f = Some generated
    ∧ (download_subfolder generated = "" ∨ download_name generated = "")
    ∧ let '(w', f', move_succeeded) := @process_file text_generators w f 1 in
      move_succeeded = false
      ∧ f' = generated
      ∧ fs w' = fs w
      ∧ status f' = download_failed
      ∧ (∃ area, last (problem f') = Some (ERROR_IN_NAME_GENERATION area)
                 ∧ (area = subfolder_and_filename
                    ↔ download_subfolder f' = "" ∧ download_name f' = "")
                 ∧ (area = filename
                    ↔ download_subfolder f' ≠ "" ∧ download_name f' = "")
                 ∧ (area = subfolder
                    ↔ download_subfolder f' = "" ∧ download_name f' ≠ "")).
Proof.
  cbv zeta. eexists. split; [reflexivity|]. split; [right; reflexivity|].
  apply (@blank_name_fails_before_any_move text_generators);
    [reflexivity | right; reflexivity].
Defined.

(** ** Duplicate destination names *)

(** C2 at three files that generate the same name, under the add-identifier
    policy. The first is placed as [IMG.JPG]. The second is renamed to
    [IMG_1.JPG] and the third to [IMG_2.JPG], both with status
    [downloaded_with_warning], and both are nevertheless answered with
    [move_succeeded = False]: [move_file] drops what [add_unique_identifier]
    returns. *)
Theorem identifier_added_but_move_reported_failed :
  match @run text_generators (init sample_prefs sample_fs) same_name_session with
  | Some (d, [FileResults moved1 f1 _; FileResults moved2 f2 _;
              FileResults moved3 f3 _]) =>
      (moved1 = true ∧ status f1 = downloaded
       ∧ download_full_file_name f1 = "/photos/2024/IMG.JPG")
      ∧ (moved2 = false ∧ status f2 = downloaded_with_warning
         ∧ download_full_file_name f2 = "/photos/2024/IMG_1.JPG"
         ∧ Os.path_exists (daemon_fs d) "/photos/2024/IMG_1.JPG" = true
         ∧ Os.path_exists (daemon_fs d) "/tmp/b" = false)
      ∧ (moved3 = false ∧ status f3 = downloaded_with_warning
         ∧ download_full_file_name f3 = "/photos/2024/IMG_2.JPG"
         ∧ Os.path_exists (daemon_fs d) "/photos/2024/IMG_2.JPG" = true
         ∧ Os.path_exists (daemon_fs d) "/tmp/c" = false)
  | _ => False
  end.
Proof. vm_compute. split_and!; reflexivity. Qed.

Lemma makedirs_keeps_existing (fs0 : FileSystem) (p q : string) :
  Os.path_exists fs0 q = true →
  Os.path_exists (Os.makedirs fs0 p).1 q = true.
Proof.
  unfold Os.makedirs, Os.path_exists. intros H.
  apply orb_true_iff in H as [H|H]; apply bool_decide_eq_true in H;
    repeat case_match; simpl; apply orb_true_iff;
    rewrite !bool_decide_eq_true; set_solver.
Qed.

(** Whenever the destination already exists, [move_file] returns [False],
    whatever the conflict policy and whatever [add_unique_identifier]
    achieves. *)
Lemma move_file_existing_destination (w : Worker) (f : RPDFile) :
  let path := PosixPath.join (download_folder f) (download_subfolder f) in
  Os.path_exists (fs w) (PosixPath.join path (download_name f)) = true →
  (move_file w f).2 = false.
Proof.
  intros path Hex. unfold move_file. cbv zeta.
  cbn [download_path set_download_path set_download_full_file_name
       set_download_full_base_name download_full_file_name download_name
       download_folder download_subfolder].
  fold path.
  set (w1 := if negb (Os.path_isdir (fs w) path) then _ else w).
  assert (Os.path_exists (fs w1) (PosixPath.join path (download_name f)) = true)
    as ->.
  { subst w1. destruct (negb _); [|done]. cbn [fs set_fs].
    by apply makedirs_keeps_existing. }
  destruct (download_file_exists w1 _) as [f1 wanted].
  destruct wanted; [|done].
  by destruct (add_unique_identifier w1 f1) as [[w2 f2] ok].
Qed.

(** ** The stored sequence number sent at the end of a session *)

(** C6 at a session that places one photo with preferences that use the
    stored sequence number, loaded as 5: the worker bumps the preference to
    6, and the results sent for [download_completed] carry 5, the value kept
    in [sequences]. *)
Theorem stored_sequence_no_sent_without_bumps :
  match @run text_generators (init sample_prefs sample_fs) one_photo_session with
  | Some (Started w, [FileResults moved _ _; SessionResults sent _]) =>
      moved = true
      ∧ Preferences.any_pref_uses_stored_sequence_no (prefs w) = true
      ∧ Preferences.stored_sequence_no sample_prefs = 5%Z
      ∧ Preferences.stored_sequence_no (prefs w) = 6%Z
      ∧ sent = 5%Z
  | _ => False
  end.
Proof. vm_compute. split_and!; reflexivity. Qed.

(** A file message leaves the stored sequence number kept in [sequences] as it
    is. *)
Lemma file_downloaded_keeps_sequences_stored `{NameGenerators} (w : Worker)
    (f : RPDFile) (download_count : Z) (download_succeeded : bool) :
  ∃ w' sent,
    run_step (Started w) (file_downloaded f download_count download_succeeded)
    = Some (Started w', Some sent)
    ∧ Sequences.stored_sequence_no (sequences w')
      = Sequences.stored_sequence_no (sequences w).
Proof.
  unfold run_step. destruct download_succeeded.
  - pose proof (process_file_values w f download_count) as Hp.
    destruct (process_file w f download_count) as [[w1 f1] moved].
    cbn [fst snd] in Hp. destruct Hp as (_&_&_&_&Hs&_).
    destruct moved; cbn [negb]; eauto.
  - eauto.
Qed.

Lemma run_app `{NameGenerators} (d : Daemon) (l1 l2 : list Message) d1 sent1 :
  run d l1 = Some (d1, sent1) →
  run d (l1 ++ l2)
  = match run d1 l2 with
    | Some (d2, sent2) => Some (d2, sent1 ++ sent2)
    | None => None
    end.
Proof.
  revert d d1 sent1. induction l1 as [|m l1 IH]; intros d d1 sent1 Hrun.
  - simpl in Hrun. simplify_eq. simpl. by destruct (run d1 l2) as [[??]|].
  - simpl in *. destruct (run_step d m) as [[d' s]|]; [|done].
    destruct (run d' l1) as [[d'' more]|] eqn:Hrest; [|done]. simplify_eq.
    rewrite (IH _ _ _ Hrest).
    destruct (run d1 l2) as [[d2 sent2]|]; [|done].
    by rewrite app_assoc.
Qed.

Lemma run_files_keep_sequences_stored `{NameGenerators} (w : Worker)
    (files : list (RPDFile * Z * bool)) :
  ∃ w' sent,
    run (Started w) ((λ x, file_downloaded x.1.1 x.1.2 x.2) <$> files)
    = Some (Started w', sent)
    ∧ Sequences.stored_sequence_no (sequences w')
      = Sequences.stored_sequence_no (sequences w).
Proof.
  revert w. induction files as [|[[f c] ok] files IH]; intros w.
  - by exists w, [].
  - destruct (file_downloaded_keeps_sequences_stored w f c ok)
      as (w1 & sent1 & Hstep & Hs1).
    destruct (IH w1) as (w2 & sent2 & Hrun & Hs2).
    exists w2, (sent1 :: sent2). split; [|congruence].
    cbn [fmap list_fmap run fst snd]. rewrite Hstep.
    change (list_fmap _ _ ?g files) with (g <$> files).
    by rewrite Hrun.
Qed.

(** Whatever files a session places, the stored sequence number sent when it
    finishes is the one loaded when it started. *)
Lemma session_results_carry_loaded_stored_sequence_no `{NameGenerators}
    (d : Daemon) (stored_prefs : Preferences.t) (today today' : Z)
    (files : list (RPDFile * Z * bool)) :
  ∃ d' sent downloads,
    run d (download_started stored_prefs today
             :: ((λ x, file_downloaded x.1.1 x.1.2 x.2) <$> files)
                ++ [download_completed today'])
    = Some (d', sent ++ [SessionResults
                           (Preferences.stored_sequence_no stored_prefs)
                           downloads]).
Proof.
  cbn [run run_step].
  destruct (DownloadsTodayTracker.get_or_reset_downloads_today today _)
    as [tracker dl].
  set (w := {| prefs := stored_prefs; sequences := Sequences.init _ |}).
  destruct (run_files_keep_sequences_stored w files) as (w1 & sent & Hrun & Hs).
  rewrite (run_app _ _ _ _ _ Hrun). cbn [run run_step].
  destruct (DownloadsTodayTracker.get_or_reset_downloads_today today' _)
    as [tracker' dl'].
  eexists _, sent, _. cbn [option_list app]. rewrite Hs.
  by rewrite app_nil_r.
Qed.

(** ** What a [download_started] message resets *)


(** The two tables are empty when the worker is created. *)
Lemma init_tables_empty (stored_prefs : Preferences.t) (fs0 : FileSystem) :
  daemon_sync_raw_jpeg (init stored_prefs fs0) = ∅
  ∧ daemon_duplicate_files (init stored_prefs fs0) = ∅.
Proof. done. Qed.


(** ** Sidecar files *)

(** C8, as the code has it. What [process_file] returns, and the status and
    the problems of the file, are those the placement of the primary file
    left: moving the THM, audio and XMP files changes none of them, whether
    the renames succeed or fail. A sidecar that cannot be moved is logged and
    adds no problem. The sequence values are those the placement left too. *)
Theorem sidecars_leave_outcome `{NameGenerators} (w : Worker) (f : RPDFile)
    (download_count : Z) :
  let '(w1, f1, placed) := place_file w f in
  let '(w', f', move_succeeded) := process_file w f download_count in
  move_succeeded = placed
  ∧ status f' = status f1
  ∧ problem f' = problem f1
  ∧ download_full_file_name f' = download_full_file_name f1
  ∧ sequence_values w' = sequence_values w1
  ∧ sync_raw_jpeg w' = sync_raw_jpeg w1.
Proof.
  unfold process_file.
  destruct (place_file w f) as [[w1 f1] placed].
  destruct placed; [|done].
  pose proof (move_sidecars_keeps w1 f1) as Hk.
  assert (status (move_sidecars w1 f1).2 = status f1
          ∧ problem (move_sidecars w1 f1).2 = problem f1
          ∧ download_full_file_name (move_sidecars w1 f1).2
            = download_full_file_name f1) as Hf.
  { unfold move_sidecars, move_thm_file, move_audio_file, _move_associate_file.
    repeat case_match; simplify_eq; done. }
  destruct (move_sidecars w1 f1) as [w2 f2]. cbn [fst snd] in *.
  destruct Hf as (?&?&?).
  split_and!; try done.
  - by apply keeps_session_state_values.
  - by destruct Hk as (_&_&_&?).
Qed.

(** C8, as the claim has it, fails: for a photo whose THM file cannot be
    moved, the primary file is placed with status [downloaded], the rename of
    the THM file is attempted and fails (nothing is at its destination), and
    no problem is recorded on the file. *)
Lemma lost_thm_adds_no_problem :
  let '(w', f', move_succeeded) :=
    @process_file text_generators (sample_worker sample_prefs sample_fs)
      photo_with_lost_thm 1 in
  move_succeeded = true
  ∧ status f' = downloaded
  ∧ last (fs_log (fs w')) = Some (OpRename "/tmp/a.THM" "/photos/2024/IMG.THM")
  ∧ Os.path_exists (fs w') "/photos/2024/IMG.THM" = false
  ∧ problem f' = [].
Proof. vm_compute. split_and!; reflexivity. Qed.

(** ** RAW+JPEG pairs *)







(** What a successful [process_file] went through. *)
Lemma process_file_true_inv `{NameGenerators} (w : Worker) (f : RPDFile)
    (download_count : Z) w' f' :
  process_file w f download_count = (w', f', true) →
  let f0 := prepare_rpd_file w f in
  let synchronize := Preferences.must_synchronize_raw_jpg (prefs w)
                     && bool_decide (file_type f0 = photo) in
  ∃ wS fS r f2 w3 f3,
    (if synchronize then sync_raw_jpg w f0 else (w, f0, no_sync_result))
    = (wS, fS, r)
    ∧ synchronize && failed r = false
    ∧ generate_names wS fS = (f2, true)
    ∧ move_file wS f2 = (w3, f3, true)
    ∧ move_sidecars (record_and_increment w3 f3 synchronize r) f3 = (w', f').
Proof.
  unfold process_file, place_file. cbv zeta.
  set (f0 := prepare_rpd_file w f).
  set (synchronize := Preferences.must_synchronize_raw_jpg (prefs w)
                      && bool_decide (file_type f0 = photo)).
  destruct (if synchronize then sync_raw_jpg w f0 else (w, f0, no_sync_result))
    as [[wS fS] r] eqn:Hsync.
  destruct (synchronize && failed r) eqn:Hfailed; [discriminate|].
  destruct (generate_names wS fS) as [f2 generated] eqn:Hgen.
  destruct generated; [|discriminate].
  destruct (move_file wS f2) as [[w3 f3] moved] eqn:Hmove.
  destruct moved; [|discriminate].
  destruct (move_sidecars _ f3) as [w4 f4] eqn:Hside.
  intros Heq. simplify_eq. exists wS, fS, r, f2, w3, f3. split_and!; done.
Qed.








(** ** The pref list of the name editor *)

Section PrefListTriples.

Import NameEditor.

Variables (TEXT SEPARATOR : string).
Variable subfolder : bool.
Variable string_to_pref_mapper : gmap string (string * string * string).
Variable pref_color : gmap string string.


Lemma parse_fragment_at_triples (count : nat) (st : PrefLists) (index : nat)
    (text_fragment : string) :
  triples st →
  triples (parse_fragment_at TEXT SEPARATOR count st index text_fragment).
Proof.
  unfold triples, parse_fragment_at. intros Hst.
  repeat case_match; cbn [fst snd]; rewrite ?length_app; simpl; lia.
Qed.

Lemma parse_fragments_triples (count index : nat)
    (text_fragments : list string) (st : PrefLists) :
  triples st →
  triples (parse_fragments TEXT SEPARATOR count index text_fragments st).
Proof.
  revert index st.
  induction text_fragments as [|fragment rest IH]; intros index st Hst;
    [done|].
  simpl. apply IH. by apply parse_fragment_at_triples.
Qed.

Lemma _parseTextFragment_triples (text_fragment : string) (st : PrefLists) :
  triples st →
  triples (_parseTextFragment TEXT SEPARATOR subfolder text_fragment st).
Proof.
  unfold _parseTextFragment. intros Hst. destruct subfolder.
  - by apply parse_fragments_triples.
  - unfold triples in *. cbn [fst snd]. rewrite !length_app. simpl. lia.
Qed.

Lemma add_pref_value_triples (text : string) (boundary : nat * nat)
    (st st' : PrefLists) :
  add_pref_value string_to_pref_mapper pref_color text boundary st = Some st' →
  triples st → triples st'.
Proof.
  unfold add_pref_value, _addColor, triples. destruct boundary as [start end_].
  intros Hadd Hst. repeat case_match; simplify_eq.
  cbn [fst snd]. rewrite !length_app. simpl. lia.
Qed.

Lemma add_pref_value_known (text : string) (boundary : nat * nat)
    (st : PrefLists) :
  known_boundary string_to_pref_mapper pref_color text boundary →
  is_Some (add_pref_value string_to_pref_mapper pref_color text boundary st).
Proof.
  unfold known_boundary, add_pref_value, _addColor.
  destruct boundary as [start end_]. cbn [fst snd].
  intros [[[[p0 p1] p2] ->] [color ->]]. by eexists.
Qed.

Lemma middle_pref_values_triples (text : string) (b : list (nat * nat))
    (st st' : PrefLists) :
  middle_pref_values TEXT SEPARATOR subfolder string_to_pref_mapper pref_color
    text b st = Some st' →
  triples st → triples st'.
Proof.
  revert st. induction b as [|boundary rest IH]; intros st Hmid Hst.
  - simpl in Hmid. by simplify_eq.
  - destruct rest as [|item rest'].
    + simpl in Hmid. by simplify_eq.
    + cbn [middle_pref_values] in Hmid.
      destruct (add_pref_value _ _ text boundary st) as [st1|] eqn:Hadd;
        [|done].
      apply IH in Hmid; [done|].
      apply _parseTextFragment_triples.
      by eapply add_pref_value_triples.
Qed.

Lemma middle_pref_values_known (text : string) (b : list (nat * nat))
    (st : PrefLists) :
  Forall (known_boundary string_to_pref_mapper pref_color text) b →
  is_Some (middle_pref_values TEXT SEPARATOR subfolder string_to_pref_mapper
             pref_color text b st).
Proof.
  revert st. induction b as [|boundary rest IH]; intros st Hknown.
  - by eexists.
  - destruct rest as [|item rest'].
    + by eexists.
    + cbn [middle_pref_values].
      apply Forall_cons in Hknown as [Hb Hrest].
      destruct (add_pref_value_known text boundary st Hb) as [st1 ->].
      by apply IH.
Qed.

(** What a run of [generatePrefList] leaves, for any text and any
    boundaries: when all boundaries are known to the editor, the run reaches
    its last line; and whenever it does, the lists are in step. *)
Lemma generatePrefList_spec (text : string) (b : list (nat * nat)) :
  (Forall (known_boundary string_to_pref_mapper pref_color text) b →
   is_Some (generatePrefList TEXT SEPARATOR subfolder string_to_pref_mapper
              pref_color text b))
  ∧ (∀ st, generatePrefList TEXT SEPARATOR subfolder string_to_pref_mapper
             pref_color text b = Some st → triples st).
Proof.
  unfold generatePrefList. cbv zeta.
  match goal with
  | |- context [middle_pref_values _ _ _ _ _ text b ?s] => set (st0 := s)
  end.
  assert (triples st0) as Hst0.
  { subst st0. destruct b as [|[start end_] rest]; [done|].
    case_match; [|done]. by apply _parseTextFragment_triples. }
  split.
  - intros Hknown.
    destruct (middle_pref_values_known text b st0 Hknown) as [st1 ->].
    destruct (last b) as [[start end_]|] eqn:Hlast.
    + assert (known_boundary string_to_pref_mapper pref_color text (start, end_)) as Hb.
      { apply last_Some in Hlast as [b' ->].
        rewrite Forall_app, Forall_singleton in Hknown. tauto. }
      destruct (add_pref_value_known text (start, end_) st1 Hb) as [st2 ->].
      by case_match.
    + by case_match.
  - intros st Hrun.
    destruct (middle_pref_values _ _ _ _ _ text b st0) as [st1|] eqn:Hmid;
      [|done].
    pose proof (middle_pref_values_triples _ _ _ _ Hmid Hst0) as Hst1.
    destruct (last b) as [[start end_]|].
    + destruct (add_pref_value _ _ text (start, end_) st1) as [st2|] eqn:Hadd;
        [|done].
      pose proof (add_pref_value_triples _ _ _ _ Hadd Hst1) as Hst2.
      case_match; simplify_eq; [|done].
      by apply _parseTextFragment_triples.
    + case_match; simplify_eq; [|done].
      by apply _parseTextFragment_triples.
Qed.

(** C10. Whenever [generatePrefList] reaches its last line, whatever the
    text and the boundaries, [user_pref_list] holds three strings for every
    entry of [user_pref_colors]: its length is divisible by 3 and
    [user_pref_colors] has a third as many entries. And the run does reach
    its last line when every boundary is a pref value known to the editor,
    as the boundaries the highlighter reports are. *)
Theorem generatePrefList_triples (text : string) (b : list (nat * nat)) :
  match generatePrefList TEXT SEPARATOR subfolder string_to_pref_mapper
          pref_color text b with
  | Some (user_pref_list, user_pref_colors) =>
      (3 | length user_pref_list)
      ∧ length user_pref_colors = length user_pref_list `div` 3
      ∧ length user_pref_list = 3 * length user_pref_colors
  | None => ¬ Forall (known_boundary string_to_pref_mapper pref_color text) b
  end.
Proof.
  destruct (generatePrefList_spec text b) as [Hsome Htriples].
  destruct (generatePrefList _ _ _ _ _ text b) as [[pl colors]|].
  - specialize (Htriples _ eq_refl). unfold triples in Htriples.
    cbn [fst snd] in Htriples. split_and!; [|by rewrite Htriples, Nat.mul_comm, Nat.div_mul|done].
    exists (length colors). lia.
  - intros Hknown. by destruct (Hsome Hknown).
Qed.

End PrefListTriples.

(** ** The boundaries the highlighter reports *)

Lemma substring_empty (a n : nat) : String.substring a n "" = "".
Proof. by destruct a, n. Qed.

Lemma substring_skip (a n : nat) (text rest : string) :
  NameEditor.skip a text = Some rest →
  String.substring a n text = String.substring 0 n rest.
Proof.
  revert text. induction a as [|a IH]; intros text Hskip.
  - simpl in Hskip. by simplify_eq.
  - destruct text as [|c text]; [done|]. simpl in Hskip. simpl. by apply IH.
Qed.

Lemma skip_add (a d : nat) (text rest rest' : string) :
  NameEditor.skip a text = Some rest → NameEditor.skip d rest = Some rest' →
  NameEditor.skip (a + d) text = Some rest'.
Proof.
  revert text. induction a as [|a IH]; intros text Ha Hd.
  - simpl in Ha. by simplify_eq.
  - destruct text as [|c text]; [done|]. simpl in *. by apply IH.
Qed.

Lemma find_at_found (sub rest : string) (i found : nat) :
  NameEditor.find_at sub rest i = Some found →
  ∃ d rest', found = i + d ∧ NameEditor.skip d rest = Some rest'
             ∧ String.prefix sub rest' = true.
Proof.
  revert i. induction rest as [|c rest IH]; intros i Hfind.
  - cbn [NameEditor.find_at] in Hfind.
    destruct (String.prefix sub "") eqn:Hp; [|done].
    simplify_eq. exists 0, "". split_and!; [lia|done|done].
  - cbn [NameEditor.find_at] in Hfind.
    destruct (String.prefix sub (String c rest)) eqn:Hp.
    + simplify_eq. exists 0, (String c rest). split_and!; [lia|done|done].
    + apply IH in Hfind as (d & rest' & -> & Hskip & Hpre).
      exists (S d), rest'. split_and!; [lia|done|done].
Qed.

(** A position [str.find] returns is one where the text reads [sub]. *)
Lemma find_found (text sub : string) (start found : nat) :
  NameEditor.find text sub start = Some found →
  String.substring found (String.length sub) text = sub.
Proof.
  unfold NameEditor.find.
  destruct (NameEditor.skip start text) as [rest|] eqn:Hskip; [|done].
  intros Hfind. apply find_at_found in Hfind as (d & rest' & -> & Hd & Hpre).
  rewrite (substring_skip _ _ _ _ (skip_add _ _ _ _ _ Hskip Hd)).
  by apply String.prefix_correct.
Qed.

Lemma find_all_loop_found (fuel : nat) (text pref_defn : string)
    (start index : nat) :
  index ∈ NameEditor.find_all_loop fuel text pref_defn start →
  String.substring index (String.length pref_defn) text = pref_defn.
Proof.
  revert start. induction fuel as [|fuel IH]; intros start Hin.
  - by apply elem_of_nil in Hin.
  - cbn [NameEditor.find_all_loop] in Hin.
    destruct (NameEditor.find text pref_defn start) as [found|] eqn:Hfind.
    + apply elem_of_cons in Hin as [->|Hin]; [by eapply find_found|by eapply IH].
    + by apply elem_of_nil in Hin.
Qed.

Lemma find_all_found (text pref_defn : string) (index : nat) :
  index ∈ NameEditor.find_all text pref_defn →
  String.substring index (String.length pref_defn) text = pref_defn.
Proof.
  unfold NameEditor.find_all. case_match.
  - intros Hin. by apply elem_of_nil in Hin.
  - apply find_all_loop_found.
Qed.

Lemma sorted_add_elem (x y : nat * nat) (l : list (nat * nat)) :
  y ∈ NameEditor.sorted_add x l → y = x ∨ y ∈ l.
Proof.
  induction l as [|z l IH]; simpl.
  - intros Hin. apply list_elem_of_singleton in Hin. by left.
  - case_match.
    + intros Hin. apply elem_of_cons in Hin as [->|Hin].
      * right. by left.
      * destruct (IH Hin) as [->|Hl]; [by left|]. right. by right.
    + intros Hin. apply elem_of_cons in Hin as [->|Hin]; [by left|by right].
Qed.

(** Every boundary of [highlightBlock] spans an occurrence of one of the
    expressions looked for. *)
Lemma highlightBlock_boundaries (highlightingRules : list string)
    (text : string) (boundary : nat * nat) :
  boundary ∈ NameEditor.highlightBlock highlightingRules text →
  ∃ expression, expression ∈ highlightingRules
    ∧ boundary.2 = boundary.1 + String.length expression - 1
    ∧ String.substring boundary.1 (String.length expression) text = expression.
Proof.
  unfold NameEditor.highlightBlock.
  assert (∀ rules acc,
            boundary ∈ foldl (λ boundaries expression,
                        foldl (λ boundaries index,
                                 NameEditor.sorted_add
                                   (index, index + String.length expression - 1)
                                   boundaries)
                              boundaries (NameEditor.find_all text expression))
                      acc rules →
            boundary ∈ acc
            ∨ ∃ expression, expression ∈ rules
                ∧ boundary.2 = boundary.1 + String.length expression - 1
                ∧ String.substring boundary.1 (String.length expression) text
                  = expression) as Hgen.
  { induction rules as [|expression rules IH]; intros acc Hin; [by left|].
    cbn [foldl] in Hin. apply IH in Hin as [Hin|(e & He & Hspan)].
    - assert (∀ indices acc0,
                (∀ index, index ∈ indices →
                   String.substring index (String.length expression) text
                   = expression) →
                boundary ∈ foldl (λ boundaries index,
                            NameEditor.sorted_add
                              (index, index + String.length expression - 1)
                              boundaries) acc0 indices →
                boundary ∈ acc0
                ∨ (boundary.2 = boundary.1 + String.length expression - 1
                   ∧ String.substring boundary.1 (String.length expression) text
                     = expression)) as Hinner.
      { induction indices as [|index indices IHi]; intros acc0 Hfound Hin0;
          [by left|].
        cbn [foldl] in Hin0.
        apply IHi in Hin0 as [Hin0|Hspan].
        - apply sorted_add_elem in Hin0 as [->|Hin0]; [|by left].
          right. cbn [fst snd]. split; [done|]. apply Hfound. by left.
        - by right.
        - intros i Hi. apply Hfound. by right. }
      apply Hinner in Hin as [Hin|Hspan].
      + by left.
      + right. exists expression. split; [by left|done].
      + intros index. apply find_all_found.
    - right. exists e. split; [by right|done]. }
  intros Hin. apply Hgen in Hin as [Hin|Hin]; [|done].
  by apply elem_of_nil in Hin.
Qed.

Lemma substring_cons_tail (a n : nat) (text : string) (c : ascii) (r : string) :
  String.substring a (S n) text = String c r →
  String.substring (S a) n text = r.
Proof.
  revert text. induction a as [|a IH]; intros text Hsub.
  - destruct text as [|c' text]; [done|]. simpl in Hsub. by simplify_eq.
  - destruct text as [|c' text]; [done|]. simpl in Hsub. by apply IH in Hsub.
Qed.

Lemma substring_app_head (a m : nat) (text k r : string) :
  String.substring a (String.length k + m) text = k +:+ r →
  String.substring a (String.length k) text = k.
Proof.
  revert a k. induction text as [|c text IH]; intros a k Hsub.
  - rewrite substring_empty in *. destruct k; [done|discriminate].
  - destruct a as [|a].
    + destruct k as [|c' k]; [done|].
      simpl in Hsub. injection Hsub as -> Hsub. simpl. f_equal. by apply IH.
    + simpl in *. by apply IH.
Qed.

(** When every pref value has a colour, the boundaries the highlighter
    reports for a text are all known to the editor. *)
Lemma highlighted_boundaries_known
    (string_to_pref_mapper : gmap string (string * string * string))
    (pref_color : gmap string string) (text : string) :
  (∀ pref, is_Some (string_to_pref_mapper !! pref) →
           is_Some (pref_color !! ("<" +:+ pref +:+ ">"))) →
  Forall (known_boundary string_to_pref_mapper pref_color text)
    (NameEditor.highlightBlock (NameEditor.pref_defns string_to_pref_mapper) text).
Proof.
  intros Hcolor. apply Forall_forall. intros [start end_] Hin.
  apply highlightBlock_boundaries in Hin as (expression & Hrule & Hend & Hsub).
  cbn [fst snd] in *.
  unfold NameEditor.pref_defns in Hrule.
  apply list_elem_of_fmap in Hrule as (pref & -> & Hpref).
  apply list_elem_of_fmap in Hpref as ([pref' value] & -> & Hpair).
  apply elem_of_map_to_list in Hpair. cbn [fst] in *.
  change ("<" +:+ pref' +:+ ">") with (String "<" (pref' +:+ ">")) in *.
  assert (String.length (String "<" (pref' +:+ ">")) = S (String.length pref' + 1))
    as Hlen by (simpl; by rewrite string_length_app).
  rewrite Hlen in Hend, Hsub.
  unfold known_boundary, NameEditor.slice. cbn [fst snd]. split.
  - replace (end_ - (start + 1)) with (String.length pref') by lia.
    replace (start + 1) with (S start) by lia.
    apply substring_cons_tail in Hsub. apply substring_app_head in Hsub.
    rewrite Hsub. eauto.
  - replace (end_ + 1 - start) with (S (String.length pref' + 1)) by lia.
    rewrite Hsub. apply Hcolor. eauto.
Qed.

(** On the boundaries the highlighter reports, [generatePrefList] reaches its
    last line. *)
Lemma generatePrefList_on_highlighted_text (TEXT SEPARATOR : string)
    (subfolder : bool)
    (string_to_pref_mapper : gmap string (string * string * string))
    (pref_color : gmap string string) (text : string) :
  (∀ pref, is_Some (string_to_pref_mapper !! pref) →
           is_Some (pref_color !! ("<" +:+ pref +:+ ">"))) →
  is_Some (NameEditor.generatePrefList TEXT SEPARATOR subfolder
             string_to_pref_mapper pref_color text
             (NameEditor.highlightBlock
                (NameEditor.pref_defns string_to_pref_mapper) text)).
Proof.
  intros Hcolor.
  apply (generatePrefList_spec TEXT SEPARATOR subfolder string_to_pref_mapper
           pref_color text).
  by apply highlighted_boundaries_known.
Qed.

(** * Further properties *)

(** ** The RAW+JPEG tracker, continued *)

(** X1. Recording a download under a name not seen before and querying the
    tracker: the same extension is answered as already downloaded, another
    extension as the matching pair, both with the sequence number recorded;
    another date time or other sub-seconds as a mismatch; and
    [ext_exif_date_time] gives back the extension, date time and
    sub-seconds. *)
Theorem add_download_then_matching_pair (photos : gmap string PhotoRecord)
    (name extension other : string) (date_time : Z) (sub_seconds : string)
    (sequence_number_used : Z) :
  photos !! name = None →
  other ≠ extension →
  let photos' := SyncRawJpeg.add_download photos name extension date_time
                   sub_seconds sequence_number_used in
  SyncRawJpeg.matching_pair photos' name extension date_time sub_seconds
  = {| match_status := error_already_downloaded;
       match_sequence_number := Some sequence_number_used |}
  ∧ SyncRawJpeg.matching_pair photos' name other date_time sub_seconds
    = {| match_status := matching_pair_status;
         match_sequence_number := Some sequence_number_used |}
  ∧ (∀ dt ss e, dt ≠ date_time ∨ ss ≠ sub_seconds →
       SyncRawJpeg.matching_pair photos' name e dt ss
       = {| match_status := error_datetime_mismatch;
            match_sequence_number := None |})
  ∧ SyncRawJpeg.ext_exif_date_time photos' name
    = Some (extension, date_time, sub_seconds).
Proof.
  intros Hnew Hother photos'. subst photos'.
  unfold SyncRawJpeg.add_download, SyncRawJpeg.matching_pair,
    SyncRawJpeg.ext_exif_date_time.
  rewrite Hnew, lookup_insert_eq. split_and!.
  - rewrite !bool_decide_eq_true_2 by done. cbn [andb].
    by rewrite bool_decide_eq_true_2 by (by left).
  - rewrite !bool_decide_eq_true_2 by done. cbn [andb].
    rewrite bool_decide_eq_false_2; [done|].
    by rewrite list_elem_of_singleton.
  - intros dt ss e [Hdt|Hss].
    + rewrite (bool_decide_eq_false_2 (date_time = dt)) by done. done.
    + rewrite (bool_decide_eq_false_2 (sub_seconds = ss)) by done.
      by rewrite andb_false_r.
  - done.
Qed.

(** X1 at the first download of [DSC1.CR2]. *)
Lemma add_download_then_matching_pair_witness :
  let photos' := SyncRawJpeg.add_download ∅ "DSC1" ".CR2" 1700000000 "42" 7 in
  (∅ : gmap string PhotoRecord) !! "DSC1" = None
  ∧ ".JPG" ≠ ".CR2"
  ∧ SyncRawJpeg.matching_pair photos' "DSC1" ".CR2" 1700000000 "42"
    = {| match_status := error_already_downloaded;
         match_sequence_number := Some 7%Z |}
  ∧ SyncRawJpeg.matching_pair photos' "DSC1" ".JPG" 1700000000 "42"
    = {| match_status := matching_pair_status;
         match_sequence_number := Some 7%Z |}.
Proof.
  cbv zeta. split; [reflexivity|]. split; [discriminate|].
  pose proof (add_download_then_matching_pair ∅ "DSC1" ".CR2" ".JPG"
                1700000000 "42" 7 eq_refl ltac:(discriminate)) as H.
  cbv zeta in H. destruct H as (H1 & H2 & _). by split.
Defined.

(** Recording a download under a name that is recorded already never
    changes the date time, the sub-seconds or the sequence number of the
    entry, and keeps its extensions in their order: the extension is added
    at the end when it is new, and nothing changes when it is not. Entries
    under other names are left alone. *)
Lemma add_download_first_writer_wins (photos : gmap string PhotoRecord)
    (name extension : string) (date_time : Z) (sub_seconds : string)
    (sequence_number_used : Z) (exts : list string) (dt : Z) (ss : string)
    (sq : Z) :
  photos !! name = Some (exts, dt, ss, sq) →
  let photos' := SyncRawJpeg.add_download photos name extension date_time
                   sub_seconds sequence_number_used in
  photos' !! name
  = Some (if bool_decide (extension ∈ exts) then exts else exts ++ [extension],
          dt, ss, sq)
  ∧ (extension ∈ exts → photos' = photos)
  ∧ (∀ other, other ≠ name → photos' !! other = photos !! other).
Proof.
  intros Hlook photos'. subst photos'. unfold SyncRawJpeg.add_download.
  rewrite Hlook. destruct (decide (extension ∈ exts)) as [Hin|Hin].
  - rewrite bool_decide_eq_false_2 by (intros Hc; by apply Hc).
    rewrite bool_decide_eq_true_2 by done. done.
  - rewrite bool_decide_eq_true_2 by done.
    rewrite bool_decide_eq_false_2 by done. split_and!.
    + apply lookup_insert_eq.
    + done.
    + intros other Hother. by apply lookup_insert_ne.
Qed.

(** [add_download_first_writer_wins] at the JPEG that follows a recorded RAW file, with another date. *)
Lemma add_download_first_writer_wins_witness :
  let photos := SyncRawJpeg.add_download ∅ "DSC1" ".CR2" 1700000000 "42" 7 in
  photos !! "DSC1" = Some ([".CR2"], 1700000000, "42", 7)%Z
  ∧ SyncRawJpeg.add_download photos "DSC1" ".JPG" 1800000000 "00" 9 !! "DSC1"
    = Some ([".CR2"; ".JPG"], 1700000000, "42", 7)%Z.
Proof.
  cbv zeta. split; [reflexivity|].
  pose proof (add_download_first_writer_wins
                (SyncRawJpeg.add_download ∅ "DSC1" ".CR2" 1700000000 "42" 7)
                "DSC1" ".JPG" 1800000000 "00" 9 [".CR2"] 1700000000 "42" 7
                eq_refl) as H.
  cbv zeta in H. destruct H as (H & _). exact H.
Defined.

Lemma add_download_well_formed (photos : gmap string PhotoRecord)
    (name extension : string) (date_time : Z) (sub_seconds : string)
    (sequence_number_used : Z) :
  well_formed_tracker photos →
  well_formed_tracker
    (SyncRawJpeg.add_download photos name extension date_time sub_seconds
       sequence_number_used).
Proof.
  unfold well_formed_tracker, SyncRawJpeg.add_download. intros Hwf.
  destruct (photos !! name) as [[[[exts dt] ss] sq]|] eqn:Hlook.
  - destruct (decide (extension ∈ exts)) as [Hin|Hin].
    + rewrite bool_decide_eq_false_2 by (intros Hc; by apply Hc). done.
    + rewrite bool_decide_eq_true_2 by done.
      intros n e d s q Hn. destruct (decide (n = name)) as [->|Hne].
      * rewrite lookup_insert_eq in Hn. simplify_eq.
        destruct (Hwf _ _ _ _ _ Hlook) as [Hnonempty Hnodup]. split.
        -- by destruct exts.
        -- apply NoDup_app. split_and!; [done| |apply NoDup_singleton].
           intros x Hx Hx'. apply list_elem_of_singleton in Hx'. by subst.
      * rewrite lookup_insert_ne in Hn by done. eauto.
  - intros n e d s q Hn. destruct (decide (n = name)) as [->|Hne].
    + rewrite lookup_insert_eq in Hn. simplify_eq.
      split; [done|apply NoDup_singleton].
    + rewrite lookup_insert_ne in Hn by done. eauto.
Qed.

Lemma record_downloads_well_formed (photos : gmap string PhotoRecord)
    (downloads : list (string * string * Z * string * Z)) :
  well_formed_tracker photos →
  well_formed_tracker (record_downloads photos downloads).
Proof.
  revert photos. induction downloads as [|d downloads IH]; intros photos Hwf;
    [done|].
  apply IH. by apply add_download_well_formed.
Qed.

Lemma record_downloads_entry (photos : gmap string PhotoRecord)
    (downloads : list (string * string * Z * string * Z)) (name : string) :
  match record_downloads photos downloads !! name with
  | Some (exts', dt', ss', sq') =>
      (∀ e, e ∈ exts' ↔
            (∃ exts dt ss sq, photos !! name = Some (exts, dt, ss, sq) ∧ e ∈ exts)
            ∨ ∃ dt ss sq, (name, e, dt, ss, sq) ∈ downloads)
      ∧ match photos !! name with
        | Some (exts, dt, ss, sq) =>
            (dt', ss', sq') = (dt, ss, sq) ∧ exts `prefix_of` exts'
        | None =>
            ∃ e, head (filter (λ d, d.1.1.1.1 = name) downloads)
                 = Some (name, e, dt', ss', sq') ∧ [e] `prefix_of` exts'
        end
  | None => photos !! name = None ∧ ∀ e dt ss sq, (name, e, dt, ss, sq) ∉ downloads
  end.
Proof.
  revert photos.
  induction downloads as [|[[[[n e0] dt0] ss0] sq0] downloads IH]; intros photos.
  - simpl. destruct (photos !! name) as [[[[exts dt] ss] sq]|] eqn:Hlook.
    + split; [|done]. intros e. split.
      * intros He. left. by eexists _, _, _, _.
      * intros [(?&?&?&?&?&?)|(?&?&?&Hin)]; [by simplify_eq|].
        by apply elem_of_nil in Hin.
    + split; [done|]. intros e dt ss sq Hin. by apply elem_of_nil in Hin.
  - cbn [record_downloads foldl fst snd].
    fold (record_downloads (SyncRawJpeg.add_download photos n e0 dt0 ss0 sq0)
            downloads).
    specialize (IH (SyncRawJpeg.add_download photos n e0 dt0 ss0 sq0)).
    destruct (decide (n = name)) as [->|Hne].
    + rewrite filter_cons_True by done. cbn [head].
      destruct (photos !! name) as [[[[exts dt] ss] sq]|] eqn:Hlook.
      * pose proof (add_download_first_writer_wins photos name e0 dt0 ss0 sq0
                      _ _ _ _ Hlook) as (Hnew & _ & _).
        cbv zeta in Hnew. rewrite Hnew in IH.
        destruct (record_downloads _ downloads !! name)
          as [[[[exts' dt'] ss'] sq']|]; [|by destruct IH].
        destruct IH as [Hexts [Hrest Hprefix]]. split.
        { intros e. rewrite Hexts. split.
          - intros [(x1 & x2 & x3 & x4 & Heq & He)|(d1 & d2 & d3 & Hin)].
            + simplify_eq. case_bool_decide.
              * left. by eexists _, _, _, _.
              * apply elem_of_app in He as [He|He];
                  [left; by eexists _, _, _, _|].
                apply list_elem_of_singleton in He as ->.
                right. eexists _, _, _. by left.
            + right. exists d1, d2, d3. by right.
          - intros [(x1 & x2 & x3 & x4 & Heq & He)|(d1 & d2 & d3 & Hin)].
            + simplify_eq. left. eexists _, _, _, _. split; [done|].
              case_bool_decide; [done|]. apply elem_of_app. by left.
            + apply elem_of_cons in Hin as [Heq|Hin].
              * simplify_eq. left. eexists _, _, _, _. split; [done|].
                case_bool_decide; [done|]. apply elem_of_app. right. by left.
              * right. eauto. }
        split; [done|].
        case_bool_decide; [done|].
        etrans; [|exact Hprefix]. by apply prefix_app_r.
      * assert (SyncRawJpeg.add_download photos name e0 dt0 ss0 sq0 !! name
                = Some ([e0], dt0, ss0, sq0)) as Hnew.
        { unfold SyncRawJpeg.add_download. rewrite Hlook.
          apply lookup_insert_eq. }
        rewrite Hnew in IH.
        destruct (record_downloads _ downloads !! name)
          as [[[[exts' dt'] ss'] sq']|]; [|by destruct IH].
        destruct IH as [Hexts [Hrest Hprefix]]. simplify_eq. split.
        { intros e. rewrite Hexts. split.
          - intros [(x1 & x2 & x3 & x4 & Heq & He)|(d1 & d2 & d3 & Hin)].
            + simplify_eq. apply list_elem_of_singleton in He as ->.
              right. eexists _, _, _. by left.
            + right. exists d1, d2, d3. by right.
          - intros [(x1 & x2 & x3 & x4 & Heq & He)|(d1 & d2 & d3 & Hin)];
              [done|].
            apply elem_of_cons in Hin as [Heq|Hin].
            + simplify_eq. left. eexists _, _, _, _. split; [done|]. by left.
            + right. eauto. }
        by exists e0.
    + rewrite filter_cons_False by done.
      assert (SyncRawJpeg.add_download photos n e0 dt0 ss0 sq0 !! name
              = photos !! name) as Hsame.
      { unfold SyncRawJpeg.add_download. repeat case_match; try done;
          by rewrite lookup_insert_ne. }
      rewrite Hsame in IH.
      destruct (record_downloads _ downloads !! name)
        as [[[[exts' dt'] ss'] sq']|].
      * destruct IH as [Hexts Hrest]. split; [|done].
        intros e. rewrite Hexts. split.
        { intros [?|(d1 & d2 & d3 & Hin)]; [by left|].
          right. exists d1, d2, d3. by right. }
        { intros [?|(d1 & d2 & d3 & Hin)]; [by left|].
          apply elem_of_cons in Hin as [Heq|Hin]; [by simplify_eq|].
          right. eauto. }
      * destruct IH as [Hnone Hnot]. split; [done|].
        intros e dt ss sq Hin.
        apply elem_of_cons in Hin as [Heq|Hin]; [by simplify_eq|].
        by eapply Hnot.
Qed.

(** X2. Whatever downloads are recorded one after the other in a tracker that
    starts empty, the entry of a name holds the date time, the sub-seconds
    and the sequence number of the first download recorded under that name,
    whose extension comes first; its extensions are those downloaded under
    the name, each once; [ext_exif_date_time] answers with the first
    download. A name is without entry exactly when nothing was downloaded
    under it. *)
Theorem record_downloads_from_empty
    (downloads : list (string * string * Z * string * Z)) (name : string) :
  match head (filter (λ d, d.1.1.1.1 = name) downloads) with
  | Some (_, first_ext, dt, ss, sq) =>
      ∃ exts,
        record_downloads ∅ downloads !! name = Some (first_ext :: exts, dt, ss, sq)
        ∧ NoDup (first_ext :: exts)
        ∧ (∀ e, e ∈ first_ext :: exts ↔ ∃ dt' ss' sq', (name, e, dt', ss', sq') ∈ downloads)
        ∧ SyncRawJpeg.ext_exif_date_time (record_downloads ∅ downloads) name
          = Some (first_ext, dt, ss)
  | None =>
      record_downloads ∅ downloads !! name = None
      ∧ SyncRawJpeg.ext_exif_date_time (record_downloads ∅ downloads) name = None
  end.
Proof.
  pose proof (record_downloads_entry ∅ downloads name) as Hentry.
  pose proof (record_downloads_well_formed ∅ downloads) as Hwf.
  unfold SyncRawJpeg.ext_exif_date_time.
  destruct (record_downloads ∅ downloads !! name)
    as [[[[exts' dt'] ss'] sq']|] eqn:Hlook.
  - rewrite lookup_empty in Hentry.
    destruct Hentry as (Hexts & e & Hhead & [l ->]).
    rewrite Hhead. exists l. cbn [app]. split_and!; try done.
    + eapply Hwf; [|done]. intros ????? Hc. by rewrite lookup_empty in Hc.
    + intros x. rewrite Hexts. split.
      * intros [(?&?&?&?&Hc&_)|?]; [done|done].
      * intros ?. by right.
  - destruct Hentry as [_ Hnot].
    destruct (head (filter _ downloads)) as [[[[[n e] dt] ss] sq]|] eqn:Hhead;
      [|done].
    apply head_Some_elem_of, list_elem_of_filter in Hhead as [Hn Hin].
    cbn [fst] in Hn. subst n. by apply Hnot in Hin.
Qed.

(** ** Moving the primary file *)

#[local] Set Warnings "-clear-no-such-hyp".

Lemma makedirs_files (fs0 : FileSystem) (p : string) :
  fs_files (Os.makedirs fs0 p).1 = fs_files fs0.
Proof. unfold Os.makedirs. by repeat case_match. Qed.

Lemma makedirs_exists_before (fs0 : FileSystem) (p q : string) :
  Os.path_exists (Os.makedirs fs0 p).1 q = false →
  Os.path_exists fs0 q = false.
Proof.
  intros H. destruct (Os.path_exists fs0 q) eqn:Hq; [|done].
  by rewrite (makedirs_keeps_existing _ p _ Hq) in H.
Qed.

Lemma rename_success_inv (fs0 : FileSystem) (src dst : string) fs' :
  Os.rename fs0 src dst = (fs', None) →
  src ∈ fs_files fs0
  ∧ fs_files fs' = {[dst]} ∪ (fs_files fs0 ∖ {[src]})
  ∧ fs_dirs fs' = fs_dirs fs0
  ∧ fs_log fs' = fs_log fs0 ++ [OpRename src dst].
Proof.
  unfold Os.rename. repeat case_match; intros; simplify_eq; simpl.
  split_and!; try done.
  match goal with H : bool_decide (src ∉ _) = false |- _ =>
    apply bool_decide_eq_false in H; by apply dec_stable in H end.
Qed.

(** What a [move_file] that returns [True] has done. *)
Lemma move_file_true_inv (w : Worker) (f : RPDFile) w' f' :
  move_file w f = (w', f', true) →
  Os.path_exists (fs w) (destination f) = false
  ∧ temp_full_file_name f ∈ fs_files (fs w)
  ∧ destination f ∈ fs_files (fs w')
  ∧ (temp_full_file_name f ≠ destination f →
     temp_full_file_name f ∉ fs_files (fs w'))
  ∧ download_full_file_name f' = destination f
  ∧ download_name f' = download_name f
  ∧ problem f' = problem f
  ∧ status f' = (if bool_decide (status f = downloaded_with_warning)
                 then downloaded_with_warning else downloaded)
  ∧ duplicate_files w' = duplicate_files w.
Proof.
  unfold move_file, destination. cbv zeta.
  cbn [download_path set_download_path set_download_full_file_name
       set_download_full_base_name download_full_file_name download_name
       download_folder download_subfolder temp_full_file_name].
  set (path := PosixPath.join (download_folder f) (download_subfolder f)).
  set (dst := PosixPath.join path (download_name f)).
  set (w1 := if negb (Os.path_isdir (fs w) path) then _ else w).
  assert (fs_files (fs w1) = fs_files (fs w)
          ∧ duplicate_files w1 = duplicate_files w
          ∧ (Os.path_exists (fs w1) dst = false →
             Os.path_exists (fs w) dst = false)) as (Hfiles & Hdups & Hbefore).
  { subst w1. destruct (negb _); [|done]. cbn [fs set_fs duplicate_files].
    split_and!; [apply makedirs_files|done|apply makedirs_exists_before]. }
  destruct (Os.path_exists (fs w1) dst) eqn:Hex.
  - destruct (download_file_exists w1 _) as [f1 wanted].
    destruct wanted; [|intros; simplify_eq].
    destruct (add_unique_identifier w1 f1) as [[w2 f2] ok]. intros; simplify_eq.
  - destruct (Os.rename (fs w1) (temp_full_file_name f) dst)
      as [fs' [inst|]] eqn:Hren.
    + destruct (bool_decide (inst = EEXIST)).
      * destruct (download_file_exists _ _) as [f1 wanted].
        destruct wanted; [|intros; simplify_eq].
        destruct (add_unique_identifier _ f1) as [[w2 f2] ok].
        intros; simplify_eq.
      * intros; simplify_eq.
    + apply rename_success_inv in Hren as (Hsrc & Hnew & _ & _).
      intros Heq. simplify_eq. cbn [fs set_fs duplicate_files].
      cbn [status set_download_full_base_name set_download_full_file_name
           set_download_path].
      destruct (decide (status f = downloaded_with_warning)) as [Hs|Hs].
      * rewrite (bool_decide_eq_false_2 (status f ≠ _))
          by (intros Hc; by apply Hc).
        rewrite (bool_decide_eq_true_2 _ Hs). rewrite Hnew, <- Hfiles.
        split_and!; first [done | by apply Hbefore | set_solver].
      * rewrite (bool_decide_eq_true_2 (status f ≠ _)) by done.
        rewrite (bool_decide_eq_false_2 _ Hs). rewrite Hnew, <- Hfiles.
        split_and!; first [done | by apply Hbefore | set_solver].
Qed.

(** X3. When [move_file] returns [True], the destination (download folder,
    subfolder and name joined) did not exist before; the temporary file did,
    and it is now at the destination and, unless it is the same path, no
    longer where it was. The file carries that destination, no problem was
    added, its status is [downloaded] unless it already was
    [downloaded_with_warning], and no duplicate identifier was handed out. *)
Theorem move_file_succeeded (w : Worker) (f : RPDFile) w' f' :
  move_file w f = (w', f', true) →
  Os.path_exists (fs w) (destination f) = false
  ∧ temp_full_file_name f ∈ fs_files (fs w)
  ∧ destination f ∈ fs_files (fs w')
  ∧ (temp_full_file_name f ≠ destination f →
     temp_full_file_name f ∉ fs_files (fs w'))
  ∧ download_full_file_name f' = destination f
  ∧ download_name f' = download_name f
  ∧ problem f' = problem f
  ∧ status f' = (if bool_decide (status f = downloaded_with_warning)
                 then downloaded_with_warning else downloaded)
  ∧ duplicate_files w' = duplicate_files w.
Proof. apply move_file_true_inv. Qed.

(** X3 at a file whose destination is free. *)
Lemma move_file_succeeded_witness :
  ∃ w' f',
    move_file (sample_worker sample_prefs sample_fs) named_file = (w', f', true)
    ∧ Os.path_exists sample_fs (destination named_file) = false
    ∧ temp_full_file_name named_file ∈ fs_files sample_fs
    ∧ destination named_file ∈ fs_files (fs w')
    ∧ (temp_full_file_name named_file ≠ destination named_file →
       temp_full_file_name named_file ∉ fs_files (fs w'))
    ∧ download_full_file_name f' = destination named_file
    ∧ download_name f' = download_name named_file
    ∧ problem f' = problem named_file
    ∧ status f' = (if bool_decide (status named_file = downloaded_with_warning)
                   then downloaded_with_warning else downloaded)
    ∧ duplicate_files w' = ∅.
Proof.
  do 2 eexists. split; [vm_compute; reflexivity|].
  apply (move_file_succeeded (sample_worker sample_prefs sample_fs) named_file).
  vm_compute. reflexivity.
Defined.

(** X4. Under a conflict policy other than add-identifier, a destination that
    exists already makes [move_file] return [False] without attempting any
    rename: the files are those there were, the file is marked
    [download_failed] with the problem [FILE_ALREADY_EXISTS_NO_DOWNLOAD]
    added last, and no duplicate identifier is handed out. *)
Theorem move_file_skips_existing (w : Worker) (f : RPDFile) :
  Preferences.conflict_resolution (prefs w) ≠ add_identifier →
  Os.path_exists (fs w) (destination f) = true →
  let '(w', f', move_succeeded) := move_file w f in
  move_succeeded = false
  ∧ status f' = download_failed
  ∧ problem f' = problem f ++ [FILE_ALREADY_EXISTS_NO_DOWNLOAD]
  ∧ fs_files (fs w') = fs_files (fs w)
  ∧ (∀ src dst, OpRename src dst ∈ fs_log (fs w') →
                OpRename src dst ∈ fs_log (fs w))
  ∧ duplicate_files w' = duplicate_files w.
Proof.
  intros Hpolicy Hex. unfold move_file, destination in *. cbv zeta.
  cbn [download_path set_download_path set_download_full_file_name
       set_download_full_base_name download_full_file_name download_name
       download_folder download_subfolder temp_full_file_name].
  set (path := PosixPath.join (download_folder f) (download_subfolder f)) in *.
  set (dst := PosixPath.join path (download_name f)) in *.
  set (w1 := if negb (Os.path_isdir (fs w) path) then _ else w).
  assert (fs_files (fs w1) = fs_files (fs w)
          ∧ duplicate_files w1 = duplicate_files w
          ∧ prefs w1 = prefs w
          ∧ Os.path_exists (fs w1) dst = true
          ∧ (∀ src d, OpRename src d ∈ fs_log (fs w1) →
                      OpRename src d ∈ fs_log (fs w)))
    as (Hfiles & Hdups & Hprefs & Hex1 & Hlog).
  { subst w1. destruct (negb _); [|done]. cbn [fs set_fs duplicate_files prefs].
    split_and!; [apply makedirs_files|done|done|by apply makedirs_keeps_existing|].
    intros src d. unfold Os.makedirs, Os.logged.
    repeat case_match; cbn [fst fs_log]; rewrite elem_of_app;
      intros [Hin|Hin]; try done; by apply list_elem_of_singleton in Hin. }
  rewrite Hex1. unfold download_file_exists. rewrite Hprefs.
  rewrite (bool_decide_eq_false_2 _ Hpolicy).
  split_and!; done.
Qed.

(** X4 at a destination that is taken, under the skip policy. *)
Lemma move_file_skips_existing_witness :
  let w := sample_worker skip_prefs taken_fs in
  Preferences.conflict_resolution (prefs w) ≠ add_identifier
  ∧ Os.path_exists (fs w) (destination named_file) = true
  ∧ let '(w', f', move_succeeded) := move_file w named_file in
    move_succeeded = false
    ∧ status f' = download_failed
    ∧ problem f' = problem named_file ++ [FILE_ALREADY_EXISTS_NO_DOWNLOAD]
    ∧ fs_files (fs w') = fs_files (fs w)
    ∧ (∀ src dst, OpRename src dst ∈ fs_log (fs w') →
                  OpRename src dst ∈ fs_log (fs w))
    ∧ duplicate_files w' = duplicate_files w.
Proof.
  cbv zeta. split; [discriminate|]. split; [vm_compute; reflexivity|].
  apply (move_file_skips_existing (sample_worker skip_prefs taken_fs) named_file).
  - discriminate.
  - vm_compute. reflexivity.
Defined.

(** ** What [add_unique_identifier] hands out *)

Lemma add_unique_identifier_loop_counter (fuel : nat) (name : string * string)
    (full_name : string) (w : Worker) (f : RPDFile) w' f' ok :
  add_unique_identifier_loop fuel name full_name w f = Some (w', f', ok) →
  ∃ c, duplicate_files w' = <[full_name := c]> (duplicate_files w).
Proof.
  revert w f. induction fuel as [|fuel IH]; intros w f Hloop; [discriminate|].
  rewrite add_unique_identifier_loop_step in Hloop. cbv zeta in Hloop.
  repeat case_match; simplify_eq;
    try (apply IH in Hloop as [c Hc]; exists c; rewrite Hc;
         cbn [duplicate_files set_duplicate_files set_fs];
         by rewrite insert_insert_eq);
    by eexists.
Qed.

(** X5. [add_unique_identifier] advances the counter kept for the destination
    it was called for, to the identifier it used, and leaves the counters of
    all other destinations alone. The name it leaves on the file is the stem
    of the generated name, [_], that identifier and the extension, in the
    folder of the destination; a path of that name did not exist. When it
    returns [True] the problem added last names the same identifier. *)
Theorem add_unique_identifier_identifier (w : Worker) (f : RPDFile) :
  let '(w', f', ok) := add_unique_identifier w f in
  let name := PosixPath.splitext (download_name f) in
  ∃ n : Z,
    duplicate_files w' = <[download_full_file_name f := n]> (duplicate_files w)
    ∧ (default 0 (duplicate_files w !! download_full_file_name f) < n)%Z
    ∧ download_name f' = name.1 +:+ ("_" +:+ pretty n) +:+ name.2
    ∧ download_full_file_name f'
      = PosixPath.join (download_path f) (download_name f')
    ∧ Os.path_exists (fs w) (download_full_file_name f') = false
    ∧ (ok = true →
       status f' = downloaded_with_warning
       ∧ problem f' = problem f ++ [UNIQUE_IDENTIFIER_ADDED ("_" +:+ pretty n)]).
Proof.
  unfold add_unique_identifier.
  destruct (add_unique_identifier_loop_finishes
              (PosixPath.splitext (download_name f))
              (download_full_file_name f) w f) as [[[w' f'] ok] Hloop].
  rewrite Hloop. cbv zeta.
  pose proof (add_unique_identifier_loop_counter _ _ _ _ _ _ _ _ Hloop)
    as [c' Hdups].
  pose proof (add_unique_identifier_loop_spec _ _ _ _ _ _ _ _ Hloop)
    as (c & Hc & Hrange & Hname & Hfull & Hfree & _ & Hok).
  cbv zeta in Hrange.
  rewrite Hdups, lookup_insert_eq in Hc. simplify_eq.
  exists c. split_and!; try done.
  - lia.
  - rewrite Hfull, Hname. done.
  - by rewrite Hfull.
  - intros ->. by destruct Hok as (_ & ? & ?).
Qed.

(** ** What the worker leaves in place *)






Lemma load_metadata_temps (f : RPDFile) :
  temporary_files (load_metadata f).1 = temporary_files f.
Proof. unfold load_metadata. by repeat case_match. Qed.

Lemma _generate_name_temps
    (generator : RPDFile → option string * list Problem) (f : RPDFile) :
  temporary_files (_generate_name generator f).1 = temporary_files f.
Proof.
  unfold _generate_name.
  pose proof (load_metadata_temps f) as Hload.
  destruct (load_metadata f) as [f1 ok]. cbn [fst] in Hload.
  destruct ok; [|done]. by destruct (generator f1).
Qed.

Lemma generate_names_temps `{NameGenerators} (w : Worker) (f : RPDFile) :
  temporary_files (generate_names w f).1 = temporary_files f.
Proof.
  assert (temporary_files (generate_subfolder f) = temporary_files f) as Hsub.
  { unfold generate_subfolder.
    match goal with |- context [_generate_name ?g f] =>
      pose proof (_generate_name_temps g f) as Hg;
      destruct (_generate_name g f) end. done. }
  assert (∀ f0, temporary_files (generate_name (sequences w) f0)
                = temporary_files f0) as Hname.
  { intros f0. unfold generate_name.
    match goal with |- context [_generate_name ?g f0] =>
      pose proof (_generate_name_temps g f0) as Hg;
      destruct (_generate_name g f0) end. done. }
  assert (∀ f0, temporary_files (check_for_fatal_name_generation_errors f0).1
                = temporary_files f0) as Hcheck.
  { intros f0. unfold check_for_fatal_name_generation_errors. by case_match. }
  unfold generate_names. rewrite Hcheck.
  destruct (bool_decide (download_subfolder (generate_subfolder f) ≠ ""));
    [|done].
  destruct (has_problem (generate_name (sequences w) (generate_subfolder f))).
  - change (temporary_files (set_status ?s ?g)) with (temporary_files g).
    by rewrite Hname.
  - by rewrite Hname.
Qed.

Lemma sync_raw_jpg_temps (w : Worker) (f : RPDFile) :
  temporary_files (sync_raw_jpg w f).1.2 = temporary_files f.
Proof.
  unfold sync_raw_jpg.
  pose proof (load_metadata_temps f) as Hload.
  destruct (PosixPath.splitext (name f)) as [base ext].
  destruct (load_metadata f) as [f1 ok]. cbn [fst] in Hload.
  unfold check_for_fatal_name_generation_errors, same_name_different_exif.
  repeat case_match; simplify_eq; cbn [fst snd];
    unfold temporary_files; simpl; congruence.
Qed.

Lemma add_unique_identifier_loop_temps (fuel : nat) (name : string * string)
    (full_name : string) (w : Worker) (f : RPDFile) w' f' ok :
  add_unique_identifier_loop fuel name full_name w f = Some (w', f', ok) →
  temporary_files f' = temporary_files f.
Proof.
  revert w f. induction fuel as [|fuel IH]; intros w f Hloop; [discriminate|].
  rewrite add_unique_identifier_loop_step in Hloop. cbv zeta in Hloop.
  repeat case_match; simplify_eq; try (apply IH in Hloop; rewrite Hloop);
    unfold notify_download_failure_file_error, notify_file_already_exists;
    repeat case_match; reflexivity.
Qed.

Lemma move_file_temps (w : Worker) (f : RPDFile) :
  temporary_files (move_file w f).1.2 = temporary_files f.
Proof.
  assert (∀ w0 f0, temporary_files (add_unique_identifier w0 f0).1.2
                   = temporary_files f0) as Hadd.
  { intros w0 f0. unfold add_unique_identifier.
    destruct (add_unique_identifier_loop _ _ _ w0 f0) as [[[w1 f1] ok]|] eqn:Hl;
      [|done].
    by apply add_unique_identifier_loop_temps in Hl. }
  unfold move_file, download_file_exists, notify_file_already_exists,
    notify_download_failure_file_error.
  repeat case_match; simplify_eq; cbn [fst snd];
    repeat match goal with
           | Hx : add_unique_identifier ?w0 ?f0 = _ |- _ =>
               specialize (Hadd w0 f0); rewrite Hx in Hadd; cbn [fst snd] in Hadd;
               clear Hx
           end;
    try done; by rewrite Hadd.
Qed.


Lemma prepare_rpd_file_temps (w : Worker) (f : RPDFile) :
  temporary_files (prepare_rpd_file w f) = temporary_files f.
Proof. unfold prepare_rpd_file. by case_match. Qed.





(** ** Outcomes of [process_file] *)

Lemma generate_name_problems `{NameGenerators} (f : RPDFile)
    (sequences : Sequences.t) :
  problem f `prefix_of` problem (generate_name sequences f)
  ∧ status (generate_name sequences f) = status f.
Proof.
  unfold generate_name, _generate_name, load_metadata, add_problem.
  repeat case_match; simplify_eq; cbn [problem status set_download_name
    set_problem set_metadata];
    split; try done; try (by apply prefix_app_r);
    try (etrans; [|by apply prefix_app_r]; by apply prefix_app_r).
Qed.

Lemma generate_subfolder_problems `{NameGenerators} (f : RPDFile) :
  problem f `prefix_of` problem (generate_subfolder f)
  ∧ status (generate_subfolder f) = status f.
Proof.
  unfold generate_subfolder, _generate_name, load_metadata, add_problem.
  repeat case_match; simplify_eq; cbn [problem status set_download_subfolder
    set_problem set_metadata];
    split; try done; try (by apply prefix_app_r);
    try (etrans; [|by apply prefix_app_r]; by apply prefix_app_r).
Qed.

(** Names generated without a fatal error: the problems recorded before are
    kept, and a file with a problem has the status
    [downloaded_with_warning]. *)
Lemma generate_names_true `{NameGenerators} (w : Worker) (f f2 : RPDFile) :
  generate_names w f = (f2, true) →
  problem f `prefix_of` problem f2
  ∧ (problem f2 ≠ [] → status f2 = downloaded_with_warning)
  ∧ (problem f2 = [] → status f2 = status f).
Proof.
  unfold generate_names. intros Hgen.
  destruct (generate_subfolder_problems f) as [Hp1 Hs1].
  set (f1 := generate_subfolder f) in *.
  destruct (bool_decide (download_subfolder f1 ≠ "")) eqn:Hsub.
  - destruct (generate_name_problems f1 (sequences w)) as [Hp2 Hs2].
    set (fn := generate_name (sequences w) f1) in *.
    unfold has_problem in Hgen.
    destruct (decide (problem fn = [])) as [Hnil|Hsome].
    + rewrite bool_decide_eq_false_2 in Hgen by (intros Hc; by apply Hc).
      pose proof (check_for_fatal_name_generation_errors_spec fn) as Hcheck.
      rewrite Hgen in Hcheck. destruct Hcheck as (_&_&_&_&Heq).
      rewrite (Heq eq_refl). split_and!; [by etrans|done|congruence].
    + rewrite bool_decide_eq_true_2 in Hgen by done.
      pose proof (check_for_fatal_name_generation_errors_spec
                    (set_status downloaded_with_warning fn)) as Hcheck.
      rewrite Hgen in Hcheck. destruct Hcheck as (_&_&_&_&Heq).
      rewrite (Heq eq_refl). split_and!; [by etrans|done|done].
  - pose proof (check_for_fatal_name_generation_errors_spec f1) as Hcheck.
    rewrite Hgen in Hcheck. destruct Hcheck as (_&_&Hblank&_&_).
    apply bool_decide_eq_false in Hsub. apply dec_stable in Hsub.
    assert (true = false) by (apply Hblank; by left). done.
Qed.

(** From the names generated to the end of a successful [process_file]. *)
Lemma placement_tail `{NameGenerators} (wS : Worker) (fS f2 f3 f' : RPDFile)
    (w3 w4 w' : Worker) :
  generate_names wS fS = (f2, true) →
  move_file wS f2 = (w3, f3, true) →
  move_sidecars w4 f3 = (w', f') →
  problem fS `prefix_of` problem f'
  ∧ (problem f' ≠ [] → status f' = downloaded_with_warning)
  ∧ (status f' = downloaded ∨ status f' = downloaded_with_warning)
  ∧ download_full_file_name f' = destination f2.
Proof.
  intros Hgen Hmove Hside.
  apply generate_names_true in Hgen as (Hprefix & Hwarn & _).
  apply move_file_true_inv in Hmove as (_&_&_&_&Hdst&_&Hproblem&Hstatus&_).
  assert (status f' = status f3 ∧ problem f' = problem f3
          ∧ download_full_file_name f' = download_full_file_name f3)
    as (Hs & Hp & Hd).
  { apply (f_equal snd) in Hside. cbn [snd] in Hside. subst f'.
    unfold move_sidecars, move_thm_file, move_audio_file, _move_associate_file.
    repeat case_match; simplify_eq; done. }
  rewrite Hs, Hp, Hd, Hproblem, Hstatus, Hdst. split_and!; try done.
  - intros Hne. by rewrite (bool_decide_eq_true_2 _ (Hwarn Hne)).
  - case_bool_decide; auto.
Qed.

(** X7. A file that [process_file] reports as placed has the status
    [downloaded] or [downloaded_with_warning], and the latter whenever it
    carries a problem; the problems it arrived with are still there, in
    front. *)
Theorem placed_file_status `{NameGenerators} (w : Worker) (f : RPDFile)
    (download_count : Z) w' f' :
  process_file w f download_count = (w', f', true) →
  (status f' = downloaded ∨ status f' = downloaded_with_warning)
  ∧ (problem f' ≠ [] → status f' = downloaded_with_warning)
  ∧ problem f `prefix_of` problem f'.
Proof.
  intros Hprocess. apply process_file_true_inv in Hprocess.
  cbv zeta in Hprocess.
  destruct Hprocess as (wS & fS & r & f2 & w3 & f3 & Hs & _ & Hgen & Hmove & Hside).
  destruct (placement_tail _ _ _ _ _ _ _ _ Hgen Hmove Hside)
    as (Hprefix & Hwarn & Hstatus & _).
  split_and!; try done.
  etrans; [|exact Hprefix].
  assert (problem (prepare_rpd_file w f) = problem f) as <-.
  { unfold prepare_rpd_file. by destruct (bool_decide (file_type f = photo)). }
  destruct (Preferences.must_synchronize_raw_jpg (prefs w)
            && bool_decide (file_type (prepare_rpd_file w f) = photo)).
  - apply (f_equal (λ x, x.1.2)) in Hs. cbn [fst snd] in Hs. subst fS.
    unfold sync_raw_jpg, load_metadata, check_for_fatal_name_generation_errors,
      same_name_different_exif, add_problem.
    repeat case_match; simplify_eq; cbn [fst snd problem set_status set_problem
      set_metadata];
      try done; try (by apply prefix_app_r);
      try (etrans; [|by apply prefix_app_r]; by apply prefix_app_r).
  - by simplify_eq.
Qed.

(** X7 at a photo placed without a problem. *)
Lemma placed_file_status_witness :
  ∃ w' f',
    @process_file text_generators (sample_worker sample_prefs sample_fs)
      (sample_file "DSC1.JPG" "/tmp/a" (Some sample_exif)) 1 = (w', f', true)
    ∧ (status f' = downloaded ∨ status f' = downloaded_with_warning)
    ∧ (problem f' ≠ [] → status f' = downloaded_with_warning)
    ∧ [] `prefix_of` problem f'.
Proof.
  do 2 eexists. split; [vm_compute; reflexivity|].
  eapply (@placed_file_status text_generators
           (sample_worker sample_prefs sample_fs)
           (sample_file "DSC1.JPG" "/tmp/a" (Some sample_exif)) 1).
  vm_compute. reflexivity.
Defined.

(** ** Photos refused or warned about by the RAW+JPEG synchronisation *)








(** ** A photo whose capture time differs from its counterpart's *)



(** ** The temporary file of a request that fails *)




(** ** Counting the files placed *)

Lemma process_file_unsynchronized `{NameGenerators} (w : Worker) (f : RPDFile)
    (download_count : Z) w' f' moved :
  Preferences.must_synchronize_raw_jpg (prefs w) = false →
  process_file w f download_count = (w', f', moved) →
  let k := (if moved then 1 else 0)%Z in
  Preferences.must_synchronize_raw_jpg (prefs w') = false
  ∧ Preferences.any_pref_uses_session_sequence_no (prefs w')
    = Preferences.any_pref_uses_session_sequence_no (prefs w)
  ∧ Preferences.any_pref_uses_sequence_letter_value (prefs w')
    = Preferences.any_pref_uses_sequence_letter_value (prefs w)
  ∧ Preferences.any_pref_uses_stored_sequence_no (prefs w')
    = Preferences.any_pref_uses_stored_sequence_no (prefs w)
  ∧ DownloadsTodayTracker.downloads_today (downloads_today_tracker w')
    = ((DownloadsTodayTracker.downloads_today (downloads_today_tracker w)).1,
       ((DownloadsTodayTracker.downloads_today (downloads_today_tracker w)).2 + k)%Z)
  ∧ advanced_when (Preferences.any_pref_uses_stored_sequence_no (prefs w)) k
      (Preferences.stored_sequence_no (prefs w))
      (Preferences.stored_sequence_no (prefs w'))
  ∧ advanced_when (Preferences.any_pref_uses_session_sequence_no (prefs w)) k
      (Sequences.session_sequence_no (sequences w))
      (Sequences.session_sequence_no (sequences w'))
  ∧ advanced_when (Preferences.any_pref_uses_sequence_letter_value (prefs w)) k
      (Sequences.sequence_letter (sequences w))
      (Sequences.sequence_letter (sequences w'))
  ∧ sync_raw_jpeg w' = sync_raw_jpeg w.
Proof.
  intros Hsync. unfold process_file, place_file. cbv zeta.
  rewrite Hsync. cbn [andb no_sync_result failed].
  set (f0 := prepare_rpd_file w f).
  assert (∀ b : bool, advanced_when b 0 (Preferences.stored_sequence_no (prefs w))
                        (Preferences.stored_sequence_no (prefs w))) as Hst
    by (intros []; unfold advanced_when; lia).
  assert (∀ b : bool, advanced_when b 0 (Sequences.session_sequence_no (sequences w))
                        (Sequences.session_sequence_no (sequences w))) as Hse
    by (intros []; unfold advanced_when; lia).
  assert (∀ b : bool, advanced_when b 0 (Sequences.sequence_letter (sequences w))
                        (Sequences.sequence_letter (sequences w))) as Hle
    by (intros []; unfold advanced_when; lia).
  assert (∀ p : Z * Z, p = (p.1, (p.2 + 0)%Z)) as Hpair
    by (intros [a b]; cbn [fst snd]; f_equal; lia).
  destruct (generate_names w f0) as [f2 generated].
  destruct generated.
  - pose proof (move_file_keeps w f2) as Hk.
    destruct (move_file w f2) as [[w3 f3] moved3]. cbn [fst snd] in Hk.
    destruct Hk as (Hp3 & Hs3 & Ht3 & Hr3).
    destruct moved3.
    + pose proof (move_sidecars_keeps
                    (record_and_increment w3 f3 false no_sync_result) f3) as Hk.
      destruct (move_sidecars _ f3) as [w5 f5]. cbn [fst snd] in Hk.
      destruct Hk as (Hp5 & Hs5 & Ht5 & Hr5).
      intros Heq. simplify_eq. cbv zeta.
      rewrite Hp5, Hs5, Ht5, Hr5. clear Hp5 Hs5 Ht5 Hr5.
      unfold record_and_increment, advanced_when. cbn [negb orb andb].
      rewrite ?Hp3.
      destruct (Preferences.any_pref_uses_session_sequence_no (prefs w)) eqn:Hu1,
               (Preferences.any_pref_uses_sequence_letter_value (prefs w)) eqn:Hu2,
               (Preferences.any_pref_uses_stored_sequence_no (prefs w)) eqn:Hu3;
        simpl; rewrite ?Hp3, ?Hs3, ?Ht3, ?Hr3, ?Hu3; simpl;
        rewrite ?Hp3, ?Hs3, ?Ht3, ?Hr3, ?Hu3; simpl;
        split_and!; try done; lia.
    + intros Heq. simplify_eq. cbv zeta.
      rewrite Hp3, Hs3, Ht3, Hr3. split_and!; auto.
  - intros Heq. simplify_eq. cbv zeta. split_and!; auto.
Qed.

Lemma file_request_unsynchronized `{NameGenerators} (w : Worker) (f : RPDFile)
    (download_count : Z) (download_succeeded : bool) :
  Preferences.must_synchronize_raw_jpg (prefs w) = false →
  ∃ w' f' moved,
    run_step (Started w) (file_downloaded f download_count download_succeeded)
    = Some (Started w', Some (FileResults moved f' download_count))
    ∧ let k := (if moved then 1 else 0)%Z in
      Preferences.must_synchronize_raw_jpg (prefs w') = false
      ∧ Preferences.any_pref_uses_session_sequence_no (prefs w')
        = Preferences.any_pref_uses_session_sequence_no (prefs w)
      ∧ Preferences.any_pref_uses_sequence_letter_value (prefs w')
        = Preferences.any_pref_uses_sequence_letter_value (prefs w)
      ∧ Preferences.any_pref_uses_stored_sequence_no (prefs w')
        = Preferences.any_pref_uses_stored_sequence_no (prefs w)
      ∧ DownloadsTodayTracker.downloads_today (downloads_today_tracker w')
        = ((DownloadsTodayTracker.downloads_today (downloads_today_tracker w)).1,
           ((DownloadsTodayTracker.downloads_today (downloads_today_tracker w)).2
            + k)%Z)
      ∧ advanced_when (Preferences.any_pref_uses_stored_sequence_no (prefs w)) k
          (Preferences.stored_sequence_no (prefs w))
          (Preferences.stored_sequence_no (prefs w'))
      ∧ advanced_when (Preferences.any_pref_uses_session_sequence_no (prefs w)) k
          (Sequences.session_sequence_no (sequences w))
          (Sequences.session_sequence_no (sequences w'))
      ∧ advanced_when (Preferences.any_pref_uses_sequence_letter_value (prefs w)) k
          (Sequences.sequence_letter (sequences w))
          (Sequences.sequence_letter (sequences w'))
      ∧ sync_raw_jpeg w' = sync_raw_jpeg w.
Proof.
  intros Hsync. unfold run_step. destruct download_succeeded.
  - destruct (process_file w f download_count) as [[w1 f1] moved] eqn:Hp.
    pose proof (process_file_unsynchronized w f download_count w1 f1 moved
                  Hsync Hp) as Hstep.
    destruct moved; cbn [negb].
    + eexists _, _, true. split; [reflexivity|]. exact Hstep.
    + eexists _, _, false. split; [reflexivity|]. exact Hstep.
  - eexists _, _, false. split; [reflexivity|]. cbv zeta.
    unfold advanced_when.
    destruct (DownloadsTodayTracker.downloads_today (downloads_today_tracker w));
      cbn [fst snd].
    split_and!; try done; try (repeat case_match; lia).
    f_equal; lia.
Qed.

(** X12. Without RAW+JPEG synchronisation, a run of file requests answers
    each request with one message, and the counters count the files reported
    as placed: the downloads-today count advances by their number, and so
    does each of the stored sequence number (the preference), the session
    sequence number and the sequence letter that the preferences use; a
    counter the preferences do not use stays as it is. *)
Theorem counters_count_placed_files `{NameGenerators} (w : Worker)
    (requests : list (RPDFile * Z * bool)) :
  Preferences.must_synchronize_raw_jpg (prefs w) = false →
  ∃ w' sent,
    run (Started w) (file_requests requests) = Some (Started w', sent)
    ∧ length sent = length requests
    ∧ DownloadsTodayTracker.downloads_today (downloads_today_tracker w')
      = ((DownloadsTodayTracker.downloads_today (downloads_today_tracker w)).1,
         ((DownloadsTodayTracker.downloads_today (downloads_today_tracker w)).2
          + placed sent)%Z)
    ∧ advanced_when (Preferences.any_pref_uses_stored_sequence_no (prefs w))
        (placed sent)
        (Preferences.stored_sequence_no (prefs w))
        (Preferences.stored_sequence_no (prefs w'))
    ∧ advanced_when (Preferences.any_pref_uses_session_sequence_no (prefs w))
        (placed sent)
        (Sequences.session_sequence_no (sequences w))
        (Sequences.session_sequence_no (sequences w'))
    ∧ advanced_when (Preferences.any_pref_uses_sequence_letter_value (prefs w))
        (placed sent)
        (Sequences.sequence_letter (sequences w))
        (Sequences.sequence_letter (sequences w'))
    ∧ sync_raw_jpeg w' = sync_raw_jpeg w.
Proof.
  revert w. induction requests as [|[[f c] ok] requests IH]; intros w Hsync.
  - exists w, []. cbn [file_requests fmap list_fmap run placed length].
    unfold advanced_when.
    destruct (DownloadsTodayTracker.downloads_today (downloads_today_tracker w));
      cbn [fst snd].
    split_and!; try done; try (repeat case_match; lia).
    f_equal; lia.
  - destruct (file_request_unsynchronized w f c ok Hsync)
      as (w1 & f1 & moved & Hstep & Hs1 & Hu1 & Hu2 & Hu3 & Ht1 & Hst1 & Hse1
          & Hle1 & Hr1).
    destruct (IH w1 Hs1) as (w' & sent & Hrun & Hlen & Ht & Hst & Hse & Hle & Hr).
    exists w', (FileResults moved f1 c :: sent).
    unfold file_requests in *. rewrite fmap_cons. cbn [fst snd].
    cbn [run]. rewrite Hstep, Hrun. cbn [option_list app].
    cbn [placed reports_placed length].
    rewrite Hu1, Hu2, Hu3 in *. unfold advanced_when in *.
    rewrite Ht, Ht1, Hst, Hst1, Hse, Hse1, Hle, Hle1, Hr, Hr1, Hlen.
    cbn [fst snd].
    split_and!; try done; try (repeat case_match; lia).
    f_equal; lia.
Qed.

(** X12 at three requests, two of them for downloaded photos. *)
Lemma counters_count_placed_files_witness :
  let w := sample_worker sample_prefs sample_fs in
  ∃ w' sent,
    @run text_generators (Started w) (file_requests sample_requests)
    = Some (Started w', sent)
    ∧ length sent = length sample_requests
    ∧ DownloadsTodayTracker.downloads_today (downloads_today_tracker w')
      = ((DownloadsTodayTracker.downloads_today (downloads_today_tracker w)).1,
         ((DownloadsTodayTracker.downloads_today (downloads_today_tracker w)).2
          + placed sent)%Z)
    ∧ advanced_when (Preferences.any_pref_uses_stored_sequence_no (prefs w))
        (placed sent)
        (Preferences.stored_sequence_no (prefs w))
        (Preferences.stored_sequence_no (prefs w'))
    ∧ advanced_when (Preferences.any_pref_uses_session_sequence_no (prefs w))
        (placed sent)
        (Sequences.session_sequence_no (sequences w))
        (Sequences.session_sequence_no (sequences w'))
    ∧ advanced_when (Preferences.any_pref_uses_sequence_letter_value (prefs w))
        (placed sent)
        (Sequences.sequence_letter (sequences w))
        (Sequences.sequence_letter (sequences w'))
    ∧ sync_raw_jpeg w' = sync_raw_jpeg w.
Proof.
  apply (@counters_count_placed_files text_generators
           (sample_worker sample_prefs sample_fs) sample_requests).
  reflexivity.
Defined.

(** ** Where a placed file is *)

Lemma rename_keeps_file (fs0 : FileSystem) (src dst p : string) :
  p ≠ src → p ∈ fs_files fs0 → p ∈ fs_files (Os.rename fs0 src dst).1.
Proof.
  unfold Os.rename. intros Hp Hin.
  repeat case_match; cbn [fst fs_files Os.logged]; set_solver.
Qed.

Lemma move_sidecars_keeps_file (w : Worker) (f : RPDFile) (p : string) :
  p ≠ temp_thm_full_name f → p ≠ temp_audio_full_name f →
  p ≠ temp_xmp_full_name f →
  p ∈ fs_files (fs w) → p ∈ fs_files (fs (move_sidecars w f).1).
Proof.
  intros Hthm Haudio Hxmp.
  unfold move_sidecars, move_thm_file, move_audio_file, _move_associate_file.
  intros Hq.
  repeat match goal with
         | |- context [Os.rename ?a ?s ?d] =>
             let Hk := fresh "Hk" in
             let Hr := fresh "Hr" in
             first [ pose proof (rename_keeps_file a s d p Hthm) as Hk
                   | pose proof (rename_keeps_file a s d p Haudio) as Hk
                   | pose proof (rename_keeps_file a s d p Hxmp) as Hk ];
             destruct (Os.rename a s d) as [? [?|]] eqn:Hr;
             cbn [fst snd fs set_fs temp_audio_full_name temp_xmp_full_name
                  set_download_thm_full_name set_download_audio_full_name
                  download_full_base_name xmp_extension] in *
         | |- context [bool_decide ?P] => destruct (bool_decide P)
         end;
    auto.
Qed.

Lemma move_sidecars_names (w : Worker) (f : RPDFile) :
  let f' := (move_sidecars w f).2 in
  download_folder f' = download_folder f
  ∧ download_subfolder f' = download_subfolder f
  ∧ download_name f' = download_name f
  ∧ download_full_file_name f' = download_full_file_name f.
Proof.
  unfold move_sidecars, move_thm_file, move_audio_file, _move_associate_file.
  repeat case_match; simplify_eq; done.
Qed.

Lemma move_file_true_names (w : Worker) (f : RPDFile) w' f' :
  move_file w f = (w', f', true) →
  download_folder f' = download_folder f
  ∧ download_subfolder f' = download_subfolder f.
Proof.
  unfold move_file. cbv zeta.
  repeat case_match; intros; simplify_eq; done.
Qed.

Lemma load_metadata_folder (f : RPDFile) :
  download_folder (load_metadata f).1 = download_folder f
  ∧ file_type (load_metadata f).1 = file_type f.
Proof. unfold load_metadata, add_problem. by repeat case_match. Qed.

Lemma generate_names_folder `{NameGenerators} (w : Worker) (f : RPDFile) :
  download_folder (generate_names w f).1 = download_folder f
  ∧ file_type (generate_names w f).1 = file_type f.
Proof.
  unfold generate_names, generate_subfolder, generate_name, _generate_name,
    check_for_fatal_name_generation_errors, load_metadata, add_problem.
  repeat case_match; simplify_eq; done.
Qed.

Lemma sync_raw_jpg_folder (w : Worker) (f : RPDFile) :
  download_folder (sync_raw_jpg w f).1.2 = download_folder f
  ∧ file_type (sync_raw_jpg w f).1.2 = file_type f.
Proof.
  unfold sync_raw_jpg, load_metadata, check_for_fatal_name_generation_errors,
    same_name_different_exif, add_problem.
  repeat case_match; simplify_eq; done.
Qed.

(** X13. A file that [process_file] reports as placed is where it says:
    unless its destination is the temporary path of one of its sidecars,
    the file exists at [download_full_file_name], which is the download
    folder the preferences give for its type, joined with the generated
    subfolder and the generated name. *)
Theorem placed_file_exists `{NameGenerators} (w : Worker) (f : RPDFile)
    (download_count : Z) w' f' :
  process_file w f download_count = (w', f', true) →
  download_full_file_name f' ∉
    [temp_thm_full_name f; temp_audio_full_name f; temp_xmp_full_name f] →
  download_full_file_name f' ∈ fs_files (fs w')
  ∧ download_full_file_name f' = destination f'
  ∧ download_folder f'
    = (if bool_decide (file_type f = photo)
       then Preferences.photo_download_folder (prefs w)
       else Preferences.video_download_folder (prefs w)).
Proof.
  intros Hprocess Hp.
  pose proof Hprocess as Hinv. apply process_file_true_inv in Hinv.
  cbv zeta in Hinv.
  destruct Hinv as (wS & fS & r & f2 & w3 & f3 & Hs & _ & Hgen & Hmove & Hside).
  pose proof (move_file_true_inv _ _ _ _ Hmove)
    as (_ & _ & Hdest & _ & Hfull & Hname & _).
  pose proof (move_file_true_names _ _ _ _ Hmove) as (Hfolder3 & Hsub3).
  pose proof (move_sidecars_names
                (record_and_increment w3 f3
                   (Preferences.must_synchronize_raw_jpg (prefs w)
                    && bool_decide (file_type (prepare_rpd_file w f) = photo)) r)
                f3) as Hnames.
  rewrite Hside in Hnames. cbn [snd] in Hnames. cbv zeta in Hnames.
  destruct Hnames as (Hfolder' & Hsub' & Hname' & Hfull').
  assert (temporary_files f3 = temporary_files f) as Htemps.
  { pose proof (move_file_temps wS f2) as Ht3. rewrite Hmove in Ht3.
    pose proof (generate_names_temps wS fS) as Ht2. rewrite Hgen in Ht2.
    cbn [fst snd] in *. rewrite Ht3, Ht2.
    pose proof (prepare_rpd_file_temps w f) as Ht0.
    destruct (Preferences.must_synchronize_raw_jpg (prefs w)
              && bool_decide (file_type (prepare_rpd_file w f) = photo)).
    - pose proof (sync_raw_jpg_temps w (prepare_rpd_file w f)) as Ht1.
      rewrite Hs in Ht1. cbn [fst snd] in Ht1. congruence.
    - assert (fS = prepare_rpd_file w f) as -> by congruence. exact Ht0. }
  assert (download_folder (prepare_rpd_file w f)
          = (if bool_decide (file_type f = photo)
             then Preferences.photo_download_folder (prefs w)
             else Preferences.video_download_folder (prefs w))
          ∧ file_type (prepare_rpd_file w f) = file_type f) as [Hfolder0 Htype0].
  { unfold prepare_rpd_file. by destruct (bool_decide (file_type f = photo)). }
  assert (download_folder fS = download_folder (prepare_rpd_file w f)) as HfolderS.
  { destruct (Preferences.must_synchronize_raw_jpg (prefs w)
              && bool_decide (file_type (prepare_rpd_file w f) = photo)).
    - pose proof (sync_raw_jpg_folder w (prepare_rpd_file w f)) as [Hf _].
      by rewrite Hs in Hf.
    - by simplify_eq. }
  pose proof (generate_names_folder wS fS) as [Hfolder2 _].
  rewrite Hgen in Hfolder2. cbn [fst] in Hfolder2.
  split_and!.
  - rewrite Hfull', Hfull.
    pose proof (record_and_increment_values w3 f3
                  (Preferences.must_synchronize_raw_jpg (prefs w)
                   && bool_decide (file_type (prepare_rpd_file w f) = photo)) r)
      as (_&_&_&_&_&Hfs4&_).
    pose proof (move_sidecars_keeps_file
                  (record_and_increment w3 f3
                     (Preferences.must_synchronize_raw_jpg (prefs w)
                      && bool_decide (file_type (prepare_rpd_file w f) = photo)) r)
                  f3 (destination f2)) as Hkeep.
    rewrite Hside in Hkeep. cbn [fst] in Hkeep.
    unfold temporary_files in Htemps.
    rewrite Hfull', Hfull in Hp.
    apply Hkeep; [| | |by rewrite Hfs4].
    + intros Heq. apply Hp. simplify_eq. rewrite Heq. set_solver.
    + intros Heq. apply Hp. simplify_eq. rewrite Heq. set_solver.
    + intros Heq. apply Hp. simplify_eq. rewrite Heq. set_solver.
  - rewrite Hfull', Hfull. unfold destination.
    by rewrite Hfolder', Hsub', Hname', Hfolder3, Hsub3, Hname.
  - by rewrite Hfolder', Hfolder3, Hfolder2, HfolderS, Hfolder0.
Qed.

(** X13 at a photo placed in [/photos/2024]. *)
Lemma placed_file_exists_witness :
  ∃ w' f',
    @process_file text_generators (sample_worker sample_prefs sample_fs)
      (sample_file "DSC1.JPG" "/tmp/a" (Some sample_exif)) 1 = (w', f', true)
    ∧ download_full_file_name f' = "/photos/2024/IMG.JPG"
    ∧ download_full_file_name f' ∈ fs_files (fs w')
    ∧ download_full_file_name f' = destination f'
    ∧ download_folder f' = "/photos".
Proof.
  do 2 eexists. split; [vm_compute; reflexivity|].
  split; [vm_compute; reflexivity|].
  eapply (@placed_file_exists text_generators
            (sample_worker sample_prefs sample_fs)
            (sample_file "DSC1.JPG" "/tmp/a" (Some sample_exif)) 1).
  - vm_compute. reflexivity.
  - cbn [sample_file temp_thm_full_name temp_audio_full_name
         temp_xmp_full_name download_full_file_name].
    rewrite !not_elem_of_cons. split_and!; try discriminate.
    apply not_elem_of_nil.
Defined.

(** ** The occurrences [find_all] yields *)

Lemma substring_length (a n : nat) (text : string) :
  String.length (String.substring a n text) = n `min` (String.length text - a).
Proof.
  revert a n. induction text as [|c text IH]; intros a n.
  - rewrite substring_empty. simpl. lia.
  - destruct a as [|a].
    + destruct n as [|n]; [done|]. simpl. rewrite IH. lia.
    + simpl. by rewrite IH.
Qed.

Lemma skip_is_Some (a : nat) (text : string) :
  a ≤ String.length text → is_Some (NameEditor.skip a text).
Proof.
  revert text. induction a as [|a IH]; intros text Hle; [by eexists|].
  destruct text as [|c text]; simpl in *; [lia|]. apply IH. lia.
Qed.

Lemma skip_split (a d : nat) (text rest' : string) :
  NameEditor.skip (a + d) text = Some rest' →
  ∃ rest, NameEditor.skip a text = Some rest ∧ NameEditor.skip d rest = Some rest'.
Proof.
  revert text. induction a as [|a IH]; intros text Hskip.
  - exists text. by split.
  - destruct text as [|c text]; [done|]. simpl in *. by apply IH.
Qed.

Lemma find_at_leftmost (sub : string) (d : nat) (rest rest' : string) (i : nat) :
  NameEditor.skip d rest = Some rest' →
  String.prefix sub rest' = true →
  ∃ found, NameEditor.find_at sub rest i = Some found ∧ found ≤ i + d.
Proof.
  revert rest i. induction d as [|d IH]; intros rest i Hskip Hpre.
  - simpl in Hskip. simplify_eq. exists i.
    destruct rest' as [|c r]; cbn [NameEditor.find_at]; rewrite Hpre;
      (split; [done|lia]).
  - destruct rest as [|c r]; [done|]. simpl in Hskip.
    cbn [NameEditor.find_at].
    destruct (String.prefix sub (String c r)).
    + exists i. split; [done|lia].
    + destruct (IH r (S i) Hskip Hpre) as (found & Hfind & Hle).
      exists found. split; [done|lia].
Qed.

(** [str.find] returns the leftmost occurrence from [start] on. *)
Lemma find_leftmost (text sub : string) (start k : nat) :
  sub ≠ "" →
  start ≤ k →
  String.substring k (String.length sub) text = sub →
  ∃ found, NameEditor.find text sub start = Some found ∧ start ≤ found ≤ k
           ∧ k + String.length sub ≤ String.length text.
Proof.
  intros Hsub Hle Hocc.
  assert (0 < String.length sub) as Hpos by (destruct sub; [done|simpl; lia]).
  assert (k + String.length sub ≤ String.length text) as Hin.
  { pose proof (substring_length k (String.length sub) text) as Hlen.
    rewrite Hocc in Hlen. lia. }
  destruct (skip_is_Some k text ltac:(lia)) as [rest' Hskip].
  assert (String.prefix sub rest' = true) as Hpre.
  { apply String.prefix_correct. by rewrite <- (substring_skip _ _ _ _ Hskip). }
  replace k with (start + (k - start)) in Hskip by lia.
  apply skip_split in Hskip as (rest & Hs & Hd).
  unfold NameEditor.find. rewrite Hs.
  destruct (find_at_leftmost sub _ rest rest' start Hd Hpre) as (found & Hfind & Hf).
  exists found. split; [done|].
  apply find_at_found in Hfind as (d & ? & -> & _). lia.
Qed.

Lemma find_from (text sub : string) (start found : nat) :
  NameEditor.find text sub start = Some found → start ≤ found.
Proof.
  unfold NameEditor.find. destruct (NameEditor.skip start text); [|done].
  intros Hfind. apply find_at_found in Hfind as (d & ? & -> & _). lia.
Qed.

Lemma find_all_loop_spaced (fuel : nat) (text pref_defn : string) (start : nat) :
  let found := NameEditor.find_all_loop fuel text pref_defn start in
  (∀ index, index ∈ found → start ≤ index)
  ∧ (∀ i a b, found !! i = Some a → found !! S i = Some b →
              a + String.length pref_defn ≤ b).
Proof.
  cbv zeta. revert start. induction fuel as [|fuel IH]; intros start.
  - cbn [NameEditor.find_all_loop]. split; [|done].
    intros index Hin. by apply elem_of_nil in Hin.
  - cbn [NameEditor.find_all_loop].
    destruct (NameEditor.find text pref_defn start) as [found|] eqn:Hfind.
    + destruct (IH (found + String.length pref_defn)) as [Hfrom Hspaced].
      apply find_from in Hfind. split.
      * intros index Hin. apply elem_of_cons in Hin as [->|Hin]; [done|].
        apply Hfrom in Hin. lia.
      * intros [|i] a b Ha Hb.
        -- cbn in Ha, Hb. simplify_eq. apply Hfrom.
           by apply list_elem_of_lookup_2 in Hb.
        -- cbn in Ha, Hb. by eapply Hspaced.
    + split; [|done]. intros index Hin. by apply elem_of_nil in Hin.
Qed.

Lemma find_all_loop_covers (fuel : nat) (text pref_defn : string)
    (start k : nat) :
  pref_defn ≠ "" →
  start ≤ k → k - start < fuel →
  String.substring k (String.length pref_defn) text = pref_defn →
  ∃ index, index ∈ NameEditor.find_all_loop fuel text pref_defn start
           ∧ index ≤ k < index + String.length pref_defn.
Proof.
  intros Hne. revert start.
  assert (0 < String.length pref_defn) as Hpos
    by (destruct pref_defn; [done|simpl; lia]).
  induction fuel as [|fuel IH]; intros start Hle Hfuel Hocc; [lia|].
  cbn [NameEditor.find_all_loop].
  destruct (find_leftmost text pref_defn start k Hne Hle Hocc)
    as (found & -> & Hfound & _).
  destruct (decide (k < found + String.length pref_defn)) as [Hin|Hout].
  - exists found. split; [by left|lia].
  - destruct (IH (found + String.length pref_defn)) as (index & Hi & Hk);
      [lia|lia|done|].
    exists index. split; [by right|done].
Qed.

(** X14. The positions [find_all] yields, for a definition that is not
    empty: each is an occurrence of the definition in the text; they come
    in increasing order, the next one not before the end of the previous
    occurrence; and every occurrence of the definition in the text is
    yielded or starts inside a yielded one. For the empty definition
    nothing is yielded. *)
Theorem find_all_occurrences (text pref_defn : string) :
  let found := NameEditor.find_all text pref_defn in
  (∀ index, index ∈ found →
     String.substring index (String.length pref_defn) text = pref_defn
     ∧ pref_defn ≠ "")
  ∧ (∀ i a b, found !! i = Some a → found !! S i = Some b →
              a + String.length pref_defn ≤ b)
  ∧ (∀ k, pref_defn ≠ "" →
          String.substring k (String.length pref_defn) text = pref_defn →
          ∃ index, index ∈ found ∧ index ≤ k < index + String.length pref_defn).
Proof.
  cbv zeta. unfold NameEditor.find_all.
  case_bool_decide as Hlen.
  - assert (pref_defn = "") as -> by (by destruct pref_defn).
    split_and!; try done. intros index Hin. by apply elem_of_nil in Hin.
  - assert (pref_defn ≠ "") as Hne by (intros ->; by apply Hlen).
    split_and!.
    + intros index Hin. split; [|done]. by eapply find_all_loop_found.
    + apply find_all_loop_spaced.
    + intros k _ Hocc. apply find_all_loop_covers; [done|lia| |done].
      pose proof (substring_length k (String.length pref_defn) text) as Hl.
      rewrite Hocc in Hl. lia.
Qed.

(** ** The boundaries of [highlightBlock] *)






(** ** Locating a pref value *)

Lemma bisect_left_spec (b : list (nat * nat)) (x : nat * nat) :
  bisect_left b x ≤ length b
  ∧ (∀ j y, j < bisect_left b x → b !! j = Some y → tuple_lt y x = true)
  ∧ (∀ y, b !! bisect_left b x = Some y → tuple_lt y x = false).
Proof.
  induction b as [|z b (Hle & Hbefore & Hat)]; cbn [bisect_left].
  - split_and!; [done|intros; lia|done].
  - destruct (tuple_lt z x) eqn:Hz.
    + split_and!; [simpl; lia| |done].
      intros [|j] y Hj Hy; [cbn in Hy; by simplify_eq|].
      cbn in Hy. apply (Hbefore j); [lia|done].
    + split_and!; [simpl; lia|intros; lia|].
      intros y Hy. cbn in Hy. by simplify_eq.
Qed.

Lemma tuple_lt_position (y : nat * nat) (position : nat) :
  tuple_lt y (position, 0) = (y.1 <? position).
Proof.
  unfold tuple_lt. cbn [fst snd].
  replace (y.2 <? 0) with false by (symmetry; apply Nat.ltb_ge; lia).
  by rewrite andb_false_r, orb_false_r.
Qed.

(** [locatePrefValue] returns, and what it returns is [located]. *)
Lemma locatePrefValue_located_lemma (b : list (nat * nat)) (position : nat) :
  ∃ pref_pos found found_left,
    locatePrefValue b position = Some (pref_pos, found, found_left)
    ∧ located b position pref_pos found found_left.
Proof.
  unfold locatePrefValue. cbv zeta.
  destruct (bisect_left_spec b (position, 0)) as (Hle & Hbefore & Hat).
  set (index := bisect_left b (position, 0)) in *.
  case_bool_decide as Hempty; [by eexists _, _, _|].
  case_bool_decide as Hzero.
  - destruct (b !! 0) as [first|] eqn:Hfirst.
    + case_bool_decide as Hpos; eexists _, _, _; (split; [done|]); [|done].
      cbn. split; [|done]. exists first.
      split_and!; [by eapply list_elem_of_lookup_2|done|done].
    + apply lookup_ge_None in Hfirst. lia.
  - case_bool_decide as Hlast.
    + destruct (last b) as [final|] eqn:Hfinal.
      * assert (final ∈ b) as Hin.
        { rewrite last_lookup in Hfinal. by eapply list_elem_of_lookup_2. }
        assert (final.1 < position) as Hlt.
        { rewrite last_lookup in Hfinal.
          specialize (Hbefore (pred (length b)) final ltac:(lia) Hfinal).
          rewrite tuple_lt_position in Hbefore. by apply Nat.ltb_lt. }
        case_bool_decide as Hin_last; [|case_bool_decide as Hleft];
          eexists _, _, _; (split; [done|]); cbn.
        -- split; [|done]. exists final. split_and!; done.
        -- split; [done|]. exists final. split_and!; [done|done|lia].
        -- done.
      * apply last_None in Hfinal. by subst b.
    + assert (index < length b) as Hlt by lia.
      destruct (lookup_lt_is_Some_2 b (index - 1) ltac:(lia)) as [left_ Hl].
      destruct (lookup_lt_is_Some_2 b index Hlt) as [right_ Hr].
      rewrite Hl, Hr.
      assert (left_ ∈ b) as Hinl by (by eapply list_elem_of_lookup_2).
      assert (right_ ∈ b) as Hinr by (by eapply list_elem_of_lookup_2).
      assert (left_.1 < position) as Hleft_lt.
      { specialize (Hbefore (index - 1) left_ ltac:(lia) Hl).
        rewrite tuple_lt_position in Hbefore. by apply Nat.ltb_lt. }
      case_bool_decide as Hat_right; case_bool_decide as Hto_left; cbn [andb].
      * eexists _, _, _. split; [done|]. cbn. split.
        -- exists right_. split_and!; done.
        -- exists left_. split_and!; [done|done|lia].
      * eexists _, _, _. split; [done|]. cbn. split; [|done].
        exists right_. split_and!; done.
      * eexists _, _, _. split; [done|]. cbn. split; [done|].
        exists left_. split_and!; [done|done|lia].
      * case_bool_decide as Hin_left; eexists _, _, _; (split; [done|]); cbn;
          [|done].
        split; [|done]. exists left_. split_and!; done.
Qed.

(** X16. [locatePrefValue] always returns, and what it returns is right:
    when it answers [at], [start, end] is a boundary that starts at the
    position; when it answers [on_left], [left_start, left_end] is a boundary
    that ends just before the position; [on_left_and_at] is both;
    [positioned_in] gives a boundary that starts before the position and
    does not end before it; the positions not set are -1, and all four are
    for [not_here]. *)
Theorem locatePrefValue_located (b : list (nat * nat)) (position : nat) :
  ∃ pref_pos found found_left,
    locatePrefValue b position = Some (pref_pos, found, found_left)
    ∧ located b position pref_pos found found_left.
Proof. apply locatePrefValue_located_lemma. Qed.

(** X17. A left click selects nothing, or exactly one pref value: the
    positions given to the cursor are the start of a boundary and the
    position after its end, and the click was at the start of that boundary,
    inside it, or just after its end. No position given to the cursor is
    -1. *)
Theorem mousePressEvent_selects_boundary (b : list (nat * nat))
    (position : nat) :
  ∃ selection,
    mousePressEvent b position = Some selection
    ∧ ∀ selection_start selection_end,
        selection = Some (selection_start, selection_end) →
        ∃ x, x ∈ b
             ∧ selection_start = Z.of_nat x.1
             ∧ selection_end = (Z.of_nat x.2 + 1)%Z
             ∧ (x.1 = position ∨ x.1 < position ≤ x.2 ∨ x.2 + 1 = position).
Proof.
  unfold mousePressEvent.
  destruct (locatePrefValue_located_lemma b position)
    as (pref_pos & [start end_] & [left_start left_end] & -> & Hlocated).
  destruct pref_pos; cbn in Hlocated;
    rewrite ?bool_decide_eq_true_2 by done;
    rewrite ?(bool_decide_eq_false_2 (_ = on_left)) by done;
    rewrite ?(bool_decide_eq_false_2 (not_here ≠ not_here))
      by (intros Hc; by apply Hc);
    eexists; (split; [done|]); intros s e Hsel; simplify_eq.
  - destruct Hlocated as (_ & x & Hin & Heq & Hpos).
    unfold positions in Heq. simplify_eq. exists x. split_and!; auto.
  - destruct Hlocated as ((x & Hin & Heq & Hpos) & _).
    unfold positions in Heq. simplify_eq. exists x. split_and!; auto.
  - destruct Hlocated as ((x & Hin & Heq & Hpos) & _).
    unfold positions in Heq. simplify_eq. exists x. split_and!; auto.
  - destruct Hlocated as ((x & Hin & Heq & Hpos) & _).
    unfold positions in Heq. simplify_eq. exists x. split_and!; auto.
Qed.

(** ** Locating a pref value among boundaries that do not overlap *)

Lemma separate_boundaries_split (b : list (nat * nat)) (x : nat * nat) :
  separate_boundaries b → x ∈ b →
  ∃ before after,
    b = before ++ x :: after
    ∧ Forall (λ y, y.1 ≤ y.2 ∧ y.2 < x.1) before
    ∧ x.1 ≤ x.2
    ∧ Forall (λ y, x.2 < y.1) after.
Proof.
  induction b as [|z b IH]; intros Hsep Hin; [by apply elem_of_nil in Hin|].
  cbn [separate_boundaries] in Hsep. destruct Hsep as (Hz & Hall & Hsep).
  apply elem_of_cons in Hin as [->|Hin].
  - exists [], b. split_and!; [done|by apply Forall_nil|done|done].
  - destruct (IH Hsep Hin) as (before & after & -> & Hbefore & Hx & Hafter).
    exists (z :: before), after. split_and!; [done| |done|done].
    apply Forall_cons. split; [|done]. split; [done|].
    rewrite Forall_forall in Hall. apply Hall.
    apply elem_of_app. right. by left.
Qed.

Lemma bisect_left_app (before rest : list (nat * nat)) (key : nat * nat) :
  Forall (λ y, tuple_lt y key = true) before →
  bisect_left (before ++ rest) key = length before + bisect_left rest key.
Proof.
  induction before as [|z before IH]; intros Hall; [done|].
  apply Forall_cons in Hall as [Hz Hall].
  cbn [app bisect_left length]. rewrite Hz, IH by done. lia.
Qed.

Lemma bisect_left_not_less (rest : list (nat * nat)) (key : nat * nat) :
  Forall (λ y, tuple_lt y key = false) rest → bisect_left rest key = 0.
Proof.
  destruct rest as [|z rest]; [done|]. intros Hall.
  apply Forall_cons in Hall as [Hz _]. cbn [bisect_left]. by rewrite Hz.
Qed.

(** The answer of [locatePrefValue] for a boundary that has the position in
    it or next to it, among boundaries that do not overlap. *)
Lemma locatePrefValue_separate (b : list (nat * nat)) (position : nat)
    (x : nat * nat) :
  separate_boundaries b → x ∈ b →
  ∃ pref_pos found found_left,
    locatePrefValue b position = Some (pref_pos, found, found_left)
    ∧ (x.1 = position →
       found = positions x ∧ (pref_pos = at_ ∨ pref_pos = on_left_and_at))
    ∧ (x.1 < position ≤ x.2 →
       found = positions x ∧ pref_pos = positioned_in)
    ∧ (x.2 + 1 = position →
       found_left = positions x
       ∧ (pref_pos = on_left ∨ pref_pos = on_left_and_at)).
Proof.
  intros Hsep Hin.
  destruct (locatePrefValue_located_lemma b position)
    as (pref_pos & found & found_left & Hlocate & _).
  exists pref_pos, found, found_left. split; [done|].
  destruct (separate_boundaries_split b x Hsep Hin)
    as (before & after & -> & Hbefore & Hx & Hafter).
  clear Hsep Hin.
  assert (x.1 ≤ position →
          bisect_left (before ++ x :: after) (position, 0)
          = length before + bisect_left (x :: after) (position, 0)) as Hindex.
  { intros Hle. apply bisect_left_app.
    eapply Forall_impl; [exact Hbefore|]. intros y [Hy1 Hy2]. cbn beta in *.
    rewrite tuple_lt_position. apply Nat.ltb_lt. lia. }
  revert Hlocate. unfold locatePrefValue. cbv zeta.
  rewrite bool_decide_eq_false_2 by (rewrite length_app; simpl; lia).
  intros Hlocate. split_and!.
  - (* the position is the start of [x] *)
    intros Hstart. revert Hlocate. rewrite Hindex by lia.
    cbn [bisect_left]. rewrite tuple_lt_position.
    replace (x.1 <? position) with false by (symmetry; apply Nat.ltb_ge; lia).
    rewrite Nat.add_0_r.
    destruct before as [|z before _] using rev_ind.
    + cbn [length app]. rewrite bool_decide_eq_true_2 by done. cbn.
      rewrite bool_decide_eq_true_2 by done. intros Heq. simplify_eq. auto.
    + rewrite length_app. cbn [length].
      rewrite bool_decide_eq_false_2 by lia.
      rewrite bool_decide_eq_false_2 by (rewrite !length_app; simpl; lia).
      replace (length before + 1 - 1) with (length before) by lia.
      rewrite <- (assoc_L (++)). cbn [app].
      rewrite (list_lookup_middle before (x :: after) z (length before) eq_refl).
      replace ((before ++ z :: x :: after) !! (length before + 1))
        with (Some x).
      2:{ symmetry. replace (before ++ z :: x :: after)
            with ((before ++ [z]) ++ x :: after)
            by (by rewrite <- (assoc_L (++))).
          apply list_lookup_middle. rewrite length_app. simpl. lia. }
      rewrite (bool_decide_eq_true_2 (x.1 = position)) by done.
      case_bool_decide; cbn [andb]; intros Heq; simplify_eq; auto.
  - (* the position is inside [x] *)
    intros [Hlt Hle]. revert Hlocate. rewrite Hindex by lia.
    cbn [bisect_left]. rewrite tuple_lt_position.
    replace (x.1 <? position) with true by (symmetry; apply Nat.ltb_lt; lia).
    rewrite bisect_left_not_less.
    2:{ eapply Forall_impl; [exact Hafter|]. intros y Hy. cbn beta in *.
        rewrite tuple_lt_position. apply Nat.ltb_ge. lia. }
    rewrite bool_decide_eq_false_2 by lia.
    replace (length before + 1 - 1) with (length before) by lia.
    rewrite (list_lookup_middle before after x (length before) eq_refl).
    destruct after as [|z after].
    + rewrite bool_decide_eq_true_2 by (rewrite length_app; simpl; lia).
      rewrite last_snoc. rewrite bool_decide_eq_true_2 by done.
      intros Heq. by simplify_eq.
    + rewrite bool_decide_eq_false_2 by (rewrite length_app; simpl; lia).
      replace ((before ++ x :: z :: after) !! (length before + 1))
        with (Some z).
      2:{ symmetry. replace (before ++ x :: z :: after)
            with ((before ++ [x]) ++ z :: after)
            by (by rewrite <- (assoc_L (++))).
          apply list_lookup_middle. rewrite length_app. simpl. lia. }
      apply Forall_cons in Hafter as [Hz _].
      rewrite (bool_decide_eq_false_2 (z.1 = position)) by lia.
      rewrite bool_decide_eq_false_2 by lia. cbn [andb].
      rewrite bool_decide_eq_true_2 by done.
      intros Heq. by simplify_eq.
  - (* the position is just after the end of [x] *)
    intros Hend. revert Hlocate. rewrite Hindex by lia.
    cbn [bisect_left]. rewrite tuple_lt_position.
    replace (x.1 <? position) with true by (symmetry; apply Nat.ltb_lt; lia).
    rewrite bisect_left_not_less.
    2:{ eapply Forall_impl; [exact Hafter|]. intros y Hy. cbn beta in *.
        rewrite tuple_lt_position. apply Nat.ltb_ge. lia. }
    rewrite bool_decide_eq_false_2 by lia.
    replace (length before + 1 - 1) with (length before) by lia.
    rewrite (list_lookup_middle before after x (length before) eq_refl).
    destruct after as [|z after].
    + rewrite bool_decide_eq_true_2 by (rewrite length_app; simpl; lia).
      rewrite last_snoc. rewrite bool_decide_eq_false_2 by lia.
      rewrite bool_decide_eq_true_2 by lia.
      intros Heq. simplify_eq. auto.
    + rewrite bool_decide_eq_false_2 by (rewrite length_app; simpl; lia).
      replace ((before ++ x :: z :: after) !! (length before + 1))
        with (Some z).
      2:{ symmetry. replace (before ++ x :: z :: after)
            with ((before ++ [x]) ++ z :: after)
            by (by rewrite <- (assoc_L (++))).
          apply list_lookup_middle. rewrite length_app. simpl. lia. }
      rewrite (bool_decide_eq_true_2
                 (Z.of_nat x.2 = (Z.of_nat position - 1)%Z)) by lia.
      case_bool_decide; cbn [andb]; intros Heq; simplify_eq; auto.
Qed.

(** X18. Among boundaries that do not overlap, [locatePrefValue] finds the
    pref value the position belongs to: at the start of a boundary it
    answers [at] (or [on_left_and_at]) with that boundary as [start, end];
    inside a boundary it answers [positioned_in] with that boundary; just
    after the end of a boundary it answers [on_left] (or [on_left_and_at])
    with that boundary as [left_start, left_end]. *)
Theorem locatePrefValue_finds_boundary (b : list (nat * nat)) (position : nat)
    (x : nat * nat) :
  separate_boundaries b → x ∈ b →
  ∃ pref_pos found found_left,
    locatePrefValue b position = Some (pref_pos, found, found_left)
    ∧ (x.1 = position →
       found = positions x ∧ (pref_pos = at_ ∨ pref_pos = on_left_and_at))
    ∧ (x.1 < position ≤ x.2 →
       found = positions x ∧ pref_pos = positioned_in)
    ∧ (x.2 + 1 = position →
       found_left = positions x
       ∧ (pref_pos = on_left ∨ pref_pos = on_left_and_at)).
Proof. apply locatePrefValue_separate. Qed.

(** X18 at the second pref value of the sample text and a position inside
    it. *)
Lemma locatePrefValue_finds_boundary_witness :
  ∃ pref_pos found found_left,
    locatePrefValue sample_boundaries 28 = Some (pref_pos, found, found_left)
    ∧ ((26, 31).1 = 28 →
       found = positions (26, 31)
       ∧ (pref_pos = at_ ∨ pref_pos = on_left_and_at))
    ∧ ((26, 31).1 < 28 ≤ (26, 31).2 →
       found = positions (26, 31) ∧ pref_pos = positioned_in)
    ∧ ((26, 31).2 + 1 = 28 →
       found_left = positions (26, 31)
       ∧ (pref_pos = on_left ∨ pref_pos = on_left_and_at)).
Proof.
  apply (locatePrefValue_finds_boundary sample_boundaries 28 (26, 31)).
  - cbn. split_and!; try lia; repeat constructor; cbn; lia.
  - right. left.
Defined.

(** ** From the editor's text to a pref list and back *)













Section RoundTrip.

Import NameEditor.

Variables (TEXT SEPARATOR : string).
Variable subfolder : bool.
Variable pref_mapper : list (PrefKey * string).
Variable pref_color : gmap string string.

Hypothesis pref_mapper_keys : NoDup pref_mapper.*1.
Hypothesis pref_mapper_prefs :
  ∀ key pref, (key, pref) ∈ pref_mapper →
              key.1.1 ≠ TEXT ∧ key.1.1 ≠ SEPARATOR.
Hypothesis text_is_no_separator : TEXT ≠ SEPARATOR.
Hypothesis separator_is_sep :
  subfolder = true → SEPARATOR = String PosixPath.sep "".














End RoundTrip.




(** The boundaries the highlighter reports for the sample text. *)
Lemma sample_boundaries_highlighted :
  NameEditor.highlightBlock
    (NameEditor.pref_defns (setPrefMapper sample_pref_mapper)) sample_text
  = sample_boundaries.
Proof. vm_compute. reflexivity. Qed.

(** ** The custom presets *)

Lemma list_index_lt (n : nat) (i : Z) (k : nat) :
  list_index n i = Some k → k < n.
Proof.
  unfold list_index. repeat case_bool_decide; intros; simplify_eq; lia.
Qed.

Lemma zip_delete {A B} (k : nat) (l1 : list A) (l2 : list B) :
  zip (delete k l1) (delete k l2) = delete k (zip l1 l2).
Proof.
  revert l1 l2. induction k as [|k IH]; intros [|a l1] [|b l2]; cbn;
    try done.
  - by destruct l1.
  - f_equal. apply IH.
Qed.

Lemma zip_lookup {A B} (k : nat) (l1 : list A) (l2 : list B) (a : A) (b : B) :
  l1 !! k = Some a → l2 !! k = Some b → zip l1 l2 !! k = Some (a, b).
Proof.
  revert l1 l2. induction k as [|k IH]; intros [|x l1] [|y l2] H1 H2;
    try done; cbn in *; [by simplify_eq|by apply IH].
Qed.

(** What [movePresetToFront] does for an index other than 0 that names a
    place in the lists. *)
Lemma movePresetToFront_place (index : Z) (k : nat) (d : PrefDialog) :
  length (preset_names d) = length (preset_pref_lists d) →
  index ≠ 0%Z →
  list_index (length (preset_names d)) index = Some k →
  ∃ preset_name pref_list d',
    preset_names d !! k = Some preset_name
    ∧ preset_pref_lists d !! k = Some pref_list
    ∧ movePresetToFront index d = Some d'
    ∧ preset_names d' = preset_name :: delete k (preset_names d)
    ∧ preset_pref_lists d' = pref_list :: delete k (preset_pref_lists d)
    ∧ builtin_pref_names d' = builtin_pref_names d
    ∧ builtin_pref_lists d' = builtin_pref_lists d
    ∧ presets_consistent d'
    ∧ presets_saved d'.
Proof.
  intros Hlen Hindex Hk. pose proof (list_index_lt _ _ _ Hk) as Hlt.
  destruct (lookup_lt_is_Some_2 (preset_names d) k Hlt) as [preset_name Hname].
  destruct (lookup_lt_is_Some_2 (preset_pref_lists d) k ltac:(lia))
    as [pref_list Hlist].
  exists preset_name, pref_list. eexists. split_and!; [done|done| |..].
  - unfold movePresetToFront, pop.
    rewrite (bool_decide_eq_false_2 _ Hindex).
    rewrite <- Hlen, Hk, Hname, Hlist. reflexivity.
  - done.
  - done.
  - done.
  - done.
  - unfold presets_consistent. cbn. split_and!; [|done|done].
    rewrite !length_delete by eauto. lia.
  - unfold presets_saved. cbn. by rewrite last_snoc.
Qed.

(** X20. [movePresetToFront] with an index other than 0 that names a place
    in the lists takes the preset at that place, with its pref list, to the
    front; the other presets keep their order and every preset keeps its
    pref list. The presets are saved, and the combined lists follow. An
    index of 0 changes nothing, and an index out of range is an
    [IndexError]. *)
Theorem movePresetToFront_moves (index : Z) (d : PrefDialog) :
  length (preset_names d) = length (preset_pref_lists d) →
  match list_index (length (preset_names d)) index with
  | Some k =>
      ∃ preset_name pref_list d',
        movePresetToFront index d = Some d'
        ∧ preset_names d !! k = Some preset_name
        ∧ preset_pref_lists d !! k = Some pref_list
        ∧ (index = 0%Z → d' = d)
        ∧ (index ≠ 0%Z →
           preset_names d' = preset_name :: delete k (preset_names d)
           ∧ preset_pref_lists d' = pref_list :: delete k (preset_pref_lists d)
           ∧ combined_pref_names d' = builtin_pref_names d ++ preset_names d'
           ∧ combined_pref_lists d' = builtin_pref_lists d ++ preset_pref_lists d'
           ∧ presets_saved d')
        ∧ zip (preset_names d') (preset_pref_lists d')
          ≡ₚ zip (preset_names d) (preset_pref_lists d)
  | None => index ≠ 0%Z → movePresetToFront index d = None
  end.
Proof.
  intros Hlen.
  destruct (list_index (length (preset_names d)) index) as [k|] eqn:Hk.
  - destruct (decide (index = 0%Z)) as [->|Hindex].
    + pose proof (list_index_lt _ _ _ Hk) as Hlt.
      destruct (lookup_lt_is_Some_2 (preset_names d) k Hlt) as [preset_name Hname].
      destruct (lookup_lt_is_Some_2 (preset_pref_lists d) k ltac:(lia))
        as [pref_list Hlist].
      exists preset_name, pref_list, d. split_and!; try done.
    + destruct (movePresetToFront_place index k d Hlen Hindex Hk)
        as (preset_name & pref_list & d' & Hname & Hlist & Hmove & Hnames
            & Hlists & Hbn & Hbl & (_ & Hcn & Hcl) & Hsaved).
      exists preset_name, pref_list, d'. split_and!; try done.
      * intros _. rewrite <- Hbn, <- Hbl. done.
      * rewrite Hnames, Hlists. cbn [zip zip_with].
        change (zip_with pair ?a ?b) with (zip a b).
        rewrite zip_delete. symmetry. apply delete_Permutation.
        by apply zip_lookup.
  - intros Hindex. unfold movePresetToFront, pop.
    by rewrite (bool_decide_eq_false_2 _ Hindex), Hk.
Qed.

(** X20 at the last of three presets, named by the index -1. *)
Lemma movePresetToFront_moves_witness :
  ∃ preset_name pref_list d',
    movePresetToFront (-1) sample_dialog = Some d'
    ∧ preset_names sample_dialog !! 2 = Some preset_name
    ∧ preset_pref_lists sample_dialog !! 2 = Some pref_list
    ∧ ((-1)%Z = 0%Z → d' = sample_dialog)
    ∧ ((-1)%Z ≠ 0%Z →
       preset_names d' = preset_name :: delete 2 (preset_names sample_dialog)
       ∧ preset_pref_lists d'
         = pref_list :: delete 2 (preset_pref_lists sample_dialog)
       ∧ combined_pref_names d'
         = builtin_pref_names sample_dialog ++ preset_names d'
       ∧ combined_pref_lists d'
         = builtin_pref_lists sample_dialog ++ preset_pref_lists d'
       ∧ presets_saved d')
    ∧ zip (preset_names d') (preset_pref_lists d')
      ≡ₚ zip (preset_names sample_dialog) (preset_pref_lists sample_dialog).
Proof.
  apply (movePresetToFront_moves (-1) sample_dialog). reflexivity.
Defined.

Lemma index_of_lookup (x : string) (l : list string) (j : nat) :
  NoDup l → l !! j = Some x → index_of x l = Some j.
Proof.
  revert j. induction l as [|y l IH]; intros j Hnd Hj; [done|].
  apply NoDup_cons in Hnd as [Hy Hnd]. cbn [index_of].
  destruct j as [|j]; cbn in Hj.
  - simplify_eq. by rewrite bool_decide_eq_true_2.
  - rewrite bool_decide_eq_false_2.
    + by rewrite (IH j Hnd Hj).
    + intros ->. apply Hy. by eapply list_elem_of_lookup_2.
Qed.

Lemma index_of_found (x : string) (l : list string) (j : nat) :
  index_of x l = Some j → l !! j = Some x.
Proof.
  revert j. induction l as [|y l IH]; intros j; [done|].
  cbn [index_of]. case_bool_decide as Hy.
  - intros Heq. by simplify_eq.
  - destruct (index_of x l) as [i|]; [|done]. intros Heq. simplify_eq.
    cbn. by apply IH.
Qed.

(** The custom preset at place [j] is activated. *)
Lemma presetComboItemActivated_place (d : PrefDialog) (j : nat)
    (name : string) :
  presets_consistent d →
  length (builtin_pref_names d) = length (builtin_pref_lists d) →
  NoDup (combined_pref_names d) →
  preset_names d !! j = Some name →
  ∃ pref_list d',
    presetComboItemActivated name d = Some (pref_list, d')
    ∧ preset_pref_lists d !! j = Some pref_list
    ∧ (j = 0 → d' = d)
    ∧ (0 < j →
       ∃ moved,
         preset_names d !! (length (preset_names d) - j) = Some moved
         ∧ preset_names d'
           = moved :: delete (length (preset_names d) - j) (preset_names d)
         ∧ presets_saved d').
Proof.
  intros (Hlen & Hnames & Hlists) Hbuiltin Hnd Hj.
  pose proof (lookup_lt_Some _ _ _ Hj) as Hlt.
  destruct (lookup_lt_is_Some_2 (preset_pref_lists d) j ltac:(lia))
    as [pref_list Hlist].
  assert (index_of name (combined_pref_names d)
          = Some (length (builtin_pref_names d) + j)) as Hindex.
  { apply index_of_lookup; [done|]. rewrite Hnames.
    rewrite lookup_app_r by lia.
    by replace (length (builtin_pref_names d) + j - length (builtin_pref_names d))
      with j by lia. }
  assert (combined_pref_lists d !! (length (builtin_pref_names d) + j)
          = Some pref_list) as Hcombined.
  { rewrite Hlists, lookup_app_r by lia.
    by replace (length (builtin_pref_names d) + j - length (builtin_pref_lists d))
      with j by lia. }
  unfold presetComboItemActivated. rewrite Hindex, Hcombined.
  rewrite bool_decide_eq_true_2 by lia.
  replace (Z.of_nat (length (builtin_pref_names d))
           - Z.of_nat (length (builtin_pref_names d) + j))%Z
    with (- Z.of_nat j)%Z by lia.
  destruct (decide (j = 0)) as [->|Hpos].
  - exists pref_list, d. split_and!; [done|done|done|lia].
  - assert (list_index (length (preset_names d)) (- Z.of_nat j)
            = Some (length (preset_names d) - j)) as Hk.
    { unfold list_index.
      rewrite bool_decide_eq_false_2 by lia.
      rewrite bool_decide_eq_true_2 by lia. f_equal. lia. }
    destruct (movePresetToFront_place (- Z.of_nat j) _ d Hlen ltac:(lia) Hk)
      as (moved & moved_list & d' & Hmoved & _ & Hmove & Hnames' & _ & _ & _
          & _ & Hsaved).
    exists pref_list, d'. rewrite Hmove. split_and!; [done|done|lia|].
    intros _. by exists moved.
Qed.

(** X21. Activating a custom preset in the combo box displays its pref
    list; the preset then moved to the front is the one at the same distance
    from the end of the presets as the activated one is from their start,
    because [movePresetToFront] is given [len(builtin_pref_names) - index]:
    for the preset at place [j > 0] of [n] presets it is the preset at place
    [n - j]. The first preset ([j = 0]) leaves the presets as they are. *)
Theorem presetComboItemActivated_custom (d : PrefDialog) (j : nat)
    (name : string) :
  presets_consistent d →
  length (builtin_pref_names d) = length (builtin_pref_lists d) →
  NoDup (combined_pref_names d) →
  preset_names d !! j = Some name →
  ∃ pref_list d',
    presetComboItemActivated name d = Some (pref_list, d')
    ∧ preset_pref_lists d !! j = Some pref_list
    ∧ (j = 0 → d' = d)
    ∧ (0 < j →
       ∃ moved,
         preset_names d !! (length (preset_names d) - j) = Some moved
         ∧ preset_names d'
           = moved :: delete (length (preset_names d) - j) (preset_names d)
         ∧ presets_saved d').
Proof. apply presetComboItemActivated_place. Qed.

(** X21 at the second of three presets: the third one is moved. *)
Lemma presetComboItemActivated_custom_witness :
  ∃ pref_list d',
    presetComboItemActivated "B" sample_dialog = Some (pref_list, d')
    ∧ preset_pref_lists sample_dialog !! 1 = Some pref_list
    ∧ (1 = 0 → d' = sample_dialog)
    ∧ (0 < 1 →
       ∃ moved,
         preset_names sample_dialog !! (length (preset_names sample_dialog) - 1)
         = Some moved
         ∧ preset_names d'
           = moved :: delete (length (preset_names sample_dialog) - 1)
                        (preset_names sample_dialog)
         ∧ presets_saved d').
Proof.
  apply (presetComboItemActivated_custom sample_dialog 1 "B").
  - unfold presets_consistent. split_and!; reflexivity.
  - reflexivity.
  - apply (bool_decide_unpack _). vm_compute. exact I.
  - reflexivity.
Defined.

(** What [updateExistingPreset] does for the current custom preset. *)
Lemma updateExistingPreset_place (user_pref_list : list string)
    (d : PrefDialog) (name : string) (j : nat) :
  length (preset_names d) = length (preset_pref_lists d) →
  current_custom_name d = Some name →
  index_of name (preset_names d) = Some j →
  ∃ d',
    updateExistingPreset user_pref_list d = Some d'
    ∧ preset_names d' = name :: delete j (preset_names d)
    ∧ preset_pref_lists d' = user_pref_list :: delete j (preset_pref_lists d)
    ∧ builtin_pref_names d' = builtin_pref_names d
    ∧ builtin_pref_lists d' = builtin_pref_lists d
    ∧ presets_consistent d'
    ∧ presets_saved d'.
Proof.
  intros Hlen Hcurrent Hindex.
  pose proof (index_of_found _ _ _ Hindex) as Hname.
  pose proof (lookup_lt_Some _ _ _ Hname) as Hlt.
  unfold updateExistingPreset. rewrite Hcurrent, Hindex.
  rewrite bool_decide_eq_true_2 by lia.
  destruct j as [|j].
  - rewrite bool_decide_eq_false_2 by lia.
    eexists. split; [reflexivity|].
    unfold presets_consistent, presets_saved. cbn.
    rewrite last_snoc, length_insert.
    destruct (preset_names d) as [|n0 names] eqn:Hn; [done|].
    destruct (preset_pref_lists d) as [|l0 lists] eqn:Hl; [simpl in Hlen; lia|].
    cbn in Hname. simplify_eq. cbn. split_and!; try done. lia.
  - rewrite bool_decide_eq_true_2 by lia.
    set (d1 := set_presets (preset_names d)
                 (<[S j := user_pref_list]> (preset_pref_lists d)) d).
    assert (length (preset_names d1) = length (preset_pref_lists d1)) as Hlen1.
    { cbn. by rewrite length_insert. }
    assert (list_index (length (preset_names d1)) (Z.of_nat (S j)) = Some (S j))
      as Hk.
    { unfold list_index. cbn [d1 set_presets preset_names].
      rewrite bool_decide_eq_true_2 by lia. f_equal. lia. }
    destruct (movePresetToFront_place (Z.of_nat (S j)) (S j) d1 Hlen1
                ltac:(lia) Hk)
      as (moved & moved_list & d' & Hmoved & Hmoved_list & Hmove & Hnames'
          & Hlists' & Hbn & Hbl & Hcons & Hsaved).
    exists d'. split; [done|].
    cbn [d1 set_presets preset_names preset_pref_lists] in Hmoved, Hmoved_list,
      Hnames', Hlists'.
    rewrite list_lookup_insert_eq in Hmoved_list by lia.
    simplify_eq. split_and!; try done.
    rewrite Hlists'. f_equal.
    apply list_eq. intros i.
    destruct (decide (i < S j)) as [Hi|Hi].
    + rewrite !list_lookup_delete_lt by done.
      by rewrite list_lookup_insert_ne by lia.
    + rewrite !list_lookup_delete_ge by lia.
      by rewrite list_lookup_insert_ne by lia.
Qed.

(** X22. [updateExistingPreset] puts the current custom preset in front,
    with the pref list of the editor; the other presets keep their order and
    their pref lists, and the presets are saved. Without a current custom
    preset among the names it ends in a [ValueError]. *)
Theorem updateExistingPreset_updates (user_pref_list : list string)
    (d : PrefDialog) :
  length (preset_names d) = length (preset_pref_lists d) →
  match current_custom_name d with
  | Some name =>
      match index_of name (preset_names d) with
      | Some j =>
          ∃ d',
            updateExistingPreset user_pref_list d = Some d'
            ∧ preset_names d !! j = Some name
            ∧ preset_names d' = name :: delete j (preset_names d)
            ∧ preset_pref_lists d'
              = user_pref_list :: delete j (preset_pref_lists d)
            ∧ presets_consistent d'
            ∧ presets_saved d'
      | None => updateExistingPreset user_pref_list d = None
      end
  | None => updateExistingPreset user_pref_list d = None
  end.
Proof.
  intros Hlen.
  destruct (current_custom_name d) as [name|] eqn:Hcurrent.
  - destruct (index_of name (preset_names d)) as [j|] eqn:Hindex.
    + destruct (updateExistingPreset_place user_pref_list d name j Hlen
                  Hcurrent Hindex) as (d' & Hu & Hn & Hl & _ & _ & Hc & Hs).
      exists d'. split_and!; try done. by apply index_of_found.
    + unfold updateExistingPreset. by rewrite Hcurrent, Hindex.
  - unfold updateExistingPreset. by rewrite Hcurrent.
Qed.

(** X22 at the current preset [B]. *)
Lemma updateExistingPreset_updates_witness :
  ∃ d',
    updateExistingPreset ["Text"; "new"; ""] sample_dialog = Some d'
    ∧ preset_names sample_dialog !! 1 = Some "B"
    ∧ preset_names d' = "B" :: delete 1 (preset_names sample_dialog)
    ∧ preset_pref_lists d'
      = ["Text"; "new"; ""] :: delete 1 (preset_pref_lists sample_dialog)
    ∧ presets_consistent d'
    ∧ presets_saved d'.
Proof.
  apply (updateExistingPreset_updates ["Text"; "new"; ""] sample_dialog).
  reflexivity.
Defined.

(** X23. A preset that was just saved is found again: after
    [saveNewPreset] under a name that is not in use, activating that name in
    the combo box displays the pref list it was saved with and leaves the
    presets as they were saved; the cached presets are consistent, saved,
    and their names are still distinct. *)
Theorem saved_preset_is_found (user_pref_list : list string)
    (preset_name : string) (d : PrefDialog) :
  presets_consistent d →
  length (builtin_pref_names d) = length (builtin_pref_lists d) →
  NoDup (combined_pref_names d) →
  preset_name ∉ combined_pref_names d →
  let saved := saveNewPreset user_pref_list preset_name d in
  presetComboItemActivated preset_name saved = Some (user_pref_list, saved)
  ∧ presets_consistent saved
  ∧ presets_saved saved
  ∧ NoDup (combined_pref_names saved).
Proof.
  intros (Hlen & Hnames & Hlists) Hbuiltin Hnd Hnew. cbv zeta.
  set (saved := saveNewPreset user_pref_list preset_name d).
  assert (presets_consistent saved) as Hcons.
  { unfold presets_consistent. cbn. split_and!; [lia|done|done]. }
  assert (NoDup (combined_pref_names saved)) as Hnd'.
  { cbn. rewrite Hnames in Hnd, Hnew.
    apply NoDup_app in Hnd as (Hb & Hdisjoint & Hn).
    apply not_elem_of_app in Hnew as [Hnb Hnn].
    apply NoDup_app. split_and!; [done| |by apply NoDup_cons].
    intros x Hx Hin. apply elem_of_cons in Hin as [->|Hin]; [done|].
    by apply (Hdisjoint x). }
  destruct (presetComboItemActivated_place saved 0 preset_name Hcons
              Hbuiltin Hnd' eq_refl)
    as (pref_list & d' & Hactivated & Hlist & Hsame & _).
  cbn in Hlist. simplify_eq. rewrite (Hsame eq_refl) in Hactivated.
  split_and!; [done|done| |done].
  unfold presets_saved. cbn. by rewrite last_snoc.
Qed.

(** X23 at a new preset [D]. *)
Lemma saved_preset_is_found_witness :
  let saved := saveNewPreset ["Text"; "d"; ""] "D" sample_dialog in
  presetComboItemActivated "D" saved = Some (["Text"; "d"; ""], saved)
  ∧ presets_consistent saved
  ∧ presets_saved saved
  ∧ NoDup (combined_pref_names saved).
Proof.
  apply (saved_preset_is_found ["Text"; "d"; ""] "D" sample_dialog).
  - unfold presets_consistent. split_and!; reflexivity.
  - reflexivity.
  - apply (bool_decide_unpack _). vm_compute. exact I.
  - apply (bool_decide_unpack _). vm_compute. exact I.
Defined.
